(** * REW audio receiver: the RTP receive loop and its three variants

    A shallow embedding of the packet path of
      - pi-receiver/rew_audio_receiver.py          (class AudioReceiver, ALSA sink),
      - pi-receiver/rew_audio_receiver_minimal.py  (class MinimalAudioReceiver, aplay pipe),
      - pi-receiver/rew_audio_receiver_simple.py   (class SimpleAudioReceiver, aplay pipe,
                                                    connected/disconnected flag),
    followed by the properties of the header parser, the sequence tracker,
    the connection monitor and the receive loop.

    Conventions of the embedding.
      - A datagram is a [list byte]; Python's unbounded [int] is [Z]; the
        operators [&] and [>>] are [Z.land] and [Z.shiftr].
      - The [stats] dictionaries have a fixed key set and become records.
      - One loop iteration is a function of the receiver and of an event that
        says what the blocking calls of that iteration did (what [recvfrom]
        returned or raised, what the sink write did, whether a respawn of
        aplay worked, what the clock read).
      - In AudioReceiver every clock read that reaches the state goes through
        [int(...)]: its events carry that whole-second reading.  In
        SimpleAudioReceiver the raw reading is kept and compared with [5.0]:
        its events carry a rational number of seconds and the subtraction is
        exact.
      - Log lines are not part of the state, except AudioReceiver's console
        warnings, which one of the properties is about. *)

From Stdlib Require Import ZArith List Bool Lia QArith String.
From Stdlib Require Import Strings.Byte.
Import ListNotations.
Local Open Scope Z_scope.

(** ** Control flow of one loop iteration *)

(** [Next]: the iteration ended (fell through or hit [continue]) and the
    [while] test is evaluated again.  [Break]: the loop was left, by [break]
    or by an exception that no handler inside the loop catches. *)
Inductive flow (A : Type) : Type :=
| Next (a : A)
| Break (a : A).
Arguments Next {A} a.
Arguments Break {A} a.

Definition flow_state {A : Type} (f : flow A) : A :=
  match f with Next a => a | Break a => a end.

Definition is_next {A : Type} (f : flow A) : bool :=
  match f with Next _ => true | Break _ => false end.

Section Loop.
Variables (A E : Type).
Variable running : A -> bool.
Variable body : A -> E -> flow A.

(** [while self.running: body], driven by the events of the successive
    iterations.  [Next a]: every event was consumed and the loop is still
    iterating, in state [a].  [Break a]: the loop has been left. *)
Fixpoint loop (a : A) (evs : list E) : flow A :=
  match evs with
  | [] => Next a
  | ev :: evs' =>
      if running a then
        match body a ev with
        | Next a' => loop a' evs'
        | Break a' => Break a'
        end
      else Break a
  end.
End Loop.
Arguments loop {A E} running body a evs.

(** What a write to the standard input of the aplay child (write, then
    flush) does when it is called: it returns, or raises [BrokenPipeError],
    or raises another [OSError]. *)
Inductive pipe_result : Type :=
| PipeWritten
| BrokenPipeError
| OtherOSError.

(** [int(x)] on a clock reading: truncation toward zero. *)
Definition py_int (x : Q) : Z := Z.quot (Qnum x) (Zpos (Qden x)).

Definition Qlt_bool (x y : Q) : bool := negb (Qle_bool y x).

(** ** RTP datagrams *)

Module Rtp.

(** The value of a byte, 0..255. *)
Definition byte_val (b : byte) : Z := Z.of_N (Byte.to_N b).

(** An unsigned big-endian field of [struct.unpack('!...')]. *)
Definition be_uint (bs : list byte) : Z :=
  fold_left (fun acc b => acc * 256 + byte_val b) bs 0.

(** [struct.unpack('!BBHII', buf)]: two bytes, one 16-bit and two 32-bit
    unsigned integers in network order; [None] is [struct.error], raised
    when [buf] is not 12 bytes long. *)
Definition unpack_BBHII (buf : list byte) : option (Z * Z * Z * Z * Z) :=
  match buf with
  | [b0; b1; b2; b3; b4; b5; b6; b7; b8; b9; b10; b11] =>
      Some (be_uint [b0], be_uint [b1], be_uint [b2; b3],
            be_uint [b4; b5; b6; b7], be_uint [b8; b9; b10; b11])
  | _ => None
  end.

(** What the loops read out of a datagram.  [ssrc] is [header[4]], which the
    code unpacks and never names. *)
Record packet : Type := {
  version : Z;
  payload_type : Z;
  sequence : Z;
  timestamp : Z;
  ssrc : Z;
  audio_data : list byte
}.

(** header = struct.unpack('!BBHII', data[:12])
    version = (header[0] >> 6) & 0x3
    payload_type = header[1] & 0x7F
    sequence = header[2]
    timestamp = header[3]
    audio_data = data[12:]
    (the version test sits between the last two lines in the source and
    reads nothing but [version]). *)
Definition parse (data : list byte) : option packet :=
  match unpack_BBHII (firstn 12 data) with
  | Some (h0, h1, h2, h3, h4) =>
      Some {| version := Z.land (Z.shiftr h0 6) 0x3;
              payload_type := Z.land h1 0x7F;
              sequence := h2;
              timestamp := h3;
              ssrc := h4;
              audio_data := skipn 12 data |}
  | None => None
  end.

(** [if audio_data:] *)
Definition nonempty (payload : list byte) : bool :=
  match payload with [] => false | _ :: _ => true end.

(** The two tests that send a datagram to [continue]. *)
Definition version_bits (data : list byte) : Z :=
  Z.land (Z.shiftr (byte_val (nth 0 data x00)) 6) 0x3.

Definition passes_validation (data : list byte) : bool :=
  (12 <=? List.length data)%nat && (version_bits data =? 2).

(** *** The sequence tracker

    if last_sequence != -1:
        expected = (last_sequence + 1) & 0xFFFF
        if sequence != expected:
            dropped = (sequence - expected) & 0xFFFF
            errors += dropped
    last_sequence = sequence

    [dropped_packets] is [Some dropped] on the path that adds to [errors]
    (and warns), [None] on the others. *)
Definition dropped_packets (last_sequence sequence : Z) : option Z :=
  if negb (last_sequence =? -1) then
    let expected := Z.land (last_sequence + 1) 0xFFFF in
    if negb (sequence =? expected) then
      Some (Z.land (sequence - expected) 0xFFFF)
    else None
  else None.

(** The block as the operation [observe] of the specification: the count
    added to [errors] (0 when nothing is added) and the new
    [last_sequence]. *)
Definition observe (last_sequence sequence : Z) : Z * Z :=
  (match dropped_packets last_sequence sequence with
   | Some dropped => dropped
   | None => 0
   end,
   sequence).

(** The sequence number of a datagram that passes the two tests. *)
Definition accepted_sequence (data : list byte) : option Z :=
  if passes_validation data then option_map sequence (parse data) else None.

(** The pair ([errors], [last_sequence]) after one more accepted packet. *)
Definition track (st : Z * Z) (seq : Z) : Z * Z :=
  (fst st + fst (observe (snd st) seq), snd (observe (snd st) seq)).

(** Packets 0 to 9, then 15, then 16 to 20. *)
Definition run_with_gap : list Z :=
  [0; 1; 2; 3; 4; 5; 6; 7; 8; 9; 15; 16; 17; 18; 19; 20].

(** *** A synthetic encoder

    Not part of the receiver: the sender side of the wire format, written
    from the layout of the fixed RTP header (V:2 P:1 X:1 CC:4 | M:1 PT:7 |
    sequence:16 | timestamp:32 | SSRC:32, network order), to state the
    round trip of [parse]. *)
Record fields : Type := {
  f_version : Z;
  f_padding : Z;
  f_extension : Z;
  f_csrc_count : Z;
  f_marker : Z;
  f_payload_type : Z;
  f_sequence : Z;
  f_timestamp : Z;
  f_ssrc : Z
}.

Definition fields_in_range (f : fields) : Prop :=
  0 <= f_version f < 4 /\ 0 <= f_padding f < 2 /\ 0 <= f_extension f < 2 /\
  0 <= f_csrc_count f < 16 /\ 0 <= f_marker f < 2 /\
  0 <= f_payload_type f < 128 /\ 0 <= f_sequence f < 65536 /\
  0 <= f_timestamp f < 4294967296 /\ 0 <= f_ssrc f < 4294967296.

Definition byte_of_Z (z : Z) : byte :=
  match Byte.of_N (Z.to_N (z mod 256)) with
  | Some b => b
  | None => x00
  end.

(** The [n] low bytes of [z], most significant first. *)
Fixpoint be_bytes (n : nat) (z : Z) : list byte :=
  match n with
  | O => []
  | S n' => be_bytes n' (z / 256) ++ [byte_of_Z z]
  end.

Definition synthetic_encode (f : fields) (payload : list byte) : list byte :=
  byte_of_Z (f_version f * 64 + f_padding f * 32 + f_extension f * 16
             + f_csrc_count f)
  :: byte_of_Z (f_marker f * 128 + f_payload_type f)
  :: be_bytes 2 (f_sequence f) ++ be_bytes 4 (f_timestamp f)
     ++ be_bytes 4 (f_ssrc f) ++ payload.

(** A version-2 datagram with the given sequence number and payload, every
    other field zero. *)
Definition datagram (seq : Z) (payload : list byte) : list byte :=
  synthetic_encode
    {| f_version := 2; f_padding := 0; f_extension := 0; f_csrc_count := 0;
       f_marker := 0; f_payload_type := 0; f_sequence := seq;
       f_timestamp := 0; f_ssrc := 0 |} payload.

End Rtp.

(** ** rew_audio_receiver.py: class AudioReceiver *)

Module AudioReceiver.
Import Rtp.

(** [self.stats] *)
Record stats : Type := {
  packets_received : Z;
  bytes_received : Z;
  errors : Z;
  last_sequence : Z;
  connection_errors : Z;
  last_packet_time : Z;
  stream_start_time : Z
}.

(** The console warnings of [run] and [check_connection_health]. *)
Inductive warning : Type :=
| DroppedPackets (dropped expected sequence total_errors : Z)
| ReceiverError (connection_errors : Z)
| NoDataReceived (time_since_last : Z)
| HighErrorRate (total_errors total_packets : Z).

(** The receiver object.  [socket] and [pcm] say whether the attribute
    holds a handle ([true]) or [None]; [pcm_written] lists the payloads
    handed to [self.pcm.write], newest first; [console] the warnings
    printed, newest first. *)
Record receiver : Type := {
  running : bool;
  socket : bool;
  pcm : bool;
  stats_of : stats;
  pcm_written : list (list byte);
  console : list warning
}.

(** [__init__] *)
Definition init : receiver :=
  {| running := false;
     socket := false;
     pcm := false;
     stats_of := {| packets_received := 0; bytes_received := 0; errors := 0;
                    last_sequence := -1; connection_errors := 0;
                    last_packet_time := 0; stream_start_time := 0 |};
     pcm_written := [];
     console := [] |}.

Definition with_stats (r : receiver) (s : stats) : receiver :=
  {| running := running r; socket := socket r; pcm := pcm r;
     stats_of := s; pcm_written := pcm_written r; console := console r |}.

Definition print (r : receiver) (w : warning) : receiver :=
  {| running := running r; socket := socket r; pcm := pcm r;
     stats_of := stats_of r; pcm_written := pcm_written r;
     console := w :: console r |}.

(** [start]: [ok] says whether binding the socket and opening the PCM
    device both worked; [now] is [int(time.time())].  Returns the receiver
    and the boolean [start] returns. *)
Definition start (r : receiver) (ok : bool) (now : Z) : receiver * bool :=
  if ok then
    let s := stats_of r in
    ({| running := true; socket := true; pcm := true;
        stats_of := {| packets_received := packets_received s;
                       bytes_received := bytes_received s;
                       errors := errors s;
                       last_sequence := last_sequence s;
                       connection_errors := connection_errors s;
                       last_packet_time := last_packet_time s;
                       stream_start_time := now |};
        pcm_written := pcm_written r; console := console r |}, true)
  else (r, false).

(** [stop] *)
Definition stop (r : receiver) : receiver :=
  {| running := false; socket := false; pcm := false;
     stats_of := stats_of r; pcm_written := pcm_written r;
     console := console r |}.

Inductive connection_status : Type :=
| STOPPED | WAITING | GOOD | SLOW | DISCONNECTED.

(** [get_connection_status]; [current_time] is [int(time.time())]. *)
Definition get_connection_status (r : receiver) (current_time : Z)
  : connection_status :=
  if negb (running r) then STOPPED
  else
    let last_packet_time := last_packet_time (stats_of r) in
    if last_packet_time =? 0 then WAITING
    else
      let time_since_last := current_time - last_packet_time in
      if time_since_last <? 2 then GOOD
      else if time_since_last <? 10 then SLOW
      else DISCONNECTED.

(** [total_errors > total_packets * 0.05], in exact rational arithmetic. *)
Definition above_five_percent (total_errors total_packets : Z) : bool :=
  negb (Qle_bool (inject_Z total_errors) (inject_Z total_packets * (5 # 100))).

(** [check_connection_health]; [current_time] is [int(time.time())]. *)
Definition check_connection_health (r : receiver) (current_time : Z)
  : receiver :=
  if negb (running r) then r
  else
    let last_packet_time := last_packet_time (stats_of r) in
    let stream_start_time := stream_start_time (stats_of r) in
    if current_time - stream_start_time <? 10 then r
    else
      let time_since_last := current_time - last_packet_time in
      let r1 :=
        if 15 <? time_since_last then print r (NoDataReceived time_since_last)
        else r in
      let total_packets := packets_received (stats_of r1) in
      let total_errors := errors (stats_of r1) in
      if (100 <? total_packets) && above_five_percent total_errors total_packets
      then print r1 (HighErrorRate total_errors total_packets)
      else r1.

(** What [self.pcm.write] does when it is called. *)
Inductive pcm_result : Type :=
| Written
| ALSAAudioError.

(** What one iteration meets at its blocking calls. *)
Inductive event : Type :=
| Received (data : list byte) (current_time : Z) (w : pcm_result)
    (** [recvfrom] returned [data]; [int(current_time)]; the write's outcome *)
| SocketTimeout (current_time : Z)
    (** [socket.timeout]; the clock read of [check_connection_health] *)
| SocketError
    (** any other [Exception] out of [recvfrom] *)
| KeyboardInterrupt.

(** The events in which [recvfrom] returns no datagram. *)
Definition not_received (ev : event) : Prop :=
  match ev with
  | Received _ _ _ => False
  | _ => True
  end.

(** Every event but the explicit stop. *)
Definition not_interrupt (ev : event) : Prop :=
  match ev with
  | KeyboardInterrupt => False
  | _ => True
  end.

(** The sequence number an event delivers to the sequence tracker. *)
Definition sequence_of (ev : event) : option Z :=
  match ev with
  | Received data _ _ => accepted_sequence data
  | _ => None
  end.

(** The events whose timeouts, if any, fall less than 10 seconds after
    [t0]. *)
Definition early (t0 : Z) (ev : event) : Prop :=
  match ev with
  | SocketTimeout now => now - t0 < 10
  | _ => True
  end.

(** The handler [except Exception as e]. *)
Definition on_exception (r : receiver) : receiver :=
  let s := stats_of r in
  let n := connection_errors s + 1 in
  let r1 := with_stats r
    {| packets_received := packets_received s;
       bytes_received := bytes_received s;
       errors := errors s;
       last_sequence := last_sequence s;
       connection_errors := n;
       last_packet_time := last_packet_time s;
       stream_start_time := stream_start_time s |} in
  let r2 := print r1 (ReceiverError n) in
  let s2 := stats_of r2 in
  with_stats r2
    {| packets_received := packets_received s2;
       bytes_received := bytes_received s2;
       errors := errors s2 + 1;
       last_sequence := last_sequence s2;
       connection_errors := connection_errors s2;
       last_packet_time := last_packet_time s2;
       stream_start_time := stream_start_time s2 |}.

(** [self.stats["last_packet_time"] = int(current_time)] *)
Definition set_last_packet_time (r : receiver) (t : Z) : receiver :=
  let s := stats_of r in
  with_stats r
    {| packets_received := packets_received s;
       bytes_received := bytes_received s;
       errors := errors s;
       last_sequence := last_sequence s;
       connection_errors := connection_errors s;
       last_packet_time := t;
       stream_start_time := stream_start_time s |}.

(** The call [self.pcm.write(audio_data)] inside its [try]: the payload is
    handed over whatever the device answers, and [ALSAAudioError] is
    swallowed. *)
Definition pcm_write (r : receiver) (payload : list byte) (w : pcm_result)
  : receiver :=
  {| running := running r; socket := socket r; pcm := pcm r;
     stats_of := stats_of r; pcm_written := payload :: pcm_written r;
     console := console r |}.

(** "Update statistics" and "Check for dropped packets" of [run].  (The
    local [packet_count] and the status line printed every 1000 packets
    touch neither the statistics nor the warnings.) *)
Definition update_statistics (r : receiver) (data : list byte) (sequence : Z)
  : receiver :=
  let s := stats_of r in
  let packets := packets_received s + 1 in
  let bytes := bytes_received s + Z.of_nat (List.length data) in
  match dropped_packets (last_sequence s) sequence with
  | Some dropped =>
      let total := errors s + dropped in
      let expected := Z.land (last_sequence s + 1) 0xFFFF in
      print
        (with_stats r
           {| packets_received := packets; bytes_received := bytes;
              errors := total; last_sequence := sequence;
              connection_errors := connection_errors s;
              last_packet_time := last_packet_time s;
              stream_start_time := stream_start_time s |})
        (DroppedPackets dropped expected sequence total)
  | None =>
      with_stats r
        {| packets_received := packets; bytes_received := bytes;
           errors := errors s; last_sequence := sequence;
           connection_errors := connection_errors s;
           last_packet_time := last_packet_time s;
           stream_start_time := stream_start_time s |}
  end.

(** The body of [while self.running:] in [run]. *)
Definition run_iteration (r : receiver) (ev : event) : flow receiver :=
  match ev with
  | Received data current_time w =>
      let r1 := set_last_packet_time r current_time in
      if (List.length data <? 12)%nat then Next r1
      else
        match parse data with
        | None => Next (on_exception r1)   (* struct.error *)
        | Some p =>
            if negb (version p =? 2) then Next r1
            else
              let r2 := if nonempty (audio_data p)
                        then pcm_write r1 (audio_data p) w
                        else r1 in
              Next (update_statistics r2 data (sequence p))
        end
  | SocketTimeout current_time => Next (check_connection_health r current_time)
  | SocketError => Next (on_exception r)
  | KeyboardInterrupt => Break r
  end.

(** [run]: [start], the loop, and [stop] in the [finally] clause once the
    loop is left.  [Next] means the events ran out with the loop still
    iterating. *)
Definition run (r : receiver) (ok : bool) (now : Z) (evs : list event)
  : flow receiver :=
  match start r ok now with
  | (r1, true) =>
      match loop running run_iteration r1 evs with
      | Next r2 => Next r2
      | Break r2 => Break (stop r2)
      end
  | (r1, false) => Break r1
  end.

End AudioReceiver.

(** ** rew_audio_receiver_minimal.py: class MinimalAudioReceiver *)

Module MinimalAudioReceiver.
Import Rtp.

(** [self.stats] *)
Record stats : Type := {
  packets_received : Z;
  bytes_received : Z;
  errors : Z;
  last_sequence : Z
}.

(** The receiver object.  [aplay_process] says whether the attribute holds
    a process ([true]) or [None]; [stdin_writes] lists the payloads handed
    to [self.aplay_process.stdin.write], newest first; [spawned] counts the
    aplay processes created so far. *)
Record receiver : Type := {
  running : bool;
  socket : bool;
  aplay_process : bool;
  stats_of : stats;
  stdin_writes : list (list byte);
  spawned : nat
}.

(** [__init__] *)
Definition init : receiver :=
  {| running := false; socket := false; aplay_process := false;
     stats_of := {| packets_received := 0; bytes_received := 0; errors := 0;
                    last_sequence := -1 |};
     stdin_writes := []; spawned := O |}.

Definition with_stats (r : receiver) (s : stats) : receiver :=
  {| running := running r; socket := socket r;
     aplay_process := aplay_process r; stats_of := s;
     stdin_writes := stdin_writes r; spawned := spawned r |}.

(** [start]: [ok] says whether binding the socket and spawning aplay both
    worked. *)
Definition start (r : receiver) (ok : bool) : receiver * bool :=
  if ok then
    ({| running := true; socket := true; aplay_process := true;
        stats_of := stats_of r; stdin_writes := stdin_writes r;
        spawned := S (spawned r) |}, true)
  else (r, false).

(** [stop] *)
Definition stop (r : receiver) : receiver :=
  {| running := false; socket := false; aplay_process := false;
     stats_of := stats_of r; stdin_writes := stdin_writes r;
     spawned := spawned r |}.

(** [restart_aplay]: the old process is terminated (killed after a second),
    then [Popen] either gives a new process or raises, which leaves
    [aplay_process = None]. *)
Definition restart_aplay (r : receiver) (respawn_ok : bool) : receiver :=
  {| running := running r; socket := socket r;
     aplay_process := respawn_ok; stats_of := stats_of r;
     stdin_writes := stdin_writes r;
     spawned := if respawn_ok then S (spawned r) else spawned r |}.

Inductive event : Type :=
| Received (data : list byte) (w : pipe_result) (respawn_ok : bool)
    (** [recvfrom] returned [data]; what the pipe write does if it is
        called; whether [Popen] works if [restart_aplay] is called *)
| SocketTimeout
| SocketError
| KeyboardInterrupt.

(** Every event but the explicit stop. *)
Definition not_interrupt (ev : event) : Prop :=
  match ev with
  | KeyboardInterrupt => False
  | _ => True
  end.

(** The sequence number an event delivers to the sequence tracker. *)
Definition sequence_of (ev : event) : option Z :=
  match ev with
  | Received data _ _ => accepted_sequence data
  | _ => None
  end.

(** The handler [except Exception as e]. *)
Definition on_exception (r : receiver) : receiver :=
  let s := stats_of r in
  with_stats r
    {| packets_received := packets_received s;
       bytes_received := bytes_received s;
       errors := errors s + 1;
       last_sequence := last_sequence s |}.

(** The [try] around [stdin.write] and [stdin.flush]: both
    [BrokenPipeError] and [OSError] lead to [restart_aplay]. *)
Definition stdin_write (r : receiver) (payload : list byte) (w : pipe_result)
  (respawn_ok : bool) : receiver :=
  let r1 :=
    {| running := running r; socket := socket r;
       aplay_process := aplay_process r; stats_of := stats_of r;
       stdin_writes := payload :: stdin_writes r; spawned := spawned r |} in
  match w with
  | PipeWritten => r1
  | BrokenPipeError | OtherOSError => restart_aplay r1 respawn_ok
  end.

(** "Update statistics" and "Check for dropped packets" of [run]. *)
Definition update_statistics (r : receiver) (data : list byte) (sequence : Z)
  : receiver :=
  let s := stats_of r in
  with_stats r
    {| packets_received := packets_received s + 1;
       bytes_received := bytes_received s + Z.of_nat (List.length data);
       errors := match dropped_packets (last_sequence s) sequence with
                 | Some dropped => errors s + dropped
                 | None => errors s
                 end;
       last_sequence := sequence |}.

(** The body of [while self.running:] in [run]. *)
Definition run_iteration (r : receiver) (ev : event) : flow receiver :=
  match ev with
  | Received data w respawn_ok =>
      if (List.length data <? 12)%nat then Next r
      else
        match parse data with
        | None => Next (on_exception r)   (* struct.error *)
        | Some p =>
            if negb (version p =? 2) then Next r
            else
              let r1 := if nonempty (audio_data p) && aplay_process r
                        then stdin_write r (audio_data p) w respawn_ok
                        else r in
              Next (update_statistics r1 data (sequence p))
        end
  | SocketTimeout => Next r
  | SocketError => Next (on_exception r)
  | KeyboardInterrupt => Break r
  end.

(** [run]: [start], the loop, and [stop] in the [finally] clause. *)
Definition run (r : receiver) (ok : bool) (evs : list event) : flow receiver :=
  match start r ok with
  | (r1, true) =>
      match loop running run_iteration r1 evs with
      | Next r2 => Next r2
      | Break r2 => Break (stop r2)
      end
  | (r1, false) => Break r1
  end.

End MinimalAudioReceiver.

(** ** rew_audio_receiver_simple.py: class SimpleAudioReceiver *)

Module SimpleAudioReceiver.
Import Rtp.

(** The module-level dictionary [stats]. *)
Record stats : Type := {
  packets_received : Z;
  bytes_received : Z;
  errors : Z;
  last_sequence : Z;
  start_time : Q;
  connected : bool;
  connection_time : Z;
  last_sender : option string
}.

(** The receiver object together with the global [stats] it updates.
    [aplay_process] says whether the attribute holds a process or [None];
    [stdin_writes] lists the payloads handed to
    [self.aplay_process.stdin.write], newest first. *)
Record receiver : Type := {
  running : bool;
  socket : bool;
  aplay_process : bool;
  last_packet_time : Q;
  stats_of : stats;
  stdin_writes : list (list byte)
}.

(** The global [stats] at import time ([now] is [time.time()]) and
    [__init__]. *)
Definition init (now : Q) : receiver :=
  {| running := false; socket := false; aplay_process := false;
     last_packet_time := 0%Q;
     stats_of := {| packets_received := 0; bytes_received := 0; errors := 0;
                    last_sequence := -1; start_time := now;
                    connected := false; connection_time := 0;
                    last_sender := None |};
     stdin_writes := [] |}.

Definition with_stats (r : receiver) (s : stats) : receiver :=
  {| running := running r; socket := socket r;
     aplay_process := aplay_process r;
     last_packet_time := last_packet_time r; stats_of := s;
     stdin_writes := stdin_writes r |}.

Definition with_aplay (r : receiver) (p : bool) : receiver :=
  {| running := running r; socket := socket r; aplay_process := p;
     last_packet_time := last_packet_time r; stats_of := stats_of r;
     stdin_writes := stdin_writes r |}.

(** [start_aplay]: [spawn_ok] says whether [Popen] works.  Returns the
    receiver and the boolean [start_aplay] returns. *)
Definition start_aplay (r : receiver) (spawn_ok : bool) : receiver * bool :=
  if spawn_ok then (with_aplay r true, true) else (r, false).

(** [stop_aplay] *)
Definition stop_aplay (r : receiver) : receiver :=
  if aplay_process r then with_aplay r false else r.

(** [stop] *)
Definition stop (r : receiver) : receiver :=
  let r1 := stop_aplay r in
  {| running := false; socket := false; aplay_process := aplay_process r1;
     last_packet_time := last_packet_time r1; stats_of := stats_of r1;
     stdin_writes := stdin_writes r1 |}.

Inductive event : Type :=
| Received (data : list byte) (sender : string) (port : Z) (now : Q)
    (w : pipe_result) (respawn_ok : bool)
    (** [recvfrom] returned [(data, (sender, port))]; the clock reading of
        the iteration; what the pipe write does if it is called; whether
        [Popen] works if aplay is started again *)
| SocketTimeout (now : Q)
| SocketError
| KeyboardInterrupt.

(** Every event but the explicit stop. *)
Definition not_interrupt (ev : event) : Prop :=
  match ev with
  | KeyboardInterrupt => False
  | _ => True
  end.

(** The sequence number of an event whose datagram passes header
    validation. *)
Definition sequence_of (ev : event) : option Z :=
  match ev with
  | Received data _ _ _ _ _ => accepted_sequence data
  | _ => None
  end.

(** The reception time of the last of [evs] that carries a datagram which
    passes header validation, [t] when there is none. *)
Definition last_accepted (evs : list event) (t : Q) : Q :=
  fold_left
    (fun t ev =>
       match ev with
       | Received data _ _ now _ _ =>
           if passes_validation data then now else t
       | _ => t
       end)
    evs t.

(** The events in which a write to aplay, if attempted, meets a broken
    pipe and aplay cannot be started again. *)
Definition restart_fails (ev : event) : Prop :=
  match ev with
  | Received _ _ _ _ BrokenPipeError false => True
  | _ => False
  end.

(** The handler [except Exception as e] of the receive loop. *)
Definition on_exception (r : receiver) : receiver :=
  let s := stats_of r in
  with_stats r
    {| packets_received := packets_received s;
       bytes_received := bytes_received s;
       errors := errors s + 1;
       last_sequence := last_sequence s;
       start_time := start_time s;
       connected := connected s;
       connection_time := connection_time s;
       last_sender := last_sender s |}.

(** "Write to aplay stdin": the write, then on [BrokenPipeError]
    [stop_aplay] and [start_aplay], and [break] when that fails; any other
    exception is logged and the iteration goes on. *)
Definition stdin_write (r : receiver) (payload : list byte) (w : pipe_result)
  (respawn_ok : bool) : flow receiver :=
  let r1 :=
    {| running := running r; socket := socket r;
       aplay_process := aplay_process r;
       last_packet_time := last_packet_time r; stats_of := stats_of r;
       stdin_writes := payload :: stdin_writes r |} in
  match w with
  | PipeWritten => Next r1
  | BrokenPipeError =>
      match start_aplay (stop_aplay r1) respawn_ok with
      | (r2, true) => Next r2
      | (r2, false) => Break r2
      end
  | OtherOSError => Next r1
  end.

Definition same_sender (last : option string) (sender : string) : bool :=
  match last with
  | Some s => String.eqb s sender
  | None => false
  end.

(** "Detect new connection" *)
Definition detect_connection (r : receiver) (sender : string) (now : Q)
  : receiver :=
  let s := stats_of r in
  if negb (connected s) then
    with_stats r
      {| packets_received := packets_received s;
         bytes_received := bytes_received s;
         errors := errors s;
         last_sequence := last_sequence s;
         start_time := start_time s;
         connected := true;
         connection_time := py_int now;
         last_sender := Some sender |}
  else if negb (same_sender (last_sender s) sender) then
    with_stats r
      {| packets_received := packets_received s;
         bytes_received := bytes_received s;
         errors := errors s;
         last_sequence := last_sequence s;
         start_time := start_time s;
         connected := connected s;
         connection_time := connection_time s;
         last_sender := Some sender |}
  else r.

(** "Update statistics" *)
Definition update_statistics (r : receiver) (data : list byte) (sequence : Z)
  (now : Q) : receiver :=
  let s := stats_of r in
  {| running := running r; socket := socket r;
     aplay_process := aplay_process r;
     last_packet_time := now;
     stats_of := {| packets_received := packets_received s + 1;
                    bytes_received :=
                      bytes_received s + Z.of_nat (List.length data);
                    errors := errors s;
                    last_sequence := sequence;
                    start_time := start_time s;
                    connected := connected s;
                    connection_time := connection_time s;
                    last_sender := last_sender s |};
     stdin_writes := stdin_writes r |}.

(** The handler [except socket.timeout]: "Check for disconnection (no
    packets for 5 seconds)". *)
Definition on_timeout (r : receiver) (now : Q) : receiver :=
  let s := stats_of r in
  if connected s && Qlt_bool 0 (last_packet_time r) then
    if Qlt_bool 5 (now - last_packet_time r) then
      with_stats r
        {| packets_received := packets_received s;
           bytes_received := bytes_received s;
           errors := errors s;
           last_sequence := last_sequence s;
           start_time := start_time s;
           connected := false;
           connection_time := connection_time s;
           last_sender := None |}
    else r
  else r.

(** The body of [while self.running:] in [start]. *)
Definition run_iteration (r : receiver) (ev : event) : flow receiver :=
  match ev with
  | Received data sender port now w respawn_ok =>
      if (List.length data <? 12)%nat then Next r
      else
        match parse data with
        | None => Next (on_exception r)   (* struct.error *)
        | Some p =>
            if negb (version p =? 2) then Next r
            else
              let written :=
                if aplay_process r && nonempty (audio_data p)
                then stdin_write r (audio_data p) w respawn_ok
                else Next r in
              match written with
              | Break r1 => Break r1
              | Next r1 =>
                  Next (update_statistics (detect_connection r1 sender now)
                          data (sequence p) now)
              end
        end
  | SocketTimeout now => Next (on_timeout r now)
  | SocketError => Next (on_exception r)
  | KeyboardInterrupt => Break r
  end.

(** [start]: [ok] says whether the socket set-up and the first
    [start_aplay] worked; then the receive loop.  [Break] carries the
    state in which [start] is left. *)
Definition start (r : receiver) (ok : bool) (evs : list event)
  : flow receiver :=
  if ok then
    loop running run_iteration
      {| running := true; socket := true; aplay_process := true;
         last_packet_time := last_packet_time r; stats_of := stats_of r;
         stdin_writes := stdin_writes r |} evs
  else Break r.

End SimpleAudioReceiver.

(** ** What a sequence of events carries

    Measures of the events of a run, against which the counters and the
    sink of the receivers are stated: the datagrams received, those that
    pass header validation, their lengths and payloads, the socket
    errors. *)

Module Trace.
Import Rtp.

Definition sum (l : list Z) : Z := fold_right Z.add 0 l.

(** 1 for a datagram that passes header validation, 0 otherwise. *)
Definition accepted_count (d : option (list byte)) : Z :=
  match d with
  | Some data => if passes_validation data then 1 else 0
  | None => 0
  end.

(** The length of a datagram that passes header validation. *)
Definition accepted_bytes (d : option (list byte)) : Z :=
  match d with
  | Some data =>
      if passes_validation data then Z.of_nat (List.length data) else 0
  | None => 0
  end.

(** The payload of a datagram that passes header validation, when it is
    not empty. *)
Definition accepted_payload (d : option (list byte)) : list (list byte) :=
  match d with
  | Some data =>
      if passes_validation data && nonempty (skipn 12 data)
      then [skipn 12 data] else []
  | None => []
  end.

Definition audio_datagram (ev : AudioReceiver.event) : option (list byte) :=
  match ev with
  | AudioReceiver.Received data _ _ => Some data
  | _ => None
  end.

Definition minimal_datagram (ev : MinimalAudioReceiver.event)
  : option (list byte) :=
  match ev with
  | MinimalAudioReceiver.Received data _ _ => Some data
  | _ => None
  end.

Definition simple_datagram (ev : SimpleAudioReceiver.event)
  : option (list byte) :=
  match ev with
  | SimpleAudioReceiver.Received data _ _ _ _ _ => Some data
  | _ => None
  end.

Definition audio_socket_error (ev : AudioReceiver.event) : Z :=
  match ev with AudioReceiver.SocketError => 1 | _ => 0 end.

Definition minimal_socket_error (ev : MinimalAudioReceiver.event) : Z :=
  match ev with MinimalAudioReceiver.SocketError => 1 | _ => 0 end.

Definition simple_socket_error (ev : SimpleAudioReceiver.event) : Z :=
  match ev with SimpleAudioReceiver.SocketError => 1 | _ => 0 end.

(** 1 for a datagram whose write to aplay, if attempted, fails and is
    followed by a successful [Popen]. *)
Definition minimal_respawn (ev : MinimalAudioReceiver.event) : nat :=
  match ev with
  | MinimalAudioReceiver.Received _ PipeWritten _ => 0
  | MinimalAudioReceiver.Received _ _ true => 1
  | _ => 0
  end.

(** The sequence numbers a run delivers to the sequence tracker, in
    arrival order: those of the received datagrams that pass header
    validation. *)
Definition audio_sequences (evs : list AudioReceiver.event) : list Z :=
  flat_map (fun ev => match AudioReceiver.sequence_of ev with
                      | Some seq => [seq]
                      | None => []
                      end) evs.

Definition minimal_sequences (evs : list MinimalAudioReceiver.event)
  : list Z :=
  flat_map (fun ev => match MinimalAudioReceiver.sequence_of ev with
                      | Some seq => [seq]
                      | None => []
                      end) evs.

(** [n] sequence numbers in order from [s0], wrapping at 65536. *)
Definition in_order (s0 : Z) (n : nat) : list Z :=
  map (fun i => (s0 + Z.of_nat i) mod 65536) (seq 0 n).

(** Sequence numbers of 16 bits that strictly increase from [s] on. *)
Fixpoint increasing (s : Z) (seqs : list Z) : Prop :=
  match seqs with
  | [] => True
  | s' :: rest => s < s' < 65536 /\ increasing s' rest
  end.

(** A value of [last_sequence]: unset, or a sequence number of 16 bits. *)
Definition sequence_or_unset (s : Z) : Prop := s = -1 \/ 0 <= s <= 65535.

(** The order GOOD, SLOW, DISCONNECTED of the statuses that depend on the
    elapsed time. *)
Definition staleness (c : AudioReceiver.connection_status) : Z :=
  match c with
  | AudioReceiver.GOOD => 0
  | AudioReceiver.SLOW => 1
  | AudioReceiver.DISCONNECTED => 2
  | AudioReceiver.STOPPED | AudioReceiver.WAITING => -1
  end.

End Trace.

(** * Properties *)

(** ** Bytes and masks *)

Lemma land_ffff (x : Z) : Z.land x 0xFFFF = x mod 65536.
Proof. exact (Z.land_ones x 16 ltac:(lia)). Qed.

Lemma land_7f (x : Z) : Z.land x 0x7F = x mod 128.
Proof. exact (Z.land_ones x 7 ltac:(lia)). Qed.

Lemma shiftr6_land3 (x : Z) : Z.land (Z.shiftr x 6) 0x3 = (x / 64) mod 4.
Proof.
  rewrite Z.shiftr_div_pow2 by lia.
  exact (Z.land_ones (x / 2 ^ 6) 2 ltac:(lia)).
Qed.

Lemma byte_val_range (b : byte) : 0 <= Rtp.byte_val b < 256.
Proof.
  unfold Rtp.byte_val. pose proof (Byte.to_N_bounded b). lia.
Qed.

Lemma byte_val_byte_of_Z (z : Z) : Rtp.byte_val (Rtp.byte_of_Z z) = z mod 256.
Proof.
  unfold Rtp.byte_val, Rtp.byte_of_Z.
  assert (Hr : 0 <= z mod 256 < 256) by (apply Z.mod_pos_bound; lia).
  destruct (Byte.of_N (Z.to_N (z mod 256))) as [b|] eqn:E.
  - apply Byte.to_of_N in E. rewrite E. lia.
  - apply Byte.of_N_None_iff in E. lia.
Qed.

(** Case analysis along the tests a loop body makes on a received
    datagram: too short, [struct.error], wrong version, accepted.  [tac]
    closes the first three. *)
Ltac received_cases data tac :=
  destruct (List.length data <? 12)%nat; [tac|];
  destruct (Rtp.parse data) as [?p|]; [|tac];
  destruct (negb (Rtp.version _ =? 2)); [tac|].

(** ** The sequence tracker *)

Lemma observe_snd (last seq : Z) : snd (Rtp.observe last seq) = seq.
Proof. reflexivity. Qed.

Lemma observe_unset (seq : Z) : fst (Rtp.observe (-1) seq) = 0.
Proof. reflexivity. Qed.

Lemma observe_expected (last seq : Z) :
  seq = (last + 1) mod 65536 -> fst (Rtp.observe last seq) = 0.
Proof.
  intros ->. unfold Rtp.observe, Rtp.dropped_packets.
  rewrite land_ffff, Z.eqb_refl.
  destruct (last =? -1); reflexivity.
Qed.

Lemma observe_gap (last seq : Z) :
  last <> -1 -> seq <> (last + 1) mod 65536 ->
  fst (Rtp.observe last seq) = (seq - (last + 1) mod 65536) mod 65536.
Proof.
  intros Hl Hs. unfold Rtp.observe, Rtp.dropped_packets.
  rewrite !land_ffff.
  destruct (Z.eqb_spec last (-1)) as [|_]; [contradiction|].
  destruct (Z.eqb_spec seq ((last + 1) mod 65536)) as [|_]; [contradiction|].
  reflexivity.
Qed.

Lemma observe_range (last seq : Z) : 0 <= fst (Rtp.observe last seq) <= 65535.
Proof.
  unfold Rtp.observe, Rtp.dropped_packets.
  destruct (negb (last =? -1)); simpl; [|lia].
  destruct (negb (seq =? _)); simpl; [|lia].
  rewrite land_ffff.
  pose proof (Z.mod_pos_bound (seq - Z.land (last + 1) 65535) 65536). lia.
Qed.

(** Both loops that track sequence numbers apply [observe] to their
    [last_sequence] and add its count to [errors]. *)
Lemma audio_update_observe r data seq :
  let s := AudioReceiver.stats_of r in
  let s' := AudioReceiver.stats_of (AudioReceiver.update_statistics r data seq) in
  AudioReceiver.errors s' =
    AudioReceiver.errors s + fst (Rtp.observe (AudioReceiver.last_sequence s) seq) /\
  AudioReceiver.last_sequence s' =
    snd (Rtp.observe (AudioReceiver.last_sequence s) seq).
Proof.
  unfold AudioReceiver.update_statistics, Rtp.observe. simpl.
  destruct (Rtp.dropped_packets _ seq); simpl; split; lia.
Qed.

Lemma minimal_update_observe r data seq :
  let s := MinimalAudioReceiver.stats_of r in
  let s' := MinimalAudioReceiver.stats_of
              (MinimalAudioReceiver.update_statistics r data seq) in
  MinimalAudioReceiver.errors s' =
    MinimalAudioReceiver.errors s
    + fst (Rtp.observe (MinimalAudioReceiver.last_sequence s) seq) /\
  MinimalAudioReceiver.last_sequence s' =
    snd (Rtp.observe (MinimalAudioReceiver.last_sequence s) seq).
Proof.
  unfold MinimalAudioReceiver.update_statistics, Rtp.observe. simpl.
  destruct (Rtp.dropped_packets _ seq); simpl; split; lia.
Qed.

(** C1. The sequence tracker: on the first call ([last_sequence] is the
    unset value -1) [observe] returns 0; afterwards, with
    [expected = (last_sequence + 1) mod 65536], it returns 0 when
    [seq = expected] and [(seq - expected) mod 65536] otherwise, a value
    between 0 and 65535; in every case the new [last_sequence] is [seq];
    [observe 65535] followed by [observe 0] returns 0.  The loops of
    AudioReceiver and MinimalAudioReceiver add that count to [errors] and
    store that [last_sequence]. *)
Theorem C1_observe :
  (forall last seq : Z,
     snd (Rtp.observe last seq) = seq /\
     (last = -1 -> fst (Rtp.observe last seq) = 0) /\
     (last <> -1 ->
        let expected := (last + 1) mod 65536 in
        (seq = expected -> fst (Rtp.observe last seq) = 0) /\
        (seq <> expected ->
           fst (Rtp.observe last seq) = (seq - expected) mod 65536)) /\
     0 <= fst (Rtp.observe last seq) <= 65535 /\
     fst (Rtp.observe (snd (Rtp.observe last 65535)) 0) = 0) /\
  (forall r data seq,
     let s := AudioReceiver.stats_of r in
     let s' := AudioReceiver.stats_of
                 (AudioReceiver.update_statistics r data seq) in
     AudioReceiver.errors s' =
       AudioReceiver.errors s
       + fst (Rtp.observe (AudioReceiver.last_sequence s) seq) /\
     AudioReceiver.last_sequence s' =
       snd (Rtp.observe (AudioReceiver.last_sequence s) seq)) /\
  (forall r data seq,
     let s := MinimalAudioReceiver.stats_of r in
     let s' := MinimalAudioReceiver.stats_of
                 (MinimalAudioReceiver.update_statistics r data seq) in
     MinimalAudioReceiver.errors s' =
       MinimalAudioReceiver.errors s
       + fst (Rtp.observe (MinimalAudioReceiver.last_sequence s) seq) /\
     MinimalAudioReceiver.last_sequence s' =
       snd (Rtp.observe (MinimalAudioReceiver.last_sequence s) seq)).
Proof.
  split; [|split].
  - intros last seq. repeat split.
    + intros ->. apply observe_unset.
    + apply observe_expected.
    + apply observe_gap; assumption.
    + apply observe_range.
    + apply observe_range.
  - exact audio_update_observe.
  - exact minimal_update_observe.
Qed.

(** The examples of the specification: 5 then 6 gives 0, 5 then 8 gives 2,
    65535 then 0 gives 0, each after a first call that gives 0. *)
Lemma C1_observe_witness :
  fst (Rtp.observe (-1) 5) = 0 /\
  fst (Rtp.observe 5 6) = 0 /\
  fst (Rtp.observe 5 8) = (8 - 6) mod 65536 /\
  fst (Rtp.observe 65535 0) = 0.
Proof.
  destruct C1_observe as [H _].
  split; [|split; [|split]].
  - destruct (H (-1) 5) as (_ & H1 & _). apply H1. reflexivity.
  - destruct (H 5 6) as (_ & _ & H2 & _).
    destruct H2 as [H2 _]; [discriminate|]. apply H2. reflexivity.
  - destruct (H 5 8) as (_ & _ & H2 & _).
    destruct H2 as [_ H2]; [discriminate|]. apply H2. discriminate.
  - destruct (H 65535 0) as (_ & _ & H2 & _).
    destruct H2 as [H2 _]; [discriminate|]. apply H2. reflexivity.
Defined.

(** A duplicate is one less than the expected number, modulo 65536. *)
Lemma observe_duplicate (seq : Z) :
  0 <= seq < 65536 -> fst (Rtp.observe seq seq) = 65535.
Proof.
  intros Hs.
  assert (Hl : seq <> -1) by lia.
  assert (He : seq <> (seq + 1) mod 65536).
  { destruct (Z.eq_dec seq 65535) as [->|Hn]; [discriminate|].
    rewrite Z.mod_small by lia. lia. }
  rewrite (observe_gap seq seq Hl He).
  destruct (Z.eq_dec seq 65535) as [->|Hn]; [reflexivity|].
  rewrite (Z.mod_small (seq + 1)) by lia.
  replace (seq - (seq + 1)) with (-1) by lia. reflexivity.
Qed.

(** C2, as stated, fails: [observe 5] followed by [observe 5] does not
    return 0 but 65535, and AudioReceiver's loop, fed the same version-2
    datagram with sequence number 5 twice, ends with [errors = 65535]. *)
Lemma C2_duplicate_counterexample :
  fst (Rtp.observe (snd (Rtp.observe (-1) 5)) 5) = 65535 /\
  fst (Rtp.observe (snd (Rtp.observe (-1) 5)) 5) <> 0 /\
  AudioReceiver.errors
    (AudioReceiver.stats_of
       (flow_state
          (AudioReceiver.run AudioReceiver.init true 100
             [AudioReceiver.Received (Rtp.datagram 5 [x01; x02]) 100
                AudioReceiver.Written;
              AudioReceiver.Received (Rtp.datagram 5 [x01; x02]) 100
                AudioReceiver.Written]))) = 65535.
Proof.
  split; [reflexivity|]. split; [discriminate|]. vm_compute. reflexivity.
Qed.

(** C2, amended.  On a non-first call with [seq] equal to the current
    [last_sequence] (a duplicate), [observe] returns 65535, that is
    [(seq - expected) mod 65536] with [expected = (seq + 1) mod 65536], and
    leaves [last_sequence = seq]; the loops of AudioReceiver and
    MinimalAudioReceiver add 65535 to [errors] on that call. *)
Theorem C2_duplicate_amended :
  forall seq : Z,
    0 <= seq < 65536 ->
    Rtp.observe seq seq = (65535, seq) /\
    (forall r data,
       AudioReceiver.last_sequence (AudioReceiver.stats_of r) = seq ->
       AudioReceiver.errors
         (AudioReceiver.stats_of (AudioReceiver.update_statistics r data seq))
       = AudioReceiver.errors (AudioReceiver.stats_of r) + 65535) /\
    (forall r data,
       MinimalAudioReceiver.last_sequence (MinimalAudioReceiver.stats_of r)
       = seq ->
       MinimalAudioReceiver.errors
         (MinimalAudioReceiver.stats_of
            (MinimalAudioReceiver.update_statistics r data seq))
       = MinimalAudioReceiver.errors (MinimalAudioReceiver.stats_of r)
         + 65535).
Proof.
  intros seq Hs.
  pose proof (observe_duplicate seq Hs) as Hd.
  split; [|split].
  - rewrite (surjective_pairing (Rtp.observe seq seq)), Hd. reflexivity.
  - intros r data Hl.
    destruct (audio_update_observe r data seq) as [He _].
    cbv zeta in He. rewrite He, Hl, Hd. reflexivity.
  - intros r data Hl.
    destruct (minimal_update_observe r data seq) as [He _].
    cbv zeta in He. rewrite He, Hl, Hd. reflexivity.
Qed.

(** The duplicate 5 after 5. *)
Lemma C2_duplicate_amended_witness :
  0 <= 5 < 65536 /\ Rtp.observe 5 5 = (65535, 5).
Proof.
  split; [lia|]. apply (C2_duplicate_amended 5). lia.
Defined.

(** ** The header parser *)

Lemma at_least_12 (data : list byte) :
  (12 <= List.length data)%nat ->
  exists b0 b1 b2 b3 b4 b5 b6 b7 b8 b9 b10 b11 rest,
    data = b0 :: b1 :: b2 :: b3 :: b4 :: b5 :: b6 :: b7 :: b8 :: b9 :: b10
           :: b11 :: rest.
Proof.
  intros H.
  do 12 (destruct data as [|? data]; [simpl in H; lia|]).
  repeat eexists.
Qed.

(** With 12 bytes or more [struct.unpack] does not raise. *)
Lemma parse_total (data : list byte) :
  (12 <= List.length data)%nat ->
  exists p, Rtp.parse data = Some p /\
            Rtp.version p = Rtp.version_bits data /\
            Rtp.audio_data p = skipn 12 data.
Proof.
  intros H.
  destruct (at_least_12 data H)
    as (b0 & b1 & b2 & b3 & b4 & b5 & b6 & b7 & b8 & b9 & b10 & b11 & rest & ->).
  eexists. split; [reflexivity|]. split.
  - unfold Rtp.version_bits. simpl. reflexivity.
  - reflexivity.
Qed.

Lemma parse_layout (data : list byte) :
  (12 <= List.length data)%nat ->
  let b := fun i => Rtp.byte_val (nth i data x00) in
  exists p,
    Rtp.parse data = Some p /\
    Rtp.version p = b 0%nat / 64 /\
    Rtp.payload_type p = b 1%nat mod 128 /\
    Rtp.sequence p = 256 * b 2%nat + b 3%nat /\
    Rtp.timestamp p =
      16777216 * b 4%nat + 65536 * b 5%nat + 256 * b 6%nat + b 7%nat /\
    Rtp.ssrc p =
      16777216 * b 8%nat + 65536 * b 9%nat + 256 * b 10%nat + b 11%nat /\
    Rtp.audio_data p = skipn 12 data.
Proof.
  intros H b. subst b.
  destruct (at_least_12 data H)
    as (b0 & b1 & b2 & b3 & b4 & b5 & b6 & b7 & b8 & b9 & b10 & b11 & rest & ->).
  eexists. split; [reflexivity|].
  cbn [Rtp.version Rtp.payload_type Rtp.sequence Rtp.timestamp Rtp.ssrc
       Rtp.audio_data nth skipn Rtp.be_uint fold_left].
  rewrite shiftr6_land3, land_7f.
  pose proof (byte_val_range b0).
  repeat split; try lia.
  Z.to_euclidean_division_equations. lia.
Qed.

Lemma be_uint_2 (z : Z) :
  0 <= z < 65536 -> Rtp.be_uint (Rtp.be_bytes 2 z) = z.
Proof.
  intros H. cbn [Rtp.be_bytes app Rtp.be_uint fold_left].
  rewrite !byte_val_byte_of_Z.
  Z.to_euclidean_division_equations. lia.
Qed.

Lemma be_uint_4 (z : Z) :
  0 <= z < 4294967296 -> Rtp.be_uint (Rtp.be_bytes 4 z) = z.
Proof.
  intros H. cbn [Rtp.be_bytes app Rtp.be_uint fold_left].
  rewrite !byte_val_byte_of_Z.
  Z.to_euclidean_division_equations. lia.
Qed.

Lemma parse_synthetic_encode (f : Rtp.fields) (payload : list byte) :
  Rtp.fields_in_range f ->
  Rtp.parse (Rtp.synthetic_encode f payload) =
    Some {| Rtp.version := Rtp.f_version f;
            Rtp.payload_type := Rtp.f_payload_type f;
            Rtp.sequence := Rtp.f_sequence f;
            Rtp.timestamp := Rtp.f_timestamp f;
            Rtp.ssrc := Rtp.f_ssrc f;
            Rtp.audio_data := payload |}.
Proof.
  intros (Hv & Hp & Hx & Hc & Hm & Ht & Hs & Hts & Hss).
  pose proof (be_uint_2 _ Hs) as E2.
  pose proof (be_uint_4 _ Hts) as E3.
  pose proof (be_uint_4 _ Hss) as E4.
  unfold Rtp.synthetic_encode.
  cbn [Rtp.be_bytes app] in *.
  unfold Rtp.parse.
  cbn [firstn skipn Rtp.unpack_BBHII].
  rewrite E2, E3, E4.
  cbn [Rtp.be_uint fold_left].
  rewrite !byte_val_byte_of_Z, shiftr6_land3, land_7f.
  f_equal. f_equal.
  - Z.to_euclidean_division_equations. lia.
  - Z.to_euclidean_division_equations. lia.
Qed.

Lemma synthetic_encode_length (f : Rtp.fields) (payload : list byte) :
  List.length (Rtp.synthetic_encode f payload) = (12 + List.length payload)%nat.
Proof. reflexivity. Qed.

Lemma synthetic_encode_version_bits (f : Rtp.fields) (payload : list byte) :
  Rtp.fields_in_range f ->
  Rtp.version_bits (Rtp.synthetic_encode f payload) = Rtp.f_version f.
Proof.
  intros Hf.
  destruct (parse_total (Rtp.synthetic_encode f payload)) as (p & Hp & Hv & _).
  { rewrite synthetic_encode_length. lia. }
  rewrite (parse_synthetic_encode f payload Hf) in Hp.
  injection Hp as <-. symmetry. exact Hv.
Qed.

Lemma synthetic_encode_passes (f : Rtp.fields) (payload : list byte) :
  Rtp.fields_in_range f ->
  Rtp.passes_validation (Rtp.synthetic_encode f payload)
  = (Rtp.f_version f =? 2).
Proof.
  intros Hf. unfold Rtp.passes_validation.
  rewrite synthetic_encode_version_bits by assumption.
  rewrite synthetic_encode_length. reflexivity.
Qed.

(** C3.  The header parser reads the fixed 12-byte header big-endian: of a
    datagram of 12 bytes or more it returns the two top bits of byte 0 as
    version, the seven low bits of byte 1 as payload type, bytes 2..3 as
    sequence number, bytes 4..7 as timestamp, bytes 8..11 as SSRC, and the
    bytes from offset 12 on as payload.  Parsing what the synthetic encoder
    produced from fields in their ranges gives back the version, payload
    type, sequence number, timestamp, SSRC and payload that were encoded,
    and such a datagram passes the validation of the loops exactly when its
    version is 2. *)
Theorem C3_header_round_trip :
  (forall data : list byte,
     (12 <= List.length data)%nat ->
     let b := fun i => Rtp.byte_val (nth i data x00) in
     exists p,
       Rtp.parse data = Some p /\
       Rtp.version p = b 0%nat / 64 /\
       Rtp.payload_type p = b 1%nat mod 128 /\
       Rtp.sequence p = 256 * b 2%nat + b 3%nat /\
       Rtp.timestamp p =
         16777216 * b 4%nat + 65536 * b 5%nat + 256 * b 6%nat + b 7%nat /\
       Rtp.ssrc p =
         16777216 * b 8%nat + 65536 * b 9%nat + 256 * b 10%nat + b 11%nat /\
       Rtp.audio_data p = skipn 12 data) /\
  (forall (f : Rtp.fields) (payload : list byte),
     Rtp.fields_in_range f ->
     Rtp.parse (Rtp.synthetic_encode f payload) =
       Some {| Rtp.version := Rtp.f_version f;
               Rtp.payload_type := Rtp.f_payload_type f;
               Rtp.sequence := Rtp.f_sequence f;
               Rtp.timestamp := Rtp.f_timestamp f;
               Rtp.ssrc := Rtp.f_ssrc f;
               Rtp.audio_data := payload |} /\
     Rtp.passes_validation (Rtp.synthetic_encode f payload)
     = (Rtp.f_version f =? 2)).
Proof.
  split.
  - exact parse_layout.
  - intros f payload Hf. split.
    + apply parse_synthetic_encode. exact Hf.
    + apply synthetic_encode_passes. exact Hf.
Qed.

(** A version-2 header with marker set, payload type 96, sequence number
    4660 (0x1234), timestamp 305419896 (0x12345678) and SSRC 3735928559
    (0xDEADBEEF), in front of three payload bytes. *)
Lemma C3_header_round_trip_witness :
  Rtp.fields_in_range
    {| Rtp.f_version := 2; Rtp.f_padding := 0; Rtp.f_extension := 0;
       Rtp.f_csrc_count := 0; Rtp.f_marker := 1; Rtp.f_payload_type := 96;
       Rtp.f_sequence := 4660; Rtp.f_timestamp := 305419896;
       Rtp.f_ssrc := 3735928559 |} /\
  Rtp.parse [x80; xe0; x12; x34; x12; x34; x56; x78; xde; xad; xbe; xef;
             x01; x02; x03] =
    Some {| Rtp.version := 2; Rtp.payload_type := 96; Rtp.sequence := 4660;
            Rtp.timestamp := 305419896; Rtp.ssrc := 3735928559;
            Rtp.audio_data := [x01; x02; x03] |}.
Proof.
  assert (Hf : Rtp.fields_in_range
    {| Rtp.f_version := 2; Rtp.f_padding := 0; Rtp.f_extension := 0;
       Rtp.f_csrc_count := 0; Rtp.f_marker := 1; Rtp.f_payload_type := 96;
       Rtp.f_sequence := 4660; Rtp.f_timestamp := 305419896;
       Rtp.f_ssrc := 3735928559 |}).
  { unfold Rtp.fields_in_range. simpl. lia. }
  split; [exact Hf|].
  destruct C3_header_round_trip as [_ H].
  destruct (H _ [x01; x02; x03] Hf) as [Hp _].
  exact Hp.
Defined.

(** ** Rejected datagrams *)

(** A datagram is rejected when it is shorter than 12 bytes or its version
    bits are not 2. *)
Lemma rejected_iff (data : list byte) :
  Rtp.passes_validation data = false <->
  (List.length data < 12)%nat \/ Rtp.version_bits data <> 2.
Proof.
  unfold Rtp.passes_validation.
  rewrite andb_false_iff, Nat.leb_gt, Z.eqb_neq. reflexivity.
Qed.

Lemma audio_rejected r data t w :
  Rtp.passes_validation data = false ->
  AudioReceiver.run_iteration r (AudioReceiver.Received data t w)
  = Next (AudioReceiver.set_last_packet_time r t).
Proof.
  intros H. unfold AudioReceiver.run_iteration.
  destruct (Nat.ltb_spec (List.length data) 12) as [Hl|Hl]; [reflexivity|].
  destruct (parse_total data Hl) as (p & -> & Hv & _).
  apply rejected_iff in H. destruct H as [H|H]; [lia|].
  rewrite Hv. apply Z.eqb_neq in H. rewrite H. reflexivity.
Qed.

Lemma minimal_rejected r data w ok :
  Rtp.passes_validation data = false ->
  MinimalAudioReceiver.run_iteration r (MinimalAudioReceiver.Received data w ok)
  = Next r.
Proof.
  intros H. unfold MinimalAudioReceiver.run_iteration.
  destruct (Nat.ltb_spec (List.length data) 12) as [Hl|Hl]; [reflexivity|].
  destruct (parse_total data Hl) as (p & -> & Hv & _).
  apply rejected_iff in H. destruct H as [H|H]; [lia|].
  rewrite Hv. apply Z.eqb_neq in H. rewrite H. reflexivity.
Qed.

Lemma simple_rejected r data sender port now w ok :
  Rtp.passes_validation data = false ->
  SimpleAudioReceiver.run_iteration r
    (SimpleAudioReceiver.Received data sender port now w ok)
  = Next r.
Proof.
  intros H. unfold SimpleAudioReceiver.run_iteration.
  destruct (Nat.ltb_spec (List.length data) 12) as [Hl|Hl]; [reflexivity|].
  destruct (parse_total data Hl) as (p & -> & Hv & _).
  apply rejected_iff in H. destruct H as [H|H]; [lia|].
  rewrite Hv. apply Z.eqb_neq in H. rewrite H. reflexivity.
Qed.

(** C4.  A received datagram shorter than 12 bytes, or whose version bits
    are not 2, ends the iteration at [continue] in all three loops:
    [last_sequence], [packets_received], [bytes_received] and [errors] keep
    their values and nothing is handed to the sink.  (MinimalAudioReceiver
    and SimpleAudioReceiver are left wholly unchanged.) *)
Theorem C4_rejected_datagram_frame :
  forall data : list byte,
    (List.length data < 12)%nat \/ Rtp.version_bits data <> 2 ->
    (forall r t w,
       exists r',
         AudioReceiver.run_iteration r (AudioReceiver.Received data t w)
         = Next r' /\
         AudioReceiver.last_sequence (AudioReceiver.stats_of r')
         = AudioReceiver.last_sequence (AudioReceiver.stats_of r) /\
         AudioReceiver.packets_received (AudioReceiver.stats_of r')
         = AudioReceiver.packets_received (AudioReceiver.stats_of r) /\
         AudioReceiver.bytes_received (AudioReceiver.stats_of r')
         = AudioReceiver.bytes_received (AudioReceiver.stats_of r) /\
         AudioReceiver.errors (AudioReceiver.stats_of r')
         = AudioReceiver.errors (AudioReceiver.stats_of r) /\
         AudioReceiver.pcm_written r' = AudioReceiver.pcm_written r) /\
    (forall r w ok,
       MinimalAudioReceiver.run_iteration r
         (MinimalAudioReceiver.Received data w ok) = Next r) /\
    (forall r sender port now w ok,
       SimpleAudioReceiver.run_iteration r
         (SimpleAudioReceiver.Received data sender port now w ok) = Next r).
Proof.
  intros data H. apply rejected_iff in H.
  split; [|split].
  - intros r t w. eexists. split; [apply audio_rejected; exact H|].
    simpl. repeat split.
  - intros r w ok. apply minimal_rejected. exact H.
  - intros r sender port now w ok. apply simple_rejected. exact H.
Qed.

(** A 13-byte datagram whose version bits are 1. *)
Lemma C4_rejected_datagram_frame_witness :
  Rtp.version_bits
    [x40; x00; x00; x01; x00; x00; x00; x00; x00; x00; x00; x00; x07] = 1 /\
  MinimalAudioReceiver.run_iteration MinimalAudioReceiver.init
    (MinimalAudioReceiver.Received
       [x40; x00; x00; x01; x00; x00; x00; x00; x00; x00; x00; x00; x07]
       PipeWritten true)
  = Next MinimalAudioReceiver.init.
Proof.
  split; [reflexivity|].
  apply (C4_rejected_datagram_frame
           [x40; x00; x00; x01; x00; x00; x00; x00; x00; x00; x00; x00; x07]).
  right. vm_compute. discriminate.
Defined.

(** ** The time of the last packet *)

Lemma audio_received_last_packet_time r data t w :
  AudioReceiver.last_packet_time
    (AudioReceiver.stats_of
       (flow_state
          (AudioReceiver.run_iteration r (AudioReceiver.Received data t w))))
  = t.
Proof.
  unfold AudioReceiver.run_iteration.
  received_cases data ltac:(reflexivity).
  unfold AudioReceiver.update_statistics.
  destruct (Rtp.nonempty _); simpl;
    destruct (Rtp.dropped_packets _ _); reflexivity.
Qed.

Lemma audio_health_stats r t :
  AudioReceiver.stats_of (AudioReceiver.check_connection_health r t)
  = AudioReceiver.stats_of r /\
  AudioReceiver.running (AudioReceiver.check_connection_health r t)
  = AudioReceiver.running r /\
  AudioReceiver.pcm_written (AudioReceiver.check_connection_health r t)
  = AudioReceiver.pcm_written r.
Proof.
  unfold AudioReceiver.check_connection_health.
  destruct (negb _); [repeat split|].
  destruct (_ <? 10); [repeat split|].
  destruct (15 <? _); simpl; destruct (_ && _); repeat split.
Qed.

Lemma audio_iteration_running r ev :
  AudioReceiver.running (flow_state (AudioReceiver.run_iteration r ev))
  = AudioReceiver.running r.
Proof.
  destruct ev as [data t w|t| |]; simpl; try reflexivity.
  - received_cases data ltac:(reflexivity).
    unfold AudioReceiver.update_statistics.
    destruct (Rtp.nonempty _); simpl;
      destruct (Rtp.dropped_packets _ _); reflexivity.
  - apply audio_health_stats.
Qed.

Lemma simple_accepted_last_packet_time r data sender port now w ok r' :
  Rtp.passes_validation data = true ->
  SimpleAudioReceiver.run_iteration r
    (SimpleAudioReceiver.Received data sender port now w ok) = Next r' ->
  SimpleAudioReceiver.last_packet_time r' = now.
Proof.
  unfold Rtp.passes_validation. intros H.
  apply andb_true_iff in H. destruct H as [Hl Hv].
  apply Nat.leb_le in Hl. apply Z.eqb_eq in Hv.
  unfold SimpleAudioReceiver.run_iteration.
  destruct (Nat.ltb_spec (List.length data) 12) as [Hl'|_]; [lia|].
  destruct (parse_total data Hl) as (p & -> & Hp & _).
  rewrite Hp, Hv. simpl.
  destruct (_ && _).
  - destruct (SimpleAudioReceiver.stdin_write _ _ _ _); [|discriminate].
    intros [= <-]. reflexivity.
  - intros [= <-]. reflexivity.
Qed.

(** C5, as stated, fails in AudioReceiver: a running receiver that has
    received nothing is WAITING; an 11-byte datagram, rejected as too
    short, sets [last_packet_time] to its reception time 100 and the status
    read at that time becomes GOOD. *)
Lemma C5_last_packet_time_counterexample :
  exists r r' : AudioReceiver.receiver,
    r = fst (AudioReceiver.start AudioReceiver.init true 50) /\
    Rtp.passes_validation
      [x80; x00; x00; x01; x00; x00; x00; x00; x00; x00; x00] = false /\
    AudioReceiver.run_iteration r
      (AudioReceiver.Received
         [x80; x00; x00; x01; x00; x00; x00; x00; x00; x00; x00] 100
         AudioReceiver.Written) = Next r' /\
    AudioReceiver.last_packet_time (AudioReceiver.stats_of r) = 0 /\
    AudioReceiver.last_packet_time (AudioReceiver.stats_of r') = 100 /\
    AudioReceiver.get_connection_status r 100 = AudioReceiver.WAITING /\
    AudioReceiver.get_connection_status r' 100 = AudioReceiver.GOOD.
Proof.
  do 2 eexists. split; [reflexivity|]. split; [reflexivity|].
  split; [reflexivity|]. repeat split.
Qed.

(** C5, amended.  AudioReceiver sets [last_packet_time] to the reception
    time of every received datagram, before the header is validated, so
    also for one rejected as too short or of the wrong version; timeouts
    and socket errors leave it unchanged; the connection status of a
    running receiver therefore reflects the time elapsed since the last
    received datagram, valid or not.  SimpleAudioReceiver sets its
    [last_packet_time] only for a datagram that passes header validation
    and leaves it unchanged for a rejected one. *)
Theorem C5_last_packet_time_amended :
  (forall r data t w,
     AudioReceiver.last_packet_time
       (AudioReceiver.stats_of
          (flow_state
             (AudioReceiver.run_iteration r
                (AudioReceiver.Received data t w)))) = t) /\
  (forall r t,
     AudioReceiver.last_packet_time
       (AudioReceiver.stats_of
          (flow_state
             (AudioReceiver.run_iteration r (AudioReceiver.SocketTimeout t))))
     = AudioReceiver.last_packet_time (AudioReceiver.stats_of r)) /\
  (forall r,
     AudioReceiver.last_packet_time
       (AudioReceiver.stats_of
          (flow_state
             (AudioReceiver.run_iteration r AudioReceiver.SocketError)))
     = AudioReceiver.last_packet_time (AudioReceiver.stats_of r)) /\
  (forall r data t w now,
     AudioReceiver.running r = true -> t <> 0 ->
     AudioReceiver.get_connection_status
       (flow_state
          (AudioReceiver.run_iteration r (AudioReceiver.Received data t w)))
       now
     = if now - t <? 2 then AudioReceiver.GOOD
       else if now - t <? 10 then AudioReceiver.SLOW
       else AudioReceiver.DISCONNECTED) /\
  (forall r data sender port now w ok,
     Rtp.passes_validation data = false ->
     SimpleAudioReceiver.last_packet_time
       (flow_state
          (SimpleAudioReceiver.run_iteration r
             (SimpleAudioReceiver.Received data sender port now w ok)))
     = SimpleAudioReceiver.last_packet_time r) /\
  (forall r data sender port now w ok r',
     Rtp.passes_validation data = true ->
     SimpleAudioReceiver.run_iteration r
       (SimpleAudioReceiver.Received data sender port now w ok) = Next r' ->
     SimpleAudioReceiver.last_packet_time r' = now).
Proof.
  split; [exact audio_received_last_packet_time|].
  split.
  { intros r t. simpl.
    destruct (audio_health_stats r t) as [-> _]. reflexivity. }
  split; [reflexivity|].
  split.
  { intros r data t w now Hr Ht.
    unfold AudioReceiver.get_connection_status.
    rewrite audio_iteration_running, Hr, audio_received_last_packet_time.
    simpl. apply Z.eqb_neq in Ht. rewrite Ht. reflexivity. }
  split.
  { intros r data sender port now w ok H.
    rewrite (simple_rejected r data sender port now w ok H). reflexivity. }
  exact simple_accepted_last_packet_time.
Qed.

(** A running AudioReceiver that receives a 13-byte datagram with version
    bits 1 at time 100 reports GOOD at time 101. *)
Lemma C5_last_packet_time_amended_witness :
  Rtp.passes_validation
    [x40; x00; x00; x01; x00; x00; x00; x00; x00; x00; x00; x00; x07]
  = false /\
  AudioReceiver.get_connection_status
    (flow_state
       (AudioReceiver.run_iteration
          (fst (AudioReceiver.start AudioReceiver.init true 50))
          (AudioReceiver.Received
             [x40; x00; x00; x01; x00; x00; x00; x00; x00; x00; x00; x00; x07]
             100 AudioReceiver.Written)))
    101
  = AudioReceiver.GOOD.
Proof.
  split; [reflexivity|].
  destruct C5_last_packet_time_amended as (_ & _ & _ & H & _).
  rewrite H; [reflexivity | reflexivity | discriminate].
Defined.

(** ** Loops *)

Section LoopFacts.
Variables (A E : Type).
Variable running : A -> bool.
Variable body : A -> E -> flow A.

(** A property of the state that every iteration on an event in [Q] keeps
    holds of the state in which the loop stands or was left. *)
Lemma loop_invariant (P : A -> Prop) (Q : E -> Prop) :
  (forall a ev,
     Q ev -> P a -> running a = true -> P (flow_state (body a ev))) ->
  forall evs a,
    Forall Q evs -> P a -> P (flow_state (loop running body a evs)).
Proof.
  intros Hstep evs.
  induction evs as [|ev evs IH]; intros a HQ HP; simpl.
  - exact HP.
  - inversion HQ as [|? ? Hev Hevs]; subst.
    destruct (running a) eqn:Hr; [|exact HP].
    pose proof (Hstep a ev Hev HP Hr) as H1.
    destruct (body a ev) as [a1|a1]; simpl in H1.
    + apply IH; assumption.
    + exact H1.
Qed.

(** If no iteration on an event in [Q] leaves the loop or clears the
    running flag, the loop is still iterating after any number of them. *)
Lemma loop_continues (Q : E -> Prop) :
  (forall a ev,
     Q ev -> running a = true ->
     exists a', body a ev = Next a' /\ running a' = true) ->
  forall evs a,
    Forall Q evs -> running a = true ->
    exists a', loop running body a evs = Next a' /\ running a' = true.
Proof.
  intros Hstep evs.
  induction evs as [|ev evs IH]; intros a HQ Hr; simpl.
  - exists a. split; [reflexivity | exact Hr].
  - inversion HQ as [|? ? Hev Hevs]; subst.
    rewrite Hr.
    destruct (Hstep a ev Hev Hr) as (a1 & -> & Hr1).
    apply IH; assumption.
Qed.
End LoopFacts.
Arguments loop_invariant {A E} running body P Q.
Arguments loop_continues {A E} running body Q.

(** ** The connection monitor *)

Lemma audio_quiet_last_packet_time r ev :
  AudioReceiver.not_received ev ->
  AudioReceiver.last_packet_time
    (AudioReceiver.stats_of (flow_state (AudioReceiver.run_iteration r ev)))
  = AudioReceiver.last_packet_time (AudioReceiver.stats_of r).
Proof.
  destruct ev as [data t w|t| |]; simpl; intros H;
    [contradiction| |reflexivity|reflexivity].
  destruct (audio_health_stats r t) as [-> _]. reflexivity.
Qed.

Lemma audio_quiet_run_waiting t0 evs r' now :
  Forall AudioReceiver.not_received evs ->
  AudioReceiver.run AudioReceiver.init true t0 evs = Next r' ->
  AudioReceiver.get_connection_status r' now = AudioReceiver.WAITING.
Proof.
  intros HQ Hrun. unfold AudioReceiver.run in Hrun. simpl in Hrun.
  pose proof (loop_invariant AudioReceiver.running AudioReceiver.run_iteration
    (fun r => AudioReceiver.running r = true /\
              AudioReceiver.last_packet_time (AudioReceiver.stats_of r) = 0)
    AudioReceiver.not_received) as Hinv.
  specialize (Hinv) with (evs := evs)
    (a := fst (AudioReceiver.start AudioReceiver.init true t0)).
  destruct (loop _ _ _ evs) as [r2|r2] eqn:Hl; [|discriminate].
  injection Hrun as ->.
  destruct Hinv as [Hr Ht].
  - intros a ev Hev [Ha Hlt] _. split.
    + rewrite audio_iteration_running. exact Ha.
    + rewrite (audio_quiet_last_packet_time a ev Hev). exact Hlt.
  - exact HQ.
  - split; reflexivity.
  - unfold AudioReceiver.get_connection_status.
    simpl in Hr, Ht. rewrite Hr, Ht. reflexivity.
Qed.

(** C6, as stated, fails on its WAITING clause: a running AudioReceiver
    whose only datagram so far, received at second 100, was rejected for
    its version bits (1, not 2) has never received a valid packet, and its
    status at second 101 is GOOD. *)
Lemma C6_connection_status_counterexample :
  exists r' : AudioReceiver.receiver,
    Rtp.passes_validation
      [x40; x00; x00; x01; x00; x00; x00; x00; x00; x00; x00; x00; x07]
    = false /\
    AudioReceiver.run AudioReceiver.init true 50
      [AudioReceiver.Received
         [x40; x00; x00; x01; x00; x00; x00; x00; x00; x00; x00; x00; x07]
         100 AudioReceiver.Written] = Next r' /\
    AudioReceiver.running r' = true /\
    AudioReceiver.packets_received (AudioReceiver.stats_of r') = 0 /\
    AudioReceiver.get_connection_status r' 101 = AudioReceiver.GOOD.
Proof.
  eexists. split; [reflexivity|]. split; [reflexivity|]. repeat split.
Qed.

(** C6, amended.  [get_connection_status] returns STOPPED exactly when the
    receiver is not running; WAITING exactly when it is running and
    [last_packet_time] still has its initial value 0, which is the case as
    long as the started receiver has met only timeouts and socket errors,
    and no longer once a datagram, valid or not, has been received at a
    time other than 0; and otherwise, with [e] the time elapsed since
    [last_packet_time], GOOD exactly when [e < 2], SLOW exactly when
    [2 <= e < 10] and DISCONNECTED exactly when [10 <= e]. *)
Theorem C6_connection_status_amended :
  (forall (r : AudioReceiver.receiver) (now : Z),
     let last := AudioReceiver.last_packet_time (AudioReceiver.stats_of r) in
     let e := now - last in
     let status := AudioReceiver.get_connection_status r now in
     (status = AudioReceiver.STOPPED <-> AudioReceiver.running r = false) /\
     (status = AudioReceiver.WAITING <->
        AudioReceiver.running r = true /\ last = 0) /\
     (status = AudioReceiver.GOOD <->
        AudioReceiver.running r = true /\ last <> 0 /\ e < 2) /\
     (status = AudioReceiver.SLOW <->
        AudioReceiver.running r = true /\ last <> 0 /\ 2 <= e < 10) /\
     (status = AudioReceiver.DISCONNECTED <->
        AudioReceiver.running r = true /\ last <> 0 /\ 10 <= e)) /\
  (forall t0 evs r' now,
     Forall AudioReceiver.not_received evs ->
     AudioReceiver.run AudioReceiver.init true t0 evs = Next r' ->
     AudioReceiver.get_connection_status r' now = AudioReceiver.WAITING) /\
  (forall r data t w now,
     AudioReceiver.running r = true -> t <> 0 ->
     AudioReceiver.get_connection_status
       (flow_state
          (AudioReceiver.run_iteration r (AudioReceiver.Received data t w)))
       now
     <> AudioReceiver.WAITING).
Proof.
  split; [|split; [exact audio_quiet_run_waiting|]].
  2: { intros r data t w now Hr Ht.
       unfold AudioReceiver.get_connection_status.
       rewrite audio_iteration_running, Hr, audio_received_last_packet_time.
       simpl. apply Z.eqb_neq in Ht. rewrite Ht.
       destruct (_ <? 2); [discriminate|].
       destruct (_ <? 10); discriminate. }
  intros r now last e status. subst status e last.
  unfold AudioReceiver.get_connection_status.
  destruct (AudioReceiver.running r); simpl;
    [destruct (Z.eqb_spec
       (AudioReceiver.last_packet_time (AudioReceiver.stats_of r)) 0);
     [|destruct (Z.ltb_spec
         (now - AudioReceiver.last_packet_time (AudioReceiver.stats_of r)) 2);
       [|destruct (Z.ltb_spec
           (now - AudioReceiver.last_packet_time (AudioReceiver.stats_of r))
           10)]]|];
    repeat split; intros;
    repeat match goal with H : _ /\ _ |- _ => destruct H end;
    try discriminate; try reflexivity; try assumption; try lia.
Qed.

(** The examples of the specification, with the last packet at second 1000:
    one second later GOOD, five seconds later SLOW, eleven seconds later
    DISCONNECTED. *)
Lemma C6_connection_status_amended_witness :
  let r := AudioReceiver.set_last_packet_time
             (fst (AudioReceiver.start AudioReceiver.init true 990)) 1000 in
  AudioReceiver.get_connection_status r 1001 = AudioReceiver.GOOD /\
  AudioReceiver.get_connection_status r 1005 = AudioReceiver.SLOW /\
  AudioReceiver.get_connection_status r 1011 = AudioReceiver.DISCONNECTED /\
  AudioReceiver.get_connection_status
    (fst (AudioReceiver.start AudioReceiver.init true 990)) 1011
  = AudioReceiver.WAITING.
Proof.
  destruct C6_connection_status_amended as [H _].
  intros r.
  split; [|split; [|split]].
  - destruct (H r 1001) as (_ & _ & [_ Hg] & _). apply Hg.
    split; [reflexivity|]. split; [discriminate | reflexivity].
  - destruct (H r 1005) as (_ & _ & _ & [_ Hs] & _). apply Hs.
    split; [reflexivity|]. split; [discriminate|]. simpl. lia.
  - destruct (H r 1011) as (_ & _ & _ & _ & [_ Hd]). apply Hd.
    split; [reflexivity|]. split; [discriminate|]. simpl. lia.
  - destruct (H (fst (AudioReceiver.start AudioReceiver.init true 990)) 1011)
      as (_ & [_ Hw] & _).
    apply Hw. split; reflexivity.
Defined.

(** ** Leaving the receive loop *)

Lemma audio_iteration_next r ev :
  AudioReceiver.not_interrupt ev ->
  exists r', AudioReceiver.run_iteration r ev = Next r' /\
             AudioReceiver.running r' = AudioReceiver.running r.
Proof.
  intros H. pose proof (audio_iteration_running r ev) as Hr.
  destruct (AudioReceiver.run_iteration r ev) as [r'|r'] eqn:E.
  - exists r'. split; [reflexivity | exact Hr].
  - destruct ev as [data t w|t| |]; simpl in E; try discriminate;
      try contradiction.
    destruct (_ <? _)%nat; [discriminate|].
    destruct (Rtp.parse data) as [p|]; [|discriminate].
    destruct (negb _); discriminate.
Qed.

Lemma minimal_iteration_next r ev :
  MinimalAudioReceiver.not_interrupt ev ->
  exists r', MinimalAudioReceiver.run_iteration r ev = Next r' /\
             MinimalAudioReceiver.running r' = MinimalAudioReceiver.running r.
Proof.
  intros H.
  destruct ev as [data w ok| | |]; simpl; try contradiction;
    try (eexists; split; reflexivity).
  received_cases data ltac:(eexists; split; reflexivity).
  eexists. split; [reflexivity|].
  destruct (_ && _); [|reflexivity].
  destruct w; reflexivity.
Qed.

Lemma simple_stdin_write_running r payload w ok :
  SimpleAudioReceiver.running
    (flow_state (SimpleAudioReceiver.stdin_write r payload w ok))
  = SimpleAudioReceiver.running r.
Proof.
  destruct w; simpl; try reflexivity.
  unfold SimpleAudioReceiver.start_aplay, SimpleAudioReceiver.stop_aplay.
  simpl. destruct (SimpleAudioReceiver.aplay_process r), ok; reflexivity.
Qed.

Lemma simple_stdin_write_next r payload w ok :
  (w = BrokenPipeError -> ok = true) ->
  exists r', SimpleAudioReceiver.stdin_write r payload w ok = Next r'.
Proof.
  intros H. destruct w; simpl; try (eexists; reflexivity).
  rewrite (H eq_refl). unfold SimpleAudioReceiver.start_aplay.
  eexists; reflexivity.
Qed.

Lemma simple_iteration_next r ev :
  SimpleAudioReceiver.not_interrupt ev ->
  ~ SimpleAudioReceiver.restart_fails ev ->
  exists r', SimpleAudioReceiver.run_iteration r ev = Next r' /\
             SimpleAudioReceiver.running r' = SimpleAudioReceiver.running r.
Proof.
  intros H Hf.
  destruct ev as [data sender port now w ok|now| |]; simpl; try contradiction.
  - received_cases data ltac:(eexists; split; reflexivity).
    destruct (_ && _).
    + pose proof (simple_stdin_write_running r (Rtp.audio_data p) w ok) as Hr.
      destruct (simple_stdin_write_next r (Rtp.audio_data p) w ok) as [r1 E].
      { intros ->. destruct ok; [reflexivity|]. exfalso. apply Hf. exact I. }
      rewrite E in *. simpl in Hr. eexists. split; [reflexivity|].
      simpl. rewrite <- Hr.
      unfold SimpleAudioReceiver.detect_connection.
      destruct (negb _); [reflexivity|]. destruct (negb _); reflexivity.
    + eexists. split; [reflexivity|]. simpl.
      unfold SimpleAudioReceiver.detect_connection.
      destruct (negb _); [reflexivity|]. destruct (negb _); reflexivity.
  - eexists. split; [reflexivity|].
    unfold SimpleAudioReceiver.on_timeout.
    destruct (_ && _); [|reflexivity]. destruct (Qlt_bool 5 _); reflexivity.
  - eexists. split; reflexivity.
Qed.


Lemma simple_break_cause r ev r' :
  SimpleAudioReceiver.run_iteration r ev = Break r' ->
  ev = SimpleAudioReceiver.KeyboardInterrupt \/
  SimpleAudioReceiver.restart_fails ev.
Proof.
  intros Hb.
  destruct ev as [data sender port now w ok|now| |];
    try (left; reflexivity); try discriminate.
  right. destruct w; try (destruct ok; [|exact I]).
  all: exfalso.
  all: match type of Hb with
       | SimpleAudioReceiver.run_iteration ?r0 ?e = _ =>
           destruct (simple_iteration_next r0 e) as (r1 & E & _);
           [exact I | intros F; exact F | congruence]
       end.
Qed.

Lemma minimal_no_sink_no_write r ev :
  MinimalAudioReceiver.aplay_process r = false ->
  MinimalAudioReceiver.stdin_writes
    (flow_state (MinimalAudioReceiver.run_iteration r ev))
  = MinimalAudioReceiver.stdin_writes r.
Proof.
  intros Ha.
  destruct ev as [data w ok| | |]; simpl; try reflexivity.
  received_cases data ltac:(reflexivity).
  rewrite Ha, andb_false_r. reflexivity.
Qed.

Lemma minimal_failed_restart r data w :
  Rtp.passes_validation data = true ->
  Rtp.nonempty (skipn 12 data) = true ->
  MinimalAudioReceiver.aplay_process r = true ->
  w <> PipeWritten ->
  exists r',
    MinimalAudioReceiver.run_iteration r
      (MinimalAudioReceiver.Received data w false) = Next r' /\
    MinimalAudioReceiver.aplay_process r' = false /\
    MinimalAudioReceiver.running r' = MinimalAudioReceiver.running r /\
    MinimalAudioReceiver.stdin_writes r'
    = skipn 12 data :: MinimalAudioReceiver.stdin_writes r.
Proof.
  intros Hv Hn Hap Hw.
  unfold Rtp.passes_validation in Hv. apply andb_true_iff in Hv.
  destruct Hv as [Hl Hv]. apply Nat.leb_le in Hl. apply Z.eqb_eq in Hv.
  destruct (parse_total data Hl) as (p & Hp & Hpv & Ha).
  unfold MinimalAudioReceiver.run_iteration.
  destruct (Nat.ltb_spec (List.length data) 12) as [Hl'|_]; [lia|].
  rewrite Hp, Hpv, Hv, Ha, Hn, Hap. cbn [Z.eqb Pos.eqb negb andb].
  eexists. split; [reflexivity|].
  destruct w; [contradiction| |]; repeat split.
Qed.



(** ** Disconnection and the start-up grace period *)

Lemma Qlt_bool_true (x y : Q) : Qlt_bool x y = true -> (x < y)%Q.
Proof.
  unfold Qlt_bool. intros H. apply negb_true_iff in H.
  apply Qnot_le_lt. intros Hle. apply Qle_bool_iff in Hle. congruence.
Qed.

Lemma simple_stdin_write_stats r payload w ok :
  SimpleAudioReceiver.stats_of
    (flow_state (SimpleAudioReceiver.stdin_write r payload w ok))
  = SimpleAudioReceiver.stats_of r.
Proof.
  destruct w; simpl; try reflexivity.
  unfold SimpleAudioReceiver.start_aplay, SimpleAudioReceiver.stop_aplay.
  simpl. destruct (SimpleAudioReceiver.aplay_process r), ok; reflexivity.
Qed.

Lemma simple_detect_connected r sender now :
  SimpleAudioReceiver.connected
    (SimpleAudioReceiver.stats_of
       (SimpleAudioReceiver.detect_connection r sender now)) = true.
Proof.
  unfold SimpleAudioReceiver.detect_connection.
  destruct (SimpleAudioReceiver.connected (SimpleAudioReceiver.stats_of r))
    eqn:E; simpl; [|reflexivity].
  destruct (negb _); simpl; first [reflexivity | exact E].
Qed.

Lemma simple_disconnect_cause r ev :
  SimpleAudioReceiver.connected (SimpleAudioReceiver.stats_of r) = true ->
  SimpleAudioReceiver.connected
    (SimpleAudioReceiver.stats_of
       (flow_state (SimpleAudioReceiver.run_iteration r ev))) = false ->
  exists now,
    ev = SimpleAudioReceiver.SocketTimeout now /\
    (5 < now - SimpleAudioReceiver.last_packet_time r)%Q.
Proof.
  intros Hc Hd.
  destruct ev as [data sender port now w ok|now| |]; simpl in Hd;
    try congruence.
  - exfalso. revert Hd.
    destruct (_ <? _)%nat; [simpl; congruence|].
    destruct (Rtp.parse data) as [p|]; [|simpl; congruence].
    destruct (negb _); [simpl; congruence|].
    destruct (_ && _).
    + pose proof (simple_stdin_write_stats r (Rtp.audio_data p) w ok) as Hs.
      destruct (SimpleAudioReceiver.stdin_write r _ w ok) as [r1|r1];
        simpl in *.
      * rewrite simple_detect_connected. discriminate.
      * rewrite Hs. congruence.
    + simpl. rewrite simple_detect_connected. discriminate.
  - exists now. split; [reflexivity|].
    unfold SimpleAudioReceiver.on_timeout in Hd. rewrite Hc in Hd.
    simpl in Hd.
    destruct (Qlt_bool 0 _); [|congruence].
    destruct (Qlt_bool 5 _) eqn:E5; [|congruence].
    apply Qlt_bool_true. exact E5.
Qed.

Lemma simple_iteration_last_accepted r ev r' :
  SimpleAudioReceiver.run_iteration r ev = Next r' ->
  SimpleAudioReceiver.last_packet_time r'
  = SimpleAudioReceiver.last_accepted [ev]
      (SimpleAudioReceiver.last_packet_time r).
Proof.
  intros Hn.
  destruct ev as [data sender port now w ok|now| |]; simpl.
  - destruct (Rtp.passes_validation data) eqn:Hv.
    + exact (simple_accepted_last_packet_time _ _ _ _ _ _ _ _ Hv Hn).
    + rewrite (simple_rejected r data sender port now w ok Hv) in Hn.
      injection Hn as <-. reflexivity.
  - simpl in Hn. injection Hn as <-.
    unfold SimpleAudioReceiver.on_timeout.
    destruct (_ && _); [|reflexivity]. destruct (Qlt_bool 5 _); reflexivity.
  - simpl in Hn. injection Hn as <-. reflexivity.
  - discriminate.
Qed.

Lemma simple_loop_last_accepted evs :
  forall r r',
    loop SimpleAudioReceiver.running SimpleAudioReceiver.run_iteration r evs
    = Next r' ->
    SimpleAudioReceiver.last_packet_time r'
    = SimpleAudioReceiver.last_accepted evs
        (SimpleAudioReceiver.last_packet_time r).
Proof.
  induction evs as [|ev evs IH]; intros r r' Hl; simpl in Hl.
  - injection Hl as <-. reflexivity.
  - destruct (SimpleAudioReceiver.running r); [|discriminate].
    destruct (SimpleAudioReceiver.run_iteration r ev) as [r1|r1] eqn:E;
      [|discriminate].
    rewrite (IH r1 r' Hl), (simple_iteration_last_accepted r ev r1 E).
    reflexivity.
Qed.

Lemma audio_stream_start_time r ev :
  AudioReceiver.stream_start_time
    (AudioReceiver.stats_of (flow_state (AudioReceiver.run_iteration r ev)))
  = AudioReceiver.stream_start_time (AudioReceiver.stats_of r).
Proof.
  destruct ev as [data t w|t| |]; simpl; try reflexivity.
  - received_cases data ltac:(reflexivity).
    unfold AudioReceiver.update_statistics.
    destruct (Rtp.nonempty _); simpl;
      destruct (Rtp.dropped_packets _ _); reflexivity.
  - destruct (audio_health_stats r t) as [-> _]. reflexivity.
Qed.

Lemma audio_no_data_cause r ev n :
  In (AudioReceiver.NoDataReceived n)
     (AudioReceiver.console (flow_state (AudioReceiver.run_iteration r ev))) ->
  In (AudioReceiver.NoDataReceived n) (AudioReceiver.console r) \/
  exists now,
    ev = AudioReceiver.SocketTimeout now /\
    10 <= now - AudioReceiver.stream_start_time (AudioReceiver.stats_of r).
Proof.
  destruct ev as [data t w|t| |]; simpl.
  - destruct (_ <? _)%nat; [simpl; tauto|].
    destruct (Rtp.parse data) as [p|].
    + destruct (negb _); [simpl; tauto|].
      unfold AudioReceiver.update_statistics.
      destruct (Rtp.nonempty _); simpl;
        destruct (Rtp.dropped_packets _ _); simpl;
        intuition discriminate.
    + simpl. intuition discriminate.
  - unfold AudioReceiver.check_connection_health.
    destruct (negb _); [tauto|].
    destruct (Z.ltb_spec
      (t - AudioReceiver.stream_start_time (AudioReceiver.stats_of r)) 10)
      as [Hlt|Hge]; [tauto|].
    intros _. right. exists t. split; [reflexivity | exact Hge].
  - intuition discriminate.
  - tauto.
Qed.

Lemma audio_early_run_silent t0 evs n :
  Forall (AudioReceiver.early t0) evs ->
  ~ In (AudioReceiver.NoDataReceived n)
       (AudioReceiver.console
          (flow_state (AudioReceiver.run AudioReceiver.init true t0 evs))).
Proof.
  intros HQ.
  pose proof (loop_invariant AudioReceiver.running AudioReceiver.run_iteration
    (fun r => AudioReceiver.stream_start_time (AudioReceiver.stats_of r) = t0 /\
              ~ In (AudioReceiver.NoDataReceived n) (AudioReceiver.console r))
    (AudioReceiver.early t0)) as Hinv.
  specialize (Hinv) with (evs := evs)
    (a := fst (AudioReceiver.start AudioReceiver.init true t0)).
  unfold AudioReceiver.run. simpl in *.
  destruct (loop _ _ _ evs) as [r2|r2]; simpl in *; apply Hinv; try exact HQ;
    try (split; [reflexivity | intros []]).
  all: intros a ev Hev [Hs Hc] _; split;
    [rewrite audio_stream_start_time; exact Hs|].
  all: intros Hin; apply audio_no_data_cause in Hin;
    destruct Hin as [Hin|(now & -> & Hn)]; [exact (Hc Hin)|].
  all: simpl in Hev; lia.
Qed.

(** C8.  In SimpleAudioReceiver the [connected] flag goes from true to
    false only in the handler of a receive timeout, and only when the clock
    then reads more than 5 seconds past [last_packet_time], which in a run
    from the start is the reception time of the last datagram that passed
    header validation.  In AudioReceiver a "no data received" warning is
    printed only in an iteration whose receive timed out at least 10
    seconds after [stream_start_time], the whole-second time at which the
    receiver started running: a run whose timeouts all fall less than 10
    seconds after the start prints no such warning. *)
Theorem C8_disconnect_and_grace :
  (forall r ev,
     SimpleAudioReceiver.connected (SimpleAudioReceiver.stats_of r) = true ->
     SimpleAudioReceiver.connected
       (SimpleAudioReceiver.stats_of
          (flow_state (SimpleAudioReceiver.run_iteration r ev))) = false ->
     exists now,
       ev = SimpleAudioReceiver.SocketTimeout now /\
       (5 < now - SimpleAudioReceiver.last_packet_time r)%Q) /\
  (forall t0 evs r ev,
     SimpleAudioReceiver.start (SimpleAudioReceiver.init t0) true evs
     = Next r ->
     SimpleAudioReceiver.connected (SimpleAudioReceiver.stats_of r) = true ->
     SimpleAudioReceiver.connected
       (SimpleAudioReceiver.stats_of
          (flow_state (SimpleAudioReceiver.run_iteration r ev))) = false ->
     exists now,
       ev = SimpleAudioReceiver.SocketTimeout now /\
       (5 < now - SimpleAudioReceiver.last_accepted evs 0)%Q) /\
  (forall r ev n,
     In (AudioReceiver.NoDataReceived n)
        (AudioReceiver.console
           (flow_state (AudioReceiver.run_iteration r ev))) ->
     In (AudioReceiver.NoDataReceived n) (AudioReceiver.console r) \/
     exists now,
       ev = AudioReceiver.SocketTimeout now /\
       10 <= now
             - AudioReceiver.stream_start_time (AudioReceiver.stats_of r)) /\
  (forall t0 evs n,
     Forall (AudioReceiver.early t0) evs ->
     ~ In (AudioReceiver.NoDataReceived n)
          (AudioReceiver.console
             (flow_state (AudioReceiver.run AudioReceiver.init true t0 evs)))).
Proof.
  split; [exact simple_disconnect_cause|].
  split.
  { intros t0 evs r ev Hs Hc Hd.
    destruct (simple_disconnect_cause r ev Hc Hd) as (now & -> & H5).
    exists now. split; [reflexivity|].
    unfold SimpleAudioReceiver.start in Hs.
    apply simple_loop_last_accepted in Hs. simpl in Hs.
    rewrite <- Hs. exact H5. }
  split; [exact audio_no_data_cause|].
  exact audio_early_run_silent.
Qed.

(** SimpleAudioReceiver accepts a datagram at second 1 and meets a timeout
    at second 7: the flag goes from true to false, 6 seconds after the
    packet. *)
Lemma C8_disconnect_and_grace_witness :
  exists r now,
    SimpleAudioReceiver.start (SimpleAudioReceiver.init 0) true
      [SimpleAudioReceiver.Received (Rtp.datagram 0 [x01; x02]) "10.0.0.2"
         5004 1 PipeWritten true] = Next r /\
    SimpleAudioReceiver.connected (SimpleAudioReceiver.stats_of r) = true /\
    SimpleAudioReceiver.connected
      (SimpleAudioReceiver.stats_of
         (flow_state
            (SimpleAudioReceiver.run_iteration r
               (SimpleAudioReceiver.SocketTimeout 7)))) = false /\
    SimpleAudioReceiver.SocketTimeout 7 = SimpleAudioReceiver.SocketTimeout now /\
    (5 < now - 1)%Q.
Proof.
  destruct C8_disconnect_and_grace as (_ & H & _).
  eexists.
  assert (Hs : SimpleAudioReceiver.start (SimpleAudioReceiver.init 0) true
      [SimpleAudioReceiver.Received (Rtp.datagram 0 [x01; x02]) "10.0.0.2"
         5004 1 PipeWritten true] = Next _) by (vm_compute; reflexivity).
  destruct (H _ _ _ (SimpleAudioReceiver.SocketTimeout 7) Hs
              eq_refl eq_refl) as (now & E & H5).
  exists now. split; [exact Hs|].
  split; [reflexivity|]. split; [reflexivity|]. split; [exact E|].
  exact H5.
Defined.

(** ** Accepted datagrams *)

Lemma passes_parse (data : list byte) :
  Rtp.passes_validation data = true ->
  exists p,
    Rtp.parse data = Some p /\ Rtp.version p = 2 /\
    (List.length data <? 12)%nat = false /\
    Rtp.accepted_sequence data = Some (Rtp.sequence p).
Proof.
  intros H. unfold Rtp.accepted_sequence. rewrite H.
  unfold Rtp.passes_validation in H.
  apply andb_true_iff in H. destruct H as [Hl Hv].
  apply Nat.leb_le in Hl. apply Z.eqb_eq in Hv.
  destruct (parse_total data Hl) as (p & Hp & Hpv & _).
  exists p. rewrite Hp. repeat split; try congruence.
  apply Nat.ltb_ge. exact Hl.
Qed.

Lemma audio_accepted r data t w :
  Rtp.passes_validation data = true ->
  exists p,
    Rtp.accepted_sequence data = Some (Rtp.sequence p) /\
    AudioReceiver.run_iteration r (AudioReceiver.Received data t w)
    = Next (AudioReceiver.update_statistics
              (if Rtp.nonempty (Rtp.audio_data p)
               then AudioReceiver.pcm_write
                      (AudioReceiver.set_last_packet_time r t)
                      (Rtp.audio_data p) w
               else AudioReceiver.set_last_packet_time r t)
              data (Rtp.sequence p)).
Proof.
  intros H. destruct (passes_parse data H) as (p & Hp & Hv & Hl & Hs).
  exists p. split; [exact Hs|].
  unfold AudioReceiver.run_iteration. rewrite Hl, Hp, Hv. reflexivity.
Qed.

Lemma minimal_accepted r data w ok :
  Rtp.passes_validation data = true ->
  exists p,
    Rtp.accepted_sequence data = Some (Rtp.sequence p) /\
    MinimalAudioReceiver.run_iteration r
      (MinimalAudioReceiver.Received data w ok)
    = Next (MinimalAudioReceiver.update_statistics
              (if Rtp.nonempty (Rtp.audio_data p)
                  && MinimalAudioReceiver.aplay_process r
               then MinimalAudioReceiver.stdin_write r (Rtp.audio_data p) w ok
               else r)
              data (Rtp.sequence p)).
Proof.
  intros H. destruct (passes_parse data H) as (p & Hp & Hv & Hl & Hs).
  exists p. split; [exact Hs|].
  unfold MinimalAudioReceiver.run_iteration. rewrite Hl, Hp, Hv. reflexivity.
Qed.

Lemma simple_accepted r data sender port now w ok :
  Rtp.passes_validation data = true ->
  exists p,
    Rtp.accepted_sequence data = Some (Rtp.sequence p) /\
    SimpleAudioReceiver.run_iteration r
      (SimpleAudioReceiver.Received data sender port now w ok)
    = match (if SimpleAudioReceiver.aplay_process r
                && Rtp.nonempty (Rtp.audio_data p)
             then SimpleAudioReceiver.stdin_write r (Rtp.audio_data p) w ok
             else Next r) with
      | Next r1 =>
          Next (SimpleAudioReceiver.update_statistics
                  (SimpleAudioReceiver.detect_connection r1 sender now)
                  data (Rtp.sequence p) now)
      | Break r1 => Break r1
      end.
Proof.
  intros H. destruct (passes_parse data H) as (p & Hp & Hv & Hl & Hs).
  exists p. split; [exact Hs|].
  unfold SimpleAudioReceiver.run_iteration. rewrite Hl, Hp, Hv.
  simpl. destruct (_ && _); [|reflexivity].
  destruct (SimpleAudioReceiver.stdin_write _ _ _ _); reflexivity.
Qed.

Lemma audio_accepted_counters r data t w :
  Rtp.passes_validation data = true ->
  exists r',
    AudioReceiver.run_iteration r (AudioReceiver.Received data t w)
    = Next r' /\
    AudioReceiver.packets_received (AudioReceiver.stats_of r')
    = AudioReceiver.packets_received (AudioReceiver.stats_of r) + 1 /\
    AudioReceiver.bytes_received (AudioReceiver.stats_of r')
    = AudioReceiver.bytes_received (AudioReceiver.stats_of r)
      + Z.of_nat (List.length data).
Proof.
  intros H. destruct (audio_accepted r data t w H) as (p & _ & ->).
  eexists. split; [reflexivity|].
  unfold AudioReceiver.update_statistics.
  destruct (Rtp.nonempty _); simpl;
    destruct (Rtp.dropped_packets _ _); simpl; split; reflexivity.
Qed.

Lemma minimal_accepted_counters r data w ok :
  Rtp.passes_validation data = true ->
  exists r',
    MinimalAudioReceiver.run_iteration r
      (MinimalAudioReceiver.Received data w ok) = Next r' /\
    MinimalAudioReceiver.packets_received (MinimalAudioReceiver.stats_of r')
    = MinimalAudioReceiver.packets_received (MinimalAudioReceiver.stats_of r)
      + 1 /\
    MinimalAudioReceiver.bytes_received (MinimalAudioReceiver.stats_of r')
    = MinimalAudioReceiver.bytes_received (MinimalAudioReceiver.stats_of r)
      + Z.of_nat (List.length data).
Proof.
  intros H. destruct (minimal_accepted r data w ok H) as (p & _ & ->).
  eexists. split; [reflexivity|].
  destruct (_ && _); [|split; reflexivity].
  destruct w; split; reflexivity.
Qed.

Lemma simple_detect_counters r sender now :
  SimpleAudioReceiver.packets_received
    (SimpleAudioReceiver.stats_of
       (SimpleAudioReceiver.detect_connection r sender now))
  = SimpleAudioReceiver.packets_received (SimpleAudioReceiver.stats_of r) /\
  SimpleAudioReceiver.bytes_received
    (SimpleAudioReceiver.stats_of
       (SimpleAudioReceiver.detect_connection r sender now))
  = SimpleAudioReceiver.bytes_received (SimpleAudioReceiver.stats_of r) /\
  SimpleAudioReceiver.errors
    (SimpleAudioReceiver.stats_of
       (SimpleAudioReceiver.detect_connection r sender now))
  = SimpleAudioReceiver.errors (SimpleAudioReceiver.stats_of r).
Proof.
  unfold SimpleAudioReceiver.detect_connection.
  destruct (negb _); [repeat split|]. destruct (negb _); repeat split.
Qed.

Lemma simple_accepted_counters r data sender port now w ok :
  Rtp.passes_validation data = true ->
  match SimpleAudioReceiver.run_iteration r
          (SimpleAudioReceiver.Received data sender port now w ok) with
  | Next r' =>
      SimpleAudioReceiver.packets_received (SimpleAudioReceiver.stats_of r')
      = SimpleAudioReceiver.packets_received (SimpleAudioReceiver.stats_of r)
        + 1 /\
      SimpleAudioReceiver.bytes_received (SimpleAudioReceiver.stats_of r')
      = SimpleAudioReceiver.bytes_received (SimpleAudioReceiver.stats_of r)
        + Z.of_nat (List.length data)
  | Break r' =>
      SimpleAudioReceiver.packets_received (SimpleAudioReceiver.stats_of r')
      = SimpleAudioReceiver.packets_received (SimpleAudioReceiver.stats_of r)
      /\
      SimpleAudioReceiver.bytes_received (SimpleAudioReceiver.stats_of r')
      = SimpleAudioReceiver.bytes_received (SimpleAudioReceiver.stats_of r)
  end.
Proof.
  intros H.
  destruct (simple_accepted r data sender port now w ok H) as (p & _ & ->).
  destruct (_ && _).
  - pose proof (simple_stdin_write_stats r (Rtp.audio_data p) w ok) as Hs.
    destruct (SimpleAudioReceiver.stdin_write _ _ _ _) as [r1|r1];
      simpl in Hs.
    + destruct (simple_detect_counters r1 sender now) as (Hp & Hb & _).
      simpl. rewrite Hp, Hb, Hs. split; reflexivity.
    + rewrite Hs. split; reflexivity.
  - destruct (simple_detect_counters r sender now) as (Hp & Hb & _).
    simpl. rewrite Hp, Hb. split; reflexivity.
Qed.




(** ** A run with a gap *)

Lemma accepted_sequence_passes data s :
  Rtp.accepted_sequence data = Some s -> Rtp.passes_validation data = true.
Proof.
  unfold Rtp.accepted_sequence.
  destruct (Rtp.passes_validation data); [reflexivity | discriminate].
Qed.

Lemma audio_accepted_track r data t w s :
  Rtp.accepted_sequence data = Some s ->
  exists r',
    AudioReceiver.run_iteration r (AudioReceiver.Received data t w)
    = Next r' /\
    AudioReceiver.running r' = AudioReceiver.running r /\
    (AudioReceiver.errors (AudioReceiver.stats_of r'),
     AudioReceiver.last_sequence (AudioReceiver.stats_of r'))
    = Rtp.track (AudioReceiver.errors (AudioReceiver.stats_of r),
                 AudioReceiver.last_sequence (AudioReceiver.stats_of r)) s.
Proof.
  intros Hs.
  destruct (audio_accepted r data t w (accepted_sequence_passes _ _ Hs))
    as (p & Hp & E).
  assert (s = Rtp.sequence p) as -> by congruence.
  eexists. split; [exact E|]. split.
  - rewrite <- (audio_iteration_running r (AudioReceiver.Received data t w)).
    rewrite E. reflexivity.
  - unfold Rtp.track.
    match goal with
    | |- context [AudioReceiver.update_statistics ?x data ?s] =>
        destruct (audio_update_observe x data s) as [He Hl];
        cbv zeta in He, Hl; rewrite He, Hl
    end.
    destruct (Rtp.nonempty _); reflexivity.
Qed.

Lemma minimal_accepted_track r data w ok s :
  Rtp.accepted_sequence data = Some s ->
  exists r',
    MinimalAudioReceiver.run_iteration r
      (MinimalAudioReceiver.Received data w ok) = Next r' /\
    MinimalAudioReceiver.running r' = MinimalAudioReceiver.running r /\
    (MinimalAudioReceiver.errors (MinimalAudioReceiver.stats_of r'),
     MinimalAudioReceiver.last_sequence (MinimalAudioReceiver.stats_of r'))
    = Rtp.track
        (MinimalAudioReceiver.errors (MinimalAudioReceiver.stats_of r),
         MinimalAudioReceiver.last_sequence (MinimalAudioReceiver.stats_of r))
        s.
Proof.
  intros Hs.
  destruct (minimal_accepted r data w ok (accepted_sequence_passes _ _ Hs))
    as (p & Hp & E).
  assert (s = Rtp.sequence p) as -> by congruence.
  eexists. split; [exact E|]. split.
  - destruct (minimal_iteration_next r
      (MinimalAudioReceiver.Received data w ok) I) as (r1 & E1 & Hr).
    rewrite E in E1. injection E1 as ->. exact Hr.
  - unfold Rtp.track.
    match goal with
    | |- context [MinimalAudioReceiver.update_statistics ?x data ?s] =>
        destruct (minimal_update_observe x data s) as [He Hl];
        cbv zeta in He, Hl; rewrite He, Hl
    end.
    destruct (_ && _); [|reflexivity]. destruct w; reflexivity.
Qed.

Lemma simple_accepted_track r data sender port now w ok s :
  Rtp.accepted_sequence data = Some s ->
  ~ SimpleAudioReceiver.restart_fails
      (SimpleAudioReceiver.Received data sender port now w ok) ->
  exists r',
    SimpleAudioReceiver.run_iteration r
      (SimpleAudioReceiver.Received data sender port now w ok) = Next r' /\
    SimpleAudioReceiver.running r' = SimpleAudioReceiver.running r /\
    SimpleAudioReceiver.errors (SimpleAudioReceiver.stats_of r')
    = SimpleAudioReceiver.errors (SimpleAudioReceiver.stats_of r) /\
    SimpleAudioReceiver.last_sequence (SimpleAudioReceiver.stats_of r') = s.
Proof.
  intros Hs Hf.
  destruct (simple_iteration_next r
    (SimpleAudioReceiver.Received data sender port now w ok) I Hf)
    as (r' & E & Hr).
  exists r'. split; [exact E|]. split; [exact Hr|].
  destruct (simple_accepted r data sender port now w ok
              (accepted_sequence_passes _ _ Hs)) as (p & Hp & E').
  assert (s = Rtp.sequence p) as -> by congruence.
  rewrite E in E'.
  destruct (_ && _).
  - pose proof (simple_stdin_write_stats r (Rtp.audio_data p) w ok) as Hst.
    destruct (SimpleAudioReceiver.stdin_write _ _ _ _) as [r1|r1];
      [|discriminate].
    injection E' as ->. simpl in *.
    destruct (simple_detect_counters r1 sender now) as (_ & _ & He).
    rewrite He, Hst. split; reflexivity.
  - injection E' as ->. simpl.
    destruct (simple_detect_counters r sender now) as (_ & _ & He).
    rewrite He. split; reflexivity.
Qed.

Lemma audio_loop_track evs :
  forall seqs r,
    AudioReceiver.running r = true ->
    map AudioReceiver.sequence_of evs = map Some seqs ->
    exists r',
      loop AudioReceiver.running AudioReceiver.run_iteration r evs = Next r' /\
      AudioReceiver.running r' = true /\
      (AudioReceiver.errors (AudioReceiver.stats_of r'),
       AudioReceiver.last_sequence (AudioReceiver.stats_of r'))
      = fold_left Rtp.track seqs
          (AudioReceiver.errors (AudioReceiver.stats_of r),
           AudioReceiver.last_sequence (AudioReceiver.stats_of r)).
Proof.
  induction evs as [|ev evs IH]; intros [|s seqs] r Hr Hm;
    try discriminate; simpl.
  - exists r. repeat split. exact Hr.
  - simpl in Hm. injection Hm as Hs Hm. rewrite Hr.
    destruct ev as [data t w|t| |]; try discriminate. simpl in Hs.
    destruct (audio_accepted_track r data t w s Hs) as (r1 & -> & Hr1 & Ht).
    rewrite <- Ht. apply IH; [congruence | exact Hm].
Qed.

Lemma minimal_loop_track evs :
  forall seqs r,
    MinimalAudioReceiver.running r = true ->
    map MinimalAudioReceiver.sequence_of evs = map Some seqs ->
    exists r',
      loop MinimalAudioReceiver.running MinimalAudioReceiver.run_iteration
        r evs = Next r' /\
      MinimalAudioReceiver.running r' = true /\
      (MinimalAudioReceiver.errors (MinimalAudioReceiver.stats_of r'),
       MinimalAudioReceiver.last_sequence (MinimalAudioReceiver.stats_of r'))
      = fold_left Rtp.track seqs
          (MinimalAudioReceiver.errors (MinimalAudioReceiver.stats_of r),
           MinimalAudioReceiver.last_sequence
             (MinimalAudioReceiver.stats_of r)).
Proof.
  induction evs as [|ev evs IH]; intros [|s seqs] r Hr Hm;
    try discriminate; simpl.
  - exists r. repeat split. exact Hr.
  - simpl in Hm. injection Hm as Hs Hm. rewrite Hr.
    destruct ev as [data w ok| | |]; try discriminate. simpl in Hs.
    destruct (minimal_accepted_track r data w ok s Hs) as (r1 & -> & Hr1 & Ht).
    rewrite <- Ht. apply IH; [congruence | exact Hm].
Qed.

Lemma last_nonempty_default (l : list Z) (z d d' : Z) :
  last (z :: l) d = last (z :: l) d'.
Proof.
  revert z. induction l as [|y l IH]; intros z; [reflexivity|].
  change (last (y :: l) d = last (y :: l) d'). apply IH.
Qed.

Lemma simple_loop_track evs :
  forall seqs r,
    SimpleAudioReceiver.running r = true ->
    map SimpleAudioReceiver.sequence_of evs = map Some seqs ->
    Forall (fun ev => ~ SimpleAudioReceiver.restart_fails ev) evs ->
    exists r',
      loop SimpleAudioReceiver.running SimpleAudioReceiver.run_iteration
        r evs = Next r' /\
      SimpleAudioReceiver.running r' = true /\
      SimpleAudioReceiver.errors (SimpleAudioReceiver.stats_of r')
      = SimpleAudioReceiver.errors (SimpleAudioReceiver.stats_of r) /\
      SimpleAudioReceiver.last_sequence (SimpleAudioReceiver.stats_of r')
      = last seqs
          (SimpleAudioReceiver.last_sequence (SimpleAudioReceiver.stats_of r)).
Proof.
  induction evs as [|ev evs IH]; intros [|s seqs] r Hr Hm Hf;
    try discriminate.
  - exists r. repeat split. exact Hr.
  - simpl in Hm. injection Hm as Hs Hm.
    inversion Hf as [|? ? Hf1 Hf2]; subst.
    cbn [loop]. rewrite Hr.
    destruct ev as [data sender port now w ok|now| |]; try discriminate.
    simpl in Hs.
    destruct (simple_accepted_track r data sender port now w ok s Hs Hf1)
      as (r1 & -> & Hr1 & He & Hl).
    destruct (IH seqs r1) as (r' & El & Hr' & He' & Hl');
      [congruence | exact Hm | exact Hf2 |].
    exists r'. split; [exact El|]. split; [exact Hr'|].
    split; [congruence|].
    rewrite Hl', Hl. destruct seqs as [|z seqs]; [reflexivity|].
    apply (last_nonempty_default seqs z).
Qed.

(** C9, as stated, fails in SimpleAudioReceiver, which counts no dropped
    packets: fed packets 0 to 9, 15 and 16 to 20 it ends with
    [last_sequence = 20] and [errors = 0]. *)
Lemma C9_gap_run_counterexample :
  exists r : SimpleAudioReceiver.receiver,
    SimpleAudioReceiver.start (SimpleAudioReceiver.init 0) true
      (map (fun s => SimpleAudioReceiver.Received
                       (Rtp.datagram s [x00; x00; x00; x00]) "10.0.0.2" 5004
                       1 PipeWritten true)
           Rtp.run_with_gap) = Next r /\
    SimpleAudioReceiver.last_sequence (SimpleAudioReceiver.stats_of r) = 20 /\
    SimpleAudioReceiver.packets_received (SimpleAudioReceiver.stats_of r) = 16
    /\
    SimpleAudioReceiver.errors (SimpleAudioReceiver.stats_of r) = 0.
Proof.
  eexists. split; [vm_compute; reflexivity|]. repeat split.
Qed.

(** C9, amended.  Fed datagrams that pass header validation with the
    sequence numbers 0 to 9, 15 and 16 to 20, whatever their payloads and
    whatever the sink does, AudioReceiver and MinimalAudioReceiver, started
    afresh, end with [errors = 5] and [last_sequence = 20].
    SimpleAudioReceiver, which has no sequence tracker, ends with
    [last_sequence = 20] and [errors = 0], provided no broken pipe followed
    by a failed restart of aplay ends its loop. *)
Theorem C9_gap_run_amended :
  (forall t0 evs,
     map AudioReceiver.sequence_of evs = map Some Rtp.run_with_gap ->
     exists r',
       AudioReceiver.run AudioReceiver.init true t0 evs = Next r' /\
       AudioReceiver.errors (AudioReceiver.stats_of r') = 5 /\
       AudioReceiver.last_sequence (AudioReceiver.stats_of r') = 20) /\
  (forall evs,
     map MinimalAudioReceiver.sequence_of evs = map Some Rtp.run_with_gap ->
     exists r',
       MinimalAudioReceiver.run MinimalAudioReceiver.init true evs = Next r' /\
       MinimalAudioReceiver.errors (MinimalAudioReceiver.stats_of r') = 5 /\
       MinimalAudioReceiver.last_sequence (MinimalAudioReceiver.stats_of r')
       = 20) /\
  (forall t0 evs,
     map SimpleAudioReceiver.sequence_of evs = map Some Rtp.run_with_gap ->
     Forall (fun ev => ~ SimpleAudioReceiver.restart_fails ev) evs ->
     exists r',
       SimpleAudioReceiver.start (SimpleAudioReceiver.init t0) true evs
       = Next r' /\
       SimpleAudioReceiver.errors (SimpleAudioReceiver.stats_of r') = 0 /\
       SimpleAudioReceiver.last_sequence (SimpleAudioReceiver.stats_of r')
       = 20).
Proof.
  split; [|split].
  - intros t0 evs Hm. unfold AudioReceiver.run. simpl.
    destruct (audio_loop_track evs Rtp.run_with_gap
                (fst (AudioReceiver.start AudioReceiver.init true t0))
                eq_refl Hm) as (r' & El & _ & Ht).
    simpl in El. rewrite El. exists r'. split; [reflexivity|].
    vm_compute in Ht. injection Ht as He Hl. split; assumption.
  - intros evs Hm. unfold MinimalAudioReceiver.run. simpl.
    destruct (minimal_loop_track evs Rtp.run_with_gap
                (fst (MinimalAudioReceiver.start MinimalAudioReceiver.init
                        true))
                eq_refl Hm) as (r' & El & _ & Ht).
    simpl in El. rewrite El. exists r'. split; [reflexivity|].
    vm_compute in Ht. injection Ht as He Hl. split; assumption.
  - intros t0 evs Hm Hf. unfold SimpleAudioReceiver.start.
    match goal with
    | |- context [loop _ _ ?r0 evs] =>
        destruct (simple_loop_track evs Rtp.run_with_gap r0 eq_refl Hm Hf)
          as (r' & El & _ & He & Hl)
    end.
    exists r'. split; [exact El|]. split; [exact He | exact Hl].
Qed.

(** AudioReceiver on 16 datagrams of 4 payload bytes each, the device
    answering with [ALSAAudioError] to every write. *)
Lemma C9_gap_run_amended_witness :
  map AudioReceiver.sequence_of
    (map (fun s => AudioReceiver.Received
                     (Rtp.datagram s [x00; x00; x00; x00]) 100
                     AudioReceiver.ALSAAudioError)
         Rtp.run_with_gap)
  = map Some Rtp.run_with_gap /\
  exists r',
    AudioReceiver.run AudioReceiver.init true 90
      (map (fun s => AudioReceiver.Received
                       (Rtp.datagram s [x00; x00; x00; x00]) 100
                       AudioReceiver.ALSAAudioError)
           Rtp.run_with_gap) = Next r' /\
    AudioReceiver.errors (AudioReceiver.stats_of r') = 5 /\
    AudioReceiver.last_sequence (AudioReceiver.stats_of r') = 20.
Proof.
  split; [vm_compute; reflexivity|].
  destruct C9_gap_run_amended as [H _].
  apply H. vm_compute. reflexivity.
Defined.

(** * Further properties of the receive loops *)

Section LoopMeasures.
Variables (A E : Type).
Variable running : A -> bool.
Variable body : A -> E -> flow A.

(** A counter that every iteration advances by a measure of its event has
    advanced by the sum of the measures when the events are consumed. *)
Lemma loop_sum (m : A -> Z) (c : E -> Z) :
  (forall a ev a',
     running a = true -> body a ev = Next a' -> m a' = m a + c ev) ->
  forall evs a a',
    loop running body a evs = Next a' ->
    m a' = m a + Trace.sum (map c evs).
Proof.
  intros Hstep evs.
  induction evs as [|ev evs IH]; intros a a' Hl; simpl in Hl.
  - injection Hl as <-. simpl. lia.
  - destruct (running a) eqn:Hr; [|discriminate].
    destruct (body a ev) as [a1|a1] eqn:Hb; [|discriminate].
    rewrite (IH a1 a' Hl), (Hstep a ev a1 Hr Hb). simpl. lia.
Qed.

(** The same for a log that every iteration extends at its end. *)
Lemma loop_log (B : Type) (m : A -> list B) (c : E -> list B) :
  (forall a ev a',
     running a = true -> body a ev = Next a' -> m a' = m a ++ c ev) ->
  forall evs a a',
    loop running body a evs = Next a' ->
    m a' = m a ++ List.concat (map c evs).
Proof.
  intros Hstep evs.
  induction evs as [|ev evs IH]; intros a a' Hl; simpl in Hl.
  - injection Hl as <-. simpl. rewrite app_nil_r. reflexivity.
  - destruct (running a) eqn:Hr; [|discriminate].
    destruct (body a ev) as [a1|a1] eqn:Hb; [|discriminate].
    rewrite (IH a1 a' Hl), (Hstep a ev a1 Hr Hb). simpl.
    rewrite app_assoc. reflexivity.
Qed.

(** A property every iteration keeps, whatever the event. *)
Lemma loop_always (P : A -> Prop) :
  (forall a ev, P a -> running a = true -> P (flow_state (body a ev))) ->
  forall evs a, P a -> P (flow_state (loop running body a evs)).
Proof.
  intros Hstep evs a HP.
  apply (loop_invariant running body P (fun _ => True)); auto.
  clear. induction evs; constructor; auto.
Qed.
End LoopMeasures.
Arguments loop_sum {A E} running body m c.
Arguments loop_log {A E} running body {B} m c.
Arguments loop_always {A E} running body P.

(** ** One iteration, in full *)

Lemma parse_audio_data data p :
  Rtp.parse data = Some p -> Rtp.audio_data p = skipn 12 data.
Proof.
  unfold Rtp.parse.
  destruct (Rtp.unpack_BBHII _) as [[[[[h0 h1] h2] h3] h4]|]; [|discriminate].
  intros [= <-]. reflexivity.
Qed.

Lemma rejected_no_sequence data :
  Rtp.passes_validation data = false -> Rtp.accepted_sequence data = None.
Proof. unfold Rtp.accepted_sequence. intros ->. reflexivity. Qed.

(** What an iteration of AudioReceiver does to the statistics and to the
    sink, for every event. *)
Lemma audio_iteration_effect r ev :
  let s := AudioReceiver.stats_of r in
  let r' := flow_state (AudioReceiver.run_iteration r ev) in
  let s' := AudioReceiver.stats_of r' in
  AudioReceiver.packets_received s'
  = AudioReceiver.packets_received s
    + Trace.accepted_count (Trace.audio_datagram ev) /\
  AudioReceiver.bytes_received s'
  = AudioReceiver.bytes_received s
    + Trace.accepted_bytes (Trace.audio_datagram ev) /\
  AudioReceiver.connection_errors s'
  = AudioReceiver.connection_errors s + Trace.audio_socket_error ev /\
  AudioReceiver.errors s'
  = AudioReceiver.errors s + Trace.audio_socket_error ev
    + match AudioReceiver.sequence_of ev with
      | Some seq => fst (Rtp.observe (AudioReceiver.last_sequence s) seq)
      | None => 0
      end /\
  AudioReceiver.last_sequence s'
  = match AudioReceiver.sequence_of ev with
    | Some seq => seq
    | None => AudioReceiver.last_sequence s
    end /\
  rev (AudioReceiver.pcm_written r')
  = rev (AudioReceiver.pcm_written r)
    ++ Trace.accepted_payload (Trace.audio_datagram ev).
Proof.
  destruct ev as [data t w|t| |]; cbv zeta.
  - cbn [Trace.audio_datagram Trace.accepted_count Trace.accepted_bytes
         Trace.accepted_payload Trace.audio_socket_error
         AudioReceiver.sequence_of].
    destruct (Rtp.passes_validation data) eqn:Hv.
    + destruct (passes_parse data Hv) as (p & Hp & Hpv & Hl & Hs).
      pose proof (parse_audio_data data p Hp) as Ha.
      unfold AudioReceiver.run_iteration. rewrite Hl, Hp, Hpv, Hs, Ha.
      cbn [Z.eqb negb Pos.eqb flow_state andb].
      match goal with
      | |- context [AudioReceiver.update_statistics ?x data ?q] =>
          destruct (audio_update_observe x data q) as [He Hq];
          cbv zeta in He, Hq; rewrite He, Hq
      end.
      unfold AudioReceiver.update_statistics.
      destruct (Rtp.nonempty (skipn 12 data)); simpl;
        destruct (Rtp.dropped_packets _ _); simpl;
        rewrite ?app_nil_r; repeat split; lia.
    + rewrite (audio_rejected r data t w Hv), (rejected_no_sequence data Hv).
      simpl. rewrite app_nil_r. repeat split; lia.
  - simpl. destruct (audio_health_stats r t) as (-> & _ & ->).
    rewrite app_nil_r. repeat split; lia.
  - simpl. rewrite app_nil_r. repeat split; lia.
  - simpl. rewrite app_nil_r. repeat split; lia.
Qed.

(** What an iteration of MinimalAudioReceiver does to the statistics, for
    every event. *)
Lemma minimal_iteration_effect r ev :
  let s := MinimalAudioReceiver.stats_of r in
  let r' := flow_state (MinimalAudioReceiver.run_iteration r ev) in
  let s' := MinimalAudioReceiver.stats_of r' in
  MinimalAudioReceiver.packets_received s'
  = MinimalAudioReceiver.packets_received s
    + Trace.accepted_count (Trace.minimal_datagram ev) /\
  MinimalAudioReceiver.bytes_received s'
  = MinimalAudioReceiver.bytes_received s
    + Trace.accepted_bytes (Trace.minimal_datagram ev) /\
  MinimalAudioReceiver.errors s'
  = MinimalAudioReceiver.errors s + Trace.minimal_socket_error ev
    + match MinimalAudioReceiver.sequence_of ev with
      | Some seq => fst (Rtp.observe (MinimalAudioReceiver.last_sequence s) seq)
      | None => 0
      end /\
  MinimalAudioReceiver.last_sequence s'
  = match MinimalAudioReceiver.sequence_of ev with
    | Some seq => seq
    | None => MinimalAudioReceiver.last_sequence s
    end.
Proof.
  destruct ev as [data w ok| | |]; cbv zeta;
    try (simpl; repeat split; lia).
  cbn [Trace.minimal_datagram Trace.accepted_count Trace.accepted_bytes
       Trace.minimal_socket_error MinimalAudioReceiver.sequence_of].
  destruct (Rtp.passes_validation data) eqn:Hv.
  - destruct (passes_parse data Hv) as (p & Hp & Hpv & Hl & Hs).
    unfold MinimalAudioReceiver.run_iteration. rewrite Hl, Hp, Hpv, Hs.
    cbn [Z.eqb negb Pos.eqb flow_state].
    match goal with
    | |- context [MinimalAudioReceiver.update_statistics ?x data ?q] =>
        destruct (minimal_update_observe x data q) as [He Hq];
        cbv zeta in He, Hq; rewrite He, Hq
    end.
    destruct (_ && _); [destruct w|]; simpl; repeat split; lia.
  - rewrite (minimal_rejected r data w ok Hv), (rejected_no_sequence data Hv).
    simpl. repeat split; lia.
Qed.

(** What an iteration of MinimalAudioReceiver does to the sink. *)
Lemma minimal_iteration_sink r ev :
  let r' := flow_state (MinimalAudioReceiver.run_iteration r ev) in
  (MinimalAudioReceiver.aplay_process r = false ->
   MinimalAudioReceiver.aplay_process r' = false /\
   MinimalAudioReceiver.stdin_writes r' = MinimalAudioReceiver.stdin_writes r
   /\ MinimalAudioReceiver.spawned r' = MinimalAudioReceiver.spawned r) /\
  (MinimalAudioReceiver.spawned r <= MinimalAudioReceiver.spawned r'
   <= MinimalAudioReceiver.spawned r + Trace.minimal_respawn ev)%nat /\
  (MinimalAudioReceiver.stdin_writes r' = MinimalAudioReceiver.stdin_writes r
   \/ exists payload,
        Rtp.nonempty payload = true /\
        Trace.accepted_payload (Trace.minimal_datagram ev) = [payload] /\
        MinimalAudioReceiver.stdin_writes r'
        = payload :: MinimalAudioReceiver.stdin_writes r).
Proof.
  destruct ev as [data w ok| | |]; cbv zeta;
    try (simpl; repeat split; auto; lia).
  cbn [Trace.minimal_datagram Trace.accepted_payload].
  destruct (Rtp.passes_validation data) eqn:Hv.
  - destruct (passes_parse data Hv) as (p & Hp & Hpv & Hl & Hs).
    pose proof (parse_audio_data data p Hp) as Ha.
    unfold MinimalAudioReceiver.run_iteration. rewrite Hl, Hp, Hpv, Ha.
    cbn [Z.eqb negb Pos.eqb flow_state andb].
    destruct (Rtp.nonempty (skipn 12 data)) eqn:Hn;
      destruct (MinimalAudioReceiver.aplay_process r) eqn:Hap;
      cbn [andb].
    + split; [discriminate|].
      destruct w, ok; simpl; (split; [lia|]); right;
        exists (skipn 12 data); repeat split; assumption.
    + split; [intros _; simpl; repeat split; exact Hap|].
      simpl. split; [lia | left; reflexivity].
    + split; [discriminate|]. simpl. split; [lia | left; reflexivity].
    + split; [intros _; simpl; repeat split; exact Hap|].
      simpl. split; [lia | left; reflexivity].
  - rewrite (minimal_rejected r data w ok Hv). simpl.
    repeat split; auto; lia.
Qed.

(** What an iteration of SimpleAudioReceiver does to the statistics: the
    counters move when the iteration ends normally, and a [break] leaves
    the whole dictionary as it was. *)
Lemma simple_iteration_effect r ev :
  let s := SimpleAudioReceiver.stats_of r in
  match SimpleAudioReceiver.run_iteration r ev with
  | Next r' =>
      let s' := SimpleAudioReceiver.stats_of r' in
      SimpleAudioReceiver.packets_received s'
      = SimpleAudioReceiver.packets_received s
        + Trace.accepted_count (Trace.simple_datagram ev) /\
      SimpleAudioReceiver.bytes_received s'
      = SimpleAudioReceiver.bytes_received s
        + Trace.accepted_bytes (Trace.simple_datagram ev) /\
      SimpleAudioReceiver.errors s'
      = SimpleAudioReceiver.errors s + Trace.simple_socket_error ev /\
      SimpleAudioReceiver.last_sequence s'
      = match SimpleAudioReceiver.sequence_of ev with
        | Some seq => seq
        | None => SimpleAudioReceiver.last_sequence s
        end
  | Break r' => SimpleAudioReceiver.stats_of r' = s
  end.
Proof.
  destruct ev as [data sender port now w ok|now| |]; cbv zeta.
  - cbn [Trace.simple_datagram Trace.accepted_count Trace.accepted_bytes
         Trace.simple_socket_error SimpleAudioReceiver.sequence_of].
    destruct (Rtp.passes_validation data) eqn:Hv.
    + destruct (simple_accepted r data sender port now w ok Hv)
        as (p & Hs & ->).
      rewrite Hs.
      assert (Hd : forall r1,
        SimpleAudioReceiver.stats_of r1 = SimpleAudioReceiver.stats_of r ->
        let s' := SimpleAudioReceiver.stats_of
                    (SimpleAudioReceiver.update_statistics
                       (SimpleAudioReceiver.detect_connection r1 sender now)
                       data (Rtp.sequence p) now) in
        SimpleAudioReceiver.packets_received s'
        = SimpleAudioReceiver.packets_received (SimpleAudioReceiver.stats_of r)
          + 1 /\
        SimpleAudioReceiver.bytes_received s'
        = SimpleAudioReceiver.bytes_received (SimpleAudioReceiver.stats_of r)
          + Z.of_nat (List.length data) /\
        SimpleAudioReceiver.errors s'
        = SimpleAudioReceiver.errors (SimpleAudioReceiver.stats_of r) + 0 /\
        SimpleAudioReceiver.last_sequence s' = Rtp.sequence p).
      { intros r1 E. cbv zeta.
        destruct (simple_detect_counters r1 sender now) as (Hp & Hb & He).
        simpl. rewrite Hp, Hb, He, E. repeat split; lia. }
      destruct (_ && _).
      * pose proof (simple_stdin_write_stats r (Rtp.audio_data p) w ok) as Hst.
        destruct (SimpleAudioReceiver.stdin_write _ _ _ _) as [r1|r1];
          simpl in Hst; [apply Hd; exact Hst | exact Hst].
      * apply Hd. reflexivity.
    + rewrite (simple_rejected r data sender port now w ok Hv),
        (rejected_no_sequence data Hv).
      simpl. repeat split; lia.
  - simpl. unfold SimpleAudioReceiver.on_timeout.
    destruct (_ && _); [destruct (Qlt_bool 5 _)|]; simpl; repeat split; lia.
  - simpl. repeat split; lia.
  - reflexivity.
Qed.

(** ** Counters *)

Lemma accepted_count_range d : 0 <= Trace.accepted_count d <= 1.
Proof.
  destruct d as [data|]; simpl; [|lia].
  destruct (Rtp.passes_validation data); lia.
Qed.

Lemma accepted_bytes_header d :
  12 * Trace.accepted_count d <= Trace.accepted_bytes d.
Proof.
  destruct d as [data|]; simpl; [|lia].
  destruct (Rtp.passes_validation data) eqn:Hv; [|lia].
  unfold Rtp.passes_validation in Hv. apply andb_true_iff in Hv.
  destruct Hv as [Hl _]. apply Nat.leb_le in Hl. lia.
Qed.

Lemma audio_next_effect a ev a' :
  AudioReceiver.run_iteration a ev = Next a' ->
  AudioReceiver.packets_received (AudioReceiver.stats_of a')
  = AudioReceiver.packets_received (AudioReceiver.stats_of a)
    + Trace.accepted_count (Trace.audio_datagram ev) /\
  AudioReceiver.bytes_received (AudioReceiver.stats_of a')
  = AudioReceiver.bytes_received (AudioReceiver.stats_of a)
    + Trace.accepted_bytes (Trace.audio_datagram ev) /\
  AudioReceiver.connection_errors (AudioReceiver.stats_of a')
  = AudioReceiver.connection_errors (AudioReceiver.stats_of a)
    + Trace.audio_socket_error ev /\
  rev (AudioReceiver.pcm_written a')
  = rev (AudioReceiver.pcm_written a)
    ++ Trace.accepted_payload (Trace.audio_datagram ev).
Proof.
  intros Hb. pose proof (audio_iteration_effect a ev) as H.
  cbv zeta in H. rewrite Hb in H. simpl in H. tauto.
Qed.

Lemma minimal_next_effect a ev a' :
  MinimalAudioReceiver.run_iteration a ev = Next a' ->
  MinimalAudioReceiver.packets_received (MinimalAudioReceiver.stats_of a')
  = MinimalAudioReceiver.packets_received (MinimalAudioReceiver.stats_of a)
    + Trace.accepted_count (Trace.minimal_datagram ev) /\
  MinimalAudioReceiver.bytes_received (MinimalAudioReceiver.stats_of a')
  = MinimalAudioReceiver.bytes_received (MinimalAudioReceiver.stats_of a)
    + Trace.accepted_bytes (Trace.minimal_datagram ev).
Proof.
  intros Hb. pose proof (minimal_iteration_effect a ev) as H.
  cbv zeta in H. rewrite Hb in H. simpl in H. tauto.
Qed.

Lemma simple_next_effect a ev a' :
  SimpleAudioReceiver.run_iteration a ev = Next a' ->
  SimpleAudioReceiver.packets_received (SimpleAudioReceiver.stats_of a')
  = SimpleAudioReceiver.packets_received (SimpleAudioReceiver.stats_of a)
    + Trace.accepted_count (Trace.simple_datagram ev) /\
  SimpleAudioReceiver.bytes_received (SimpleAudioReceiver.stats_of a')
  = SimpleAudioReceiver.bytes_received (SimpleAudioReceiver.stats_of a)
    + Trace.accepted_bytes (Trace.simple_datagram ev) /\
  SimpleAudioReceiver.errors (SimpleAudioReceiver.stats_of a')
  = SimpleAudioReceiver.errors (SimpleAudioReceiver.stats_of a)
    + Trace.simple_socket_error ev.
Proof.
  intros Hb. pose proof (simple_iteration_effect a ev) as H.
  cbv zeta in H. rewrite Hb in H. tauto.
Qed.

Lemma audio_exact_accounting evs r r' :
  loop AudioReceiver.running AudioReceiver.run_iteration r evs = Next r' ->
  AudioReceiver.packets_received (AudioReceiver.stats_of r')
  = AudioReceiver.packets_received (AudioReceiver.stats_of r)
    + Trace.sum (map (fun ev => Trace.accepted_count
                                  (Trace.audio_datagram ev)) evs) /\
  AudioReceiver.bytes_received (AudioReceiver.stats_of r')
  = AudioReceiver.bytes_received (AudioReceiver.stats_of r)
    + Trace.sum (map (fun ev => Trace.accepted_bytes
                                  (Trace.audio_datagram ev)) evs).
Proof.
  intros Hl. split.
  - exact (loop_sum AudioReceiver.running AudioReceiver.run_iteration
             (fun a => AudioReceiver.packets_received (AudioReceiver.stats_of a))
             (fun ev => Trace.accepted_count (Trace.audio_datagram ev))
             (fun a ev a' _ Hb => proj1 (audio_next_effect a ev a' Hb))
             evs r r' Hl).
  - exact (loop_sum AudioReceiver.running AudioReceiver.run_iteration
             (fun a => AudioReceiver.bytes_received (AudioReceiver.stats_of a))
             (fun ev => Trace.accepted_bytes (Trace.audio_datagram ev))
             (fun a ev a' _ Hb => proj1 (proj2 (audio_next_effect a ev a' Hb)))
             evs r r' Hl).
Qed.

(** X1.  In each of the three receive loops, once a sequence of events has
    been consumed with the loop still iterating, [packets_received] has
    grown by the number of received datagrams that pass header validation
    and [bytes_received] by the sum of their full lengths: timeouts, socket
    errors, rejected datagrams and sink failures count nothing. *)
Theorem X1_exact_accounting :
  (forall evs r r',
     loop AudioReceiver.running AudioReceiver.run_iteration r evs = Next r' ->
     AudioReceiver.packets_received (AudioReceiver.stats_of r')
     = AudioReceiver.packets_received (AudioReceiver.stats_of r)
       + Trace.sum (map (fun ev => Trace.accepted_count
                                     (Trace.audio_datagram ev)) evs) /\
     AudioReceiver.bytes_received (AudioReceiver.stats_of r')
     = AudioReceiver.bytes_received (AudioReceiver.stats_of r)
       + Trace.sum (map (fun ev => Trace.accepted_bytes
                                     (Trace.audio_datagram ev)) evs)) /\
  (forall evs r r',
     loop MinimalAudioReceiver.running MinimalAudioReceiver.run_iteration
       r evs = Next r' ->
     MinimalAudioReceiver.packets_received (MinimalAudioReceiver.stats_of r')
     = MinimalAudioReceiver.packets_received (MinimalAudioReceiver.stats_of r)
       + Trace.sum (map (fun ev => Trace.accepted_count
                                     (Trace.minimal_datagram ev)) evs) /\
     MinimalAudioReceiver.bytes_received (MinimalAudioReceiver.stats_of r')
     = MinimalAudioReceiver.bytes_received (MinimalAudioReceiver.stats_of r)
       + Trace.sum (map (fun ev => Trace.accepted_bytes
                                     (Trace.minimal_datagram ev)) evs)) /\
  (forall evs r r',
     loop SimpleAudioReceiver.running SimpleAudioReceiver.run_iteration
       r evs = Next r' ->
     SimpleAudioReceiver.packets_received (SimpleAudioReceiver.stats_of r')
     = SimpleAudioReceiver.packets_received (SimpleAudioReceiver.stats_of r)
       + Trace.sum (map (fun ev => Trace.accepted_count
                                     (Trace.simple_datagram ev)) evs) /\
     SimpleAudioReceiver.bytes_received (SimpleAudioReceiver.stats_of r')
     = SimpleAudioReceiver.bytes_received (SimpleAudioReceiver.stats_of r)
       + Trace.sum (map (fun ev => Trace.accepted_bytes
                                     (Trace.simple_datagram ev)) evs)).
Proof.
  split; [|split]; intros evs r r' Hl; split.
  - exact (loop_sum AudioReceiver.running AudioReceiver.run_iteration
             (fun a => AudioReceiver.packets_received (AudioReceiver.stats_of a))
             (fun ev => Trace.accepted_count (Trace.audio_datagram ev))
             (fun a ev a' _ Hb => proj1 (audio_next_effect a ev a' Hb))
             evs r r' Hl).
  - exact (loop_sum AudioReceiver.running AudioReceiver.run_iteration
             (fun a => AudioReceiver.bytes_received (AudioReceiver.stats_of a))
             (fun ev => Trace.accepted_bytes (Trace.audio_datagram ev))
             (fun a ev a' _ Hb => proj1 (proj2 (audio_next_effect a ev a' Hb)))
             evs r r' Hl).
  - exact (loop_sum MinimalAudioReceiver.running
             MinimalAudioReceiver.run_iteration
             (fun a => MinimalAudioReceiver.packets_received
                         (MinimalAudioReceiver.stats_of a))
             (fun ev => Trace.accepted_count (Trace.minimal_datagram ev))
             (fun a ev a' _ Hb => proj1 (minimal_next_effect a ev a' Hb))
             evs r r' Hl).
  - exact (loop_sum MinimalAudioReceiver.running
             MinimalAudioReceiver.run_iteration
             (fun a => MinimalAudioReceiver.bytes_received
                         (MinimalAudioReceiver.stats_of a))
             (fun ev => Trace.accepted_bytes (Trace.minimal_datagram ev))
             (fun a ev a' _ Hb => proj2 (minimal_next_effect a ev a' Hb))
             evs r r' Hl).
  - exact (loop_sum SimpleAudioReceiver.running
             SimpleAudioReceiver.run_iteration
             (fun a => SimpleAudioReceiver.packets_received
                         (SimpleAudioReceiver.stats_of a))
             (fun ev => Trace.accepted_count (Trace.simple_datagram ev))
             (fun a ev a' _ Hb => proj1 (simple_next_effect a ev a' Hb))
             evs r r' Hl).
  - exact (loop_sum SimpleAudioReceiver.running
             SimpleAudioReceiver.run_iteration
             (fun a => SimpleAudioReceiver.bytes_received
                         (SimpleAudioReceiver.stats_of a))
             (fun ev => Trace.accepted_bytes (Trace.simple_datagram ev))
             (fun a ev a' _ Hb => proj1 (proj2 (simple_next_effect a ev a' Hb)))
             evs r r' Hl).
Qed.

(** A thousand datagrams of 12 + 4 bytes in AudioReceiver, as in the
    end-to-end test of the design: 1000 packets and 16000 bytes. *)
Lemma X1_exact_accounting_witness :
  exists r',
    loop AudioReceiver.running AudioReceiver.run_iteration
      (fst (AudioReceiver.start AudioReceiver.init true 0))
      (map (fun i => AudioReceiver.Received
                       (Rtp.datagram (Z.of_nat i) [x00; x00; x00; x00]) 1
                       AudioReceiver.Written) (seq 0 1000)) = Next r' /\
    AudioReceiver.packets_received (AudioReceiver.stats_of r') = 1000 /\
    AudioReceiver.bytes_received (AudioReceiver.stats_of r') = 16000.
Proof.
  destruct X1_exact_accounting as [H _].
  destruct (loop AudioReceiver.running AudioReceiver.run_iteration
      (fst (AudioReceiver.start AudioReceiver.init true 0))
      (map (fun i => AudioReceiver.Received
                       (Rtp.datagram (Z.of_nat i) [x00; x00; x00; x00]) 1
                       AudioReceiver.Written) (seq 0 1000))) as [r'|r'] eqn:E;
    [|vm_compute in E; discriminate].
  exists r'. split; [reflexivity|].
  destruct (H _ _ _ E) as [Hp Hb]. rewrite Hp, Hb.
  split; vm_compute; reflexivity.
Defined.

Lemma accepted_bytes_nonneg d : 0 <= Trace.accepted_bytes d.
Proof.
  pose proof (accepted_bytes_header d). pose proof (accepted_count_range d).
  lia.
Qed.

Lemma audio_socket_error_range ev : 0 <= Trace.audio_socket_error ev <= 1.
Proof. destruct ev; simpl; lia. Qed.

Lemma minimal_socket_error_range ev : 0 <= Trace.minimal_socket_error ev <= 1.
Proof. destruct ev; simpl; lia. Qed.

Lemma simple_socket_error_range ev : 0 <= Trace.simple_socket_error ev <= 1.
Proof. destruct ev; simpl; lia. Qed.

(** X2.  In AudioReceiver [connection_errors] grows by exactly the number of
    socket errors met, and in SimpleAudioReceiver so does [errors]: no
    datagram, whatever its length, version or sequence number, and no sink
    failure ever changes them. *)
Theorem X2_socket_errors_counted :
  (forall evs r r',
     loop AudioReceiver.running AudioReceiver.run_iteration r evs = Next r' ->
     AudioReceiver.connection_errors (AudioReceiver.stats_of r')
     = AudioReceiver.connection_errors (AudioReceiver.stats_of r)
       + Trace.sum (map Trace.audio_socket_error evs)) /\
  (forall evs r r',
     loop SimpleAudioReceiver.running SimpleAudioReceiver.run_iteration
       r evs = Next r' ->
     SimpleAudioReceiver.errors (SimpleAudioReceiver.stats_of r')
     = SimpleAudioReceiver.errors (SimpleAudioReceiver.stats_of r)
       + Trace.sum (map Trace.simple_socket_error evs)).
Proof.
  split; intros evs r r' Hl.
  - exact (loop_sum AudioReceiver.running AudioReceiver.run_iteration
             (fun a => AudioReceiver.connection_errors
                         (AudioReceiver.stats_of a))
             Trace.audio_socket_error
             (fun a ev a' _ Hb =>
                proj1 (proj2 (proj2 (audio_next_effect a ev a' Hb))))
             evs r r' Hl).
  - exact (loop_sum SimpleAudioReceiver.running
             SimpleAudioReceiver.run_iteration
             (fun a => SimpleAudioReceiver.errors
                         (SimpleAudioReceiver.stats_of a))
             Trace.simple_socket_error
             (fun a ev a' _ Hb =>
                proj2 (proj2 (simple_next_effect a ev a' Hb)))
             evs r r' Hl).
Qed.

(** SimpleAudioReceiver meets a socket error, a datagram of 5 bytes, two
    datagrams with the sequence numbers 7 and 3, and a socket error: 2. *)
Lemma X2_socket_errors_counted_witness :
  exists r',
    loop SimpleAudioReceiver.running SimpleAudioReceiver.run_iteration
      (flow_state
         (SimpleAudioReceiver.start (SimpleAudioReceiver.init 0) true []))
      [SimpleAudioReceiver.SocketError;
       SimpleAudioReceiver.Received [x80; x00; x00; x01; x00] "10.0.0.2" 5004
         1 PipeWritten true;
       SimpleAudioReceiver.Received (Rtp.datagram 7 [x01]) "10.0.0.2" 5004
         2 PipeWritten true;
       SimpleAudioReceiver.Received (Rtp.datagram 3 [x01]) "10.0.0.2" 5004
         3 OtherOSError true;
       SimpleAudioReceiver.SocketError] = Next r' /\
    SimpleAudioReceiver.errors (SimpleAudioReceiver.stats_of r') = 2.
Proof.
  destruct X2_socket_errors_counted as [_ H].
  match goal with
  | |- exists r', ?l = Next r' /\ _ =>
      destruct l as [r'|r'] eqn:E; [|vm_compute in E; discriminate]
  end.
  exists r'. split; [reflexivity|].
  rewrite (H _ _ _ E). reflexivity.
Defined.

Lemma audio_iteration_monotone r ev :
  let s := AudioReceiver.stats_of r in
  let s' := AudioReceiver.stats_of
              (flow_state (AudioReceiver.run_iteration r ev)) in
  AudioReceiver.packets_received s <= AudioReceiver.packets_received s' /\
  AudioReceiver.bytes_received s <= AudioReceiver.bytes_received s' /\
  AudioReceiver.errors s <= AudioReceiver.errors s' /\
  AudioReceiver.connection_errors s <= AudioReceiver.connection_errors s'.
Proof.
  destruct (audio_iteration_effect r ev) as (Hp & Hb & Hc & He & _).
  cbv zeta in *.
  pose proof (accepted_count_range (Trace.audio_datagram ev)).
  pose proof (accepted_bytes_nonneg (Trace.audio_datagram ev)).
  pose proof (audio_socket_error_range ev).
  assert (0 <= match AudioReceiver.sequence_of ev with
               | Some seq =>
                   fst (Rtp.observe
                          (AudioReceiver.last_sequence
                             (AudioReceiver.stats_of r)) seq)
               | None => 0
               end).
  { destruct (AudioReceiver.sequence_of ev); [apply observe_range | lia]. }
  lia.
Qed.

Lemma minimal_iteration_monotone r ev :
  let s := MinimalAudioReceiver.stats_of r in
  let s' := MinimalAudioReceiver.stats_of
              (flow_state (MinimalAudioReceiver.run_iteration r ev)) in
  MinimalAudioReceiver.packets_received s
  <= MinimalAudioReceiver.packets_received s' /\
  MinimalAudioReceiver.bytes_received s
  <= MinimalAudioReceiver.bytes_received s' /\
  MinimalAudioReceiver.errors s <= MinimalAudioReceiver.errors s'.
Proof.
  destruct (minimal_iteration_effect r ev) as (Hp & Hb & He & _).
  cbv zeta in *.
  pose proof (accepted_count_range (Trace.minimal_datagram ev)).
  pose proof (accepted_bytes_nonneg (Trace.minimal_datagram ev)).
  pose proof (minimal_socket_error_range ev).
  assert (0 <= match MinimalAudioReceiver.sequence_of ev with
               | Some seq =>
                   fst (Rtp.observe
                          (MinimalAudioReceiver.last_sequence
                             (MinimalAudioReceiver.stats_of r)) seq)
               | None => 0
               end).
  { destruct (MinimalAudioReceiver.sequence_of ev);
      [apply observe_range | lia]. }
  lia.
Qed.

Lemma simple_iteration_monotone r ev :
  let s := SimpleAudioReceiver.stats_of r in
  let s' := SimpleAudioReceiver.stats_of
              (flow_state (SimpleAudioReceiver.run_iteration r ev)) in
  SimpleAudioReceiver.packets_received s
  <= SimpleAudioReceiver.packets_received s' /\
  SimpleAudioReceiver.bytes_received s
  <= SimpleAudioReceiver.bytes_received s' /\
  SimpleAudioReceiver.errors s <= SimpleAudioReceiver.errors s'.
Proof.
  pose proof (simple_iteration_effect r ev) as H. cbv zeta in *.
  pose proof (accepted_count_range (Trace.simple_datagram ev)).
  pose proof (accepted_bytes_nonneg (Trace.simple_datagram ev)).
  pose proof (simple_socket_error_range ev).
  destruct (SimpleAudioReceiver.run_iteration r ev) as [r'|r']; simpl.
  - destruct H as (Hp & Hb & He & _). lia.
  - rewrite H. lia.
Qed.

(** X3.  No run of any of the three receive loops, however it ends, makes
    [packets_received], [bytes_received] or [errors] (or, in AudioReceiver,
    [connection_errors]) smaller. *)
Theorem X3_counters_never_decrease :
  (forall evs r,
     let s := AudioReceiver.stats_of r in
     let s' := AudioReceiver.stats_of
                 (flow_state
                    (loop AudioReceiver.running AudioReceiver.run_iteration
                       r evs)) in
     AudioReceiver.packets_received s <= AudioReceiver.packets_received s' /\
     AudioReceiver.bytes_received s <= AudioReceiver.bytes_received s' /\
     AudioReceiver.errors s <= AudioReceiver.errors s' /\
     AudioReceiver.connection_errors s
     <= AudioReceiver.connection_errors s') /\
  (forall evs r,
     let s := MinimalAudioReceiver.stats_of r in
     let s' := MinimalAudioReceiver.stats_of
                 (flow_state
                    (loop MinimalAudioReceiver.running
                       MinimalAudioReceiver.run_iteration r evs)) in
     MinimalAudioReceiver.packets_received s
     <= MinimalAudioReceiver.packets_received s' /\
     MinimalAudioReceiver.bytes_received s
     <= MinimalAudioReceiver.bytes_received s' /\
     MinimalAudioReceiver.errors s <= MinimalAudioReceiver.errors s') /\
  (forall evs r,
     let s := SimpleAudioReceiver.stats_of r in
     let s' := SimpleAudioReceiver.stats_of
                 (flow_state
                    (loop SimpleAudioReceiver.running
                       SimpleAudioReceiver.run_iteration r evs)) in
     SimpleAudioReceiver.packets_received s
     <= SimpleAudioReceiver.packets_received s' /\
     SimpleAudioReceiver.bytes_received s
     <= SimpleAudioReceiver.bytes_received s' /\
     SimpleAudioReceiver.errors s <= SimpleAudioReceiver.errors s').
Proof.
  split; [|split]; intros evs r; cbv zeta.
  - apply (loop_always AudioReceiver.running AudioReceiver.run_iteration
      (fun a =>
         AudioReceiver.packets_received (AudioReceiver.stats_of r)
         <= AudioReceiver.packets_received (AudioReceiver.stats_of a) /\
         AudioReceiver.bytes_received (AudioReceiver.stats_of r)
         <= AudioReceiver.bytes_received (AudioReceiver.stats_of a) /\
         AudioReceiver.errors (AudioReceiver.stats_of r)
         <= AudioReceiver.errors (AudioReceiver.stats_of a) /\
         AudioReceiver.connection_errors (AudioReceiver.stats_of r)
         <= AudioReceiver.connection_errors (AudioReceiver.stats_of a)));
      [|lia].
    intros a ev Ha _. pose proof (audio_iteration_monotone a ev) as H.
    cbv zeta in H. lia.
  - apply (loop_always MinimalAudioReceiver.running
             MinimalAudioReceiver.run_iteration
      (fun a =>
         MinimalAudioReceiver.packets_received (MinimalAudioReceiver.stats_of r)
         <= MinimalAudioReceiver.packets_received
              (MinimalAudioReceiver.stats_of a) /\
         MinimalAudioReceiver.bytes_received (MinimalAudioReceiver.stats_of r)
         <= MinimalAudioReceiver.bytes_received
              (MinimalAudioReceiver.stats_of a) /\
         MinimalAudioReceiver.errors (MinimalAudioReceiver.stats_of r)
         <= MinimalAudioReceiver.errors (MinimalAudioReceiver.stats_of a)));
      [|lia].
    intros a ev Ha _. pose proof (minimal_iteration_monotone a ev) as H.
    cbv zeta in H. lia.
  - apply (loop_always SimpleAudioReceiver.running
             SimpleAudioReceiver.run_iteration
      (fun a =>
         SimpleAudioReceiver.packets_received (SimpleAudioReceiver.stats_of r)
         <= SimpleAudioReceiver.packets_received
              (SimpleAudioReceiver.stats_of a) /\
         SimpleAudioReceiver.bytes_received (SimpleAudioReceiver.stats_of r)
         <= SimpleAudioReceiver.bytes_received
              (SimpleAudioReceiver.stats_of a) /\
         SimpleAudioReceiver.errors (SimpleAudioReceiver.stats_of r)
         <= SimpleAudioReceiver.errors (SimpleAudioReceiver.stats_of a)));
      [|lia].
    intros a ev Ha _. pose proof (simple_iteration_monotone a ev) as H.
    cbv zeta in H. lia.
Qed.

Lemma audio_header_bytes evs r :
  12 * AudioReceiver.packets_received (AudioReceiver.stats_of r)
  <= AudioReceiver.bytes_received (AudioReceiver.stats_of r) ->
  let s := AudioReceiver.stats_of
             (flow_state
                (loop AudioReceiver.running AudioReceiver.run_iteration r evs))
  in
  12 * AudioReceiver.packets_received s <= AudioReceiver.bytes_received s.
Proof.
  intros H0. cbv zeta.
  apply (loop_always AudioReceiver.running AudioReceiver.run_iteration
    (fun a => 12 * AudioReceiver.packets_received (AudioReceiver.stats_of a)
              <= AudioReceiver.bytes_received (AudioReceiver.stats_of a)));
    [|exact H0].
  intros a ev Ha _.
  destruct (audio_iteration_effect a ev) as (Hp & Hb & _).
  cbv zeta in Hp, Hb. rewrite Hp, Hb.
  pose proof (accepted_bytes_header (Trace.audio_datagram ev)). lia.
Qed.

Lemma minimal_header_bytes evs r :
  12 * MinimalAudioReceiver.packets_received (MinimalAudioReceiver.stats_of r)
  <= MinimalAudioReceiver.bytes_received (MinimalAudioReceiver.stats_of r) ->
  let s := MinimalAudioReceiver.stats_of
             (flow_state
                (loop MinimalAudioReceiver.running
                   MinimalAudioReceiver.run_iteration r evs)) in
  12 * MinimalAudioReceiver.packets_received s
  <= MinimalAudioReceiver.bytes_received s.
Proof.
  intros H0. cbv zeta.
  apply (loop_always MinimalAudioReceiver.running
           MinimalAudioReceiver.run_iteration
    (fun a => 12 * MinimalAudioReceiver.packets_received
                     (MinimalAudioReceiver.stats_of a)
              <= MinimalAudioReceiver.bytes_received
                   (MinimalAudioReceiver.stats_of a)));
    [|exact H0].
  intros a ev Ha _.
  destruct (minimal_iteration_effect a ev) as (Hp & Hb & _).
  cbv zeta in Hp, Hb. rewrite Hp, Hb.
  pose proof (accepted_bytes_header (Trace.minimal_datagram ev)). lia.
Qed.

Lemma simple_header_bytes evs r :
  12 * SimpleAudioReceiver.packets_received (SimpleAudioReceiver.stats_of r)
  <= SimpleAudioReceiver.bytes_received (SimpleAudioReceiver.stats_of r) ->
  let s := SimpleAudioReceiver.stats_of
             (flow_state
                (loop SimpleAudioReceiver.running
                   SimpleAudioReceiver.run_iteration r evs)) in
  12 * SimpleAudioReceiver.packets_received s
  <= SimpleAudioReceiver.bytes_received s.
Proof.
  intros H0. cbv zeta.
  apply (loop_always SimpleAudioReceiver.running
           SimpleAudioReceiver.run_iteration
    (fun a => 12 * SimpleAudioReceiver.packets_received
                     (SimpleAudioReceiver.stats_of a)
              <= SimpleAudioReceiver.bytes_received
                   (SimpleAudioReceiver.stats_of a)));
    [|exact H0].
  intros a ev Ha _.
  pose proof (simple_iteration_effect a ev) as H. cbv zeta in H.
  pose proof (accepted_bytes_header (Trace.simple_datagram ev)).
  destruct (SimpleAudioReceiver.run_iteration a ev) as [r'|r'];
    cbn [flow_state].
  - destruct H as (Hp & Hb & _). lia.
  - rewrite H. exact Ha.
Qed.

(** X4.  In every state a fresh receiver of any of the three variants can
    reach, whether the start worked or not and however the loop ended,
    [bytes_received] is at least 12 times [packets_received]: every counted
    packet brought its full 12-byte header. *)
Theorem X4_header_bytes_counted :
  (forall ok t0 evs,
     let s := AudioReceiver.stats_of
                (flow_state (AudioReceiver.run AudioReceiver.init ok t0 evs)) in
     12 * AudioReceiver.packets_received s <= AudioReceiver.bytes_received s) /\
  (forall ok evs,
     let s := MinimalAudioReceiver.stats_of
                (flow_state
                   (MinimalAudioReceiver.run MinimalAudioReceiver.init ok evs))
     in
     12 * MinimalAudioReceiver.packets_received s
     <= MinimalAudioReceiver.bytes_received s) /\
  (forall ok t0 evs,
     let s := SimpleAudioReceiver.stats_of
                (flow_state
                   (SimpleAudioReceiver.start (SimpleAudioReceiver.init t0)
                      ok evs)) in
     12 * SimpleAudioReceiver.packets_received s
     <= SimpleAudioReceiver.bytes_received s).
Proof.
  split; [|split].
  - intros ok t0 evs. cbv zeta. unfold AudioReceiver.run.
    destruct ok; cbn [AudioReceiver.start fst snd]; [|vm_compute; discriminate].
    pose proof (audio_header_bytes evs
      (fst (AudioReceiver.start AudioReceiver.init true t0))) as H.
    cbv zeta in H. cbn [AudioReceiver.start fst] in H.
    destruct (loop _ _ _ evs) as [r2|r2];
      cbn [flow_state AudioReceiver.stop AudioReceiver.stats_of] in *;
      apply H; vm_compute; discriminate.
  - intros ok evs. cbv zeta. unfold MinimalAudioReceiver.run.
    destruct ok; cbn [MinimalAudioReceiver.start fst snd];
      [|vm_compute; discriminate].
    pose proof (minimal_header_bytes evs
      (fst (MinimalAudioReceiver.start MinimalAudioReceiver.init true))) as H.
    cbv zeta in H. cbn [MinimalAudioReceiver.start fst] in H.
    destruct (loop _ _ _ evs) as [r2|r2];
      cbn [flow_state MinimalAudioReceiver.stop MinimalAudioReceiver.stats_of]
        in *;
      apply H; vm_compute; discriminate.
  - intros ok t0 evs. cbv zeta. unfold SimpleAudioReceiver.start.
    destruct ok; [|vm_compute; discriminate].
    apply simple_header_bytes. vm_compute. discriminate.
Qed.

(** ** What reaches the sink *)

(** X5.  AudioReceiver hands to [pcm.write], in arrival order and once
    each, exactly the non-empty payloads (the bytes from offset 12 on) of
    the datagrams that pass header validation: nothing of a rejected
    datagram, no empty payload, and no payload is skipped, repeated or
    reordered, whatever the device answers to the writes. *)
Theorem X5_sink_receives_payloads_in_order :
  forall evs r r',
    loop AudioReceiver.running AudioReceiver.run_iteration r evs = Next r' ->
    rev (AudioReceiver.pcm_written r')
    = rev (AudioReceiver.pcm_written r)
      ++ List.concat
           (map (fun ev => Trace.accepted_payload (Trace.audio_datagram ev))
              evs).
Proof.
  intros evs r r' Hl.
  exact (loop_log AudioReceiver.running AudioReceiver.run_iteration
           (fun a => rev (AudioReceiver.pcm_written a))
           (fun ev => Trace.accepted_payload (Trace.audio_datagram ev))
           (fun a ev a' _ Hb =>
              proj2 (proj2 (proj2 (audio_next_effect a ev a' Hb))))
           evs r r' Hl).
Qed.

(** Payload [1], a timeout, a datagram of version 1, an empty payload, and
    payload [2; 3] answered by [ALSAAudioError]: the device was handed [1]
    and then [2; 3]. *)
Lemma X5_sink_receives_payloads_in_order_witness :
  exists r',
    loop AudioReceiver.running AudioReceiver.run_iteration
      (fst (AudioReceiver.start AudioReceiver.init true 0))
      [AudioReceiver.Received (Rtp.datagram 0 [x01]) 1 AudioReceiver.Written;
       AudioReceiver.SocketTimeout 2;
       AudioReceiver.Received
         [x40; x00; x00; x01; x00; x00; x00; x00; x00; x00; x00; x00; x07] 3
         AudioReceiver.Written;
       AudioReceiver.Received (Rtp.datagram 1 []) 3 AudioReceiver.Written;
       AudioReceiver.Received (Rtp.datagram 2 [x02; x03]) 3
         AudioReceiver.ALSAAudioError] = Next r' /\
    rev (AudioReceiver.pcm_written r') = [[x01]; [x02; x03]].
Proof.
  match goal with
  | |- exists r', ?l = Next r' /\ _ =>
      destruct l as [r'|r'] eqn:E; [|vm_compute in E; discriminate]
  end.
  exists r'. split; [reflexivity|].
  rewrite (X5_sink_receives_payloads_in_order _ _ _ E). reflexivity.
Defined.

Section LoopLogs.
Variables (A E B : Type).
Variable running : A -> bool.
Variable body : A -> E -> flow A.

(** Whatever is in a log that iterations only extend, by an item their
    event carries, was there before or is carried by one of the events. *)
Lemma loop_log_origin (m : A -> list B) (c : E -> list B) :
  (forall a ev,
     running a = true ->
     m (flow_state (body a ev)) = m a \/
     exists b, c ev = [b] /\ m (flow_state (body a ev)) = b :: m a) ->
  forall evs a b,
    In b (m (flow_state (loop running body a evs))) ->
    In b (m a) \/ exists ev, In ev evs /\ c ev = [b].
Proof.
  intros Hstep evs.
  induction evs as [|ev evs IH]; intros a b Hin; simpl in Hin.
  - left. exact Hin.
  - destruct (running a) eqn:Hr; [|left; exact Hin].
    assert (Hone : In b (m (flow_state (body a ev))) ->
                   In b (m a) \/ exists ev0, In ev0 (ev :: evs) /\ c ev0 = [b]).
    { intros Hb. destruct (Hstep a ev Hr) as [Heq|(b0 & Hc & Heq)];
        rewrite Heq in Hb; [left; exact Hb|].
      destruct Hb as [<-|Hb]; [|left; exact Hb].
      right. exists ev. split; [left; reflexivity | exact Hc]. }
    destruct (body a ev) as [a1|a1]; simpl in Hone.
    + destruct (IH a1 b Hin) as [H1|(ev0 & Hev & Hc)].
      * exact (Hone H1).
      * right. exists ev0. split; [right; exact Hev | exact Hc].
    + exact (Hone Hin).
Qed.
End LoopLogs.
Arguments loop_log_origin {A E B} running body m c.

Lemma accepted_payload_nonempty d payload :
  Trace.accepted_payload d = [payload] ->
  Rtp.nonempty payload = true /\
  exists data,
    d = Some data /\ Rtp.passes_validation data = true /\
    payload = skipn 12 data.
Proof.
  destruct d as [data|]; cbn [Trace.accepted_payload]; [|discriminate].
  destruct (Rtp.passes_validation data) eqn:Hv; cbn [andb]; [|discriminate].
  destruct (Rtp.nonempty (skipn 12 data)) eqn:Hn; [|discriminate].
  intros [= <-]. split; [exact Hn|]. exists data.
  split; [reflexivity|]. split; [exact Hv | reflexivity].
Qed.

Lemma simple_iteration_sink r ev :
  let r' := flow_state (SimpleAudioReceiver.run_iteration r ev) in
  SimpleAudioReceiver.stdin_writes r' = SimpleAudioReceiver.stdin_writes r \/
  exists payload,
    Trace.accepted_payload (Trace.simple_datagram ev) = [payload] /\
    SimpleAudioReceiver.stdin_writes r'
    = payload :: SimpleAudioReceiver.stdin_writes r.
Proof.
  destruct ev as [data sender port now w ok|now| |]; cbv zeta;
    try (left; reflexivity).
  - cbn [Trace.simple_datagram Trace.accepted_payload].
    destruct (Rtp.passes_validation data) eqn:Hv.
    + destruct (passes_parse data Hv) as (p & Hp & Hpv & Hl & Hs).
      pose proof (parse_audio_data data p Hp) as Ha.
      unfold SimpleAudioReceiver.run_iteration. rewrite Hl, Hp, Hpv, Ha.
      cbn [Z.eqb negb Pos.eqb andb].
      destruct (Rtp.nonempty (skipn 12 data)) eqn:Hn;
        destruct (SimpleAudioReceiver.aplay_process r) eqn:Hap;
        cbn [andb]; try (left; simpl;
          unfold SimpleAudioReceiver.detect_connection;
          destruct (negb _); [reflexivity|]; destruct (negb _); reflexivity).
      right. exists (skipn 12 data). split; [reflexivity|].
      destruct w, ok; simpl; rewrite ?Hap; simpl;
        unfold SimpleAudioReceiver.detect_connection; simpl;
        try (destruct (negb _); [reflexivity|];
             destruct (negb _); reflexivity);
        reflexivity.
    + rewrite (simple_rejected r data sender port now w ok Hv).
      left. reflexivity.
  - left. simpl. unfold SimpleAudioReceiver.on_timeout.
    destruct (_ && _); [destruct (Qlt_bool 5 _)|]; reflexivity.
Qed.

(** X6.  Whatever MinimalAudioReceiver or SimpleAudioReceiver writes to the
    standard input of aplay during a run, however the run ends, is the
    non-empty payload (the bytes from offset 12 on) of a received datagram
    that passes header validation: never an empty payload, never a byte of
    a rejected datagram, never a header. *)
Theorem X6_pipe_receives_only_payloads :
  (forall evs r payload,
     In payload
        (MinimalAudioReceiver.stdin_writes
           (flow_state
              (loop MinimalAudioReceiver.running
                 MinimalAudioReceiver.run_iteration r evs))) ->
     In payload (MinimalAudioReceiver.stdin_writes r) \/
     Rtp.nonempty payload = true /\
     exists data w ok,
       In (MinimalAudioReceiver.Received data w ok) evs /\
       Rtp.passes_validation data = true /\ payload = skipn 12 data) /\
  (forall evs r payload,
     In payload
        (SimpleAudioReceiver.stdin_writes
           (flow_state
              (loop SimpleAudioReceiver.running
                 SimpleAudioReceiver.run_iteration r evs))) ->
     In payload (SimpleAudioReceiver.stdin_writes r) \/
     Rtp.nonempty payload = true /\
     exists data sender port now w ok,
       In (SimpleAudioReceiver.Received data sender port now w ok) evs /\
       Rtp.passes_validation data = true /\ payload = skipn 12 data).
Proof.
  split; intros evs r payload Hin.
  - destruct (loop_log_origin MinimalAudioReceiver.running
                MinimalAudioReceiver.run_iteration
                MinimalAudioReceiver.stdin_writes
                (fun ev => Trace.accepted_payload (Trace.minimal_datagram ev)))
      with (evs := evs) (a := r) (b := payload)
      as [H|(ev & Hev & Hc)]; [| exact Hin | left; exact H |].
    + intros a ev _.
      destruct (minimal_iteration_sink a ev) as (_ & _ & [E|(b & _ & Hc & E)]);
        [left; exact E | right; exists b; split; assumption].
    + right. destruct (accepted_payload_nonempty _ _ Hc)
        as (Hn & data & Hd & Hv & Hp).
      split; [exact Hn|].
      destruct ev as [data' w ok| | |]; try discriminate.
      injection Hd as ->. exists data, w, ok. repeat split; assumption.
  - destruct (loop_log_origin SimpleAudioReceiver.running
                SimpleAudioReceiver.run_iteration
                SimpleAudioReceiver.stdin_writes
                (fun ev => Trace.accepted_payload (Trace.simple_datagram ev)))
      with (evs := evs) (a := r) (b := payload)
      as [H|(ev & Hev & Hc)]; [| exact Hin | left; exact H |].
    + intros a ev _.
      destruct (simple_iteration_sink a ev) as [E|(b & Hc & E)];
        [left; exact E | right; exists b; split; assumption].
    + right. destruct (accepted_payload_nonempty _ _ Hc)
        as (Hn & data & Hd & Hv & Hp).
      split; [exact Hn|].
      destruct ev as [data' sender port now w ok|now| |]; try discriminate.
      injection Hd as ->. exists data, sender, port, now, w, ok.
      repeat split; assumption.
Qed.

(** MinimalAudioReceiver after a rejected datagram, an empty payload and
    payload [9]: what was written is [9]. *)
Lemma X6_pipe_receives_only_payloads_witness :
  In [x09]
     (MinimalAudioReceiver.stdin_writes
        (flow_state
           (loop MinimalAudioReceiver.running
              MinimalAudioReceiver.run_iteration
              (fst (MinimalAudioReceiver.start MinimalAudioReceiver.init true))
              [MinimalAudioReceiver.Received [x80; x00; x00] PipeWritten true;
               MinimalAudioReceiver.Received (Rtp.datagram 0 []) PipeWritten
                 true;
               MinimalAudioReceiver.Received (Rtp.datagram 1 [x09])
                 PipeWritten true]))) /\
  Rtp.nonempty [x09] = true.
Proof.
  assert (Hin : In [x09]
     (MinimalAudioReceiver.stdin_writes
        (flow_state
           (loop MinimalAudioReceiver.running
              MinimalAudioReceiver.run_iteration
              (fst (MinimalAudioReceiver.start MinimalAudioReceiver.init true))
              [MinimalAudioReceiver.Received [x80; x00; x00] PipeWritten true;
               MinimalAudioReceiver.Received (Rtp.datagram 0 []) PipeWritten
                 true;
               MinimalAudioReceiver.Received (Rtp.datagram 1 [x09])
                 PipeWritten true])))).
  { vm_compute. left. reflexivity. }
  split; [exact Hin|].
  destruct X6_pipe_receives_only_payloads as [H _].
  destruct (H _ _ _ Hin) as [Hf|[Hn _]]; [destruct Hf | exact Hn].
Defined.

(** X7.  In MinimalAudioReceiver a failed restart is final.  When the write
    of a payload fails and [Popen] fails in [restart_aplay], the receiver is
    left without an aplay process; and from a receiver without one, no run
    ever writes a payload or starts aplay again, even when [Popen] would
    succeed by then: the receiver keeps counting packets with no sound. *)
Theorem X7_lost_sink_stays_lost :
  (forall r data w,
     Rtp.passes_validation data = true ->
     Rtp.nonempty (skipn 12 data) = true ->
     MinimalAudioReceiver.aplay_process r = true ->
     w <> PipeWritten ->
     MinimalAudioReceiver.aplay_process
       (flow_state
          (MinimalAudioReceiver.run_iteration r
             (MinimalAudioReceiver.Received data w false))) = false) /\
  (forall evs r,
     MinimalAudioReceiver.aplay_process r = false ->
     let r' := flow_state
                 (loop MinimalAudioReceiver.running
                    MinimalAudioReceiver.run_iteration r evs) in
     MinimalAudioReceiver.aplay_process r' = false /\
     MinimalAudioReceiver.stdin_writes r' = MinimalAudioReceiver.stdin_writes r
     /\ MinimalAudioReceiver.spawned r' = MinimalAudioReceiver.spawned r).
Proof.
  split.
  - intros r data w Hv Hn Hap Hw.
    destruct (passes_parse data Hv) as (p & Hp & Hpv & Hl & Hs).
    pose proof (parse_audio_data data p Hp) as Ha.
    unfold MinimalAudioReceiver.run_iteration.
    rewrite Hl, Hp, Hpv, Ha, Hn, Hap.
    destruct w; [contradiction| |]; reflexivity.
  - intros evs r Hap. cbv zeta.
    apply (loop_always MinimalAudioReceiver.running
             MinimalAudioReceiver.run_iteration
      (fun a =>
         MinimalAudioReceiver.aplay_process a = false /\
         MinimalAudioReceiver.stdin_writes a
         = MinimalAudioReceiver.stdin_writes r /\
         MinimalAudioReceiver.spawned a = MinimalAudioReceiver.spawned r)).
    + intros a ev (Ha & Hw & Hs) _.
      destruct (minimal_iteration_sink a ev) as (H & _).
      destruct (H Ha) as (Ha' & Hw' & Hs').
      rewrite Ha', Hw', Hs'. repeat split; assumption.
    + repeat split. exact Hap.
Qed.

(** A broken pipe with a failed restart, then two more datagrams for which
    [Popen] would work: one write in all, and one aplay ever started. *)
Lemma X7_lost_sink_stays_lost_witness :
  MinimalAudioReceiver.aplay_process
    (flow_state
       (MinimalAudioReceiver.run_iteration
          (fst (MinimalAudioReceiver.start MinimalAudioReceiver.init true))
          (MinimalAudioReceiver.Received (Rtp.datagram 0 [x01])
             BrokenPipeError false))) = false /\
  List.length
    (MinimalAudioReceiver.stdin_writes
       (flow_state
          (loop MinimalAudioReceiver.running MinimalAudioReceiver.run_iteration
             (flow_state
                (MinimalAudioReceiver.run_iteration
                   (fst (MinimalAudioReceiver.start MinimalAudioReceiver.init
                           true))
                   (MinimalAudioReceiver.Received (Rtp.datagram 0 [x01])
                      BrokenPipeError false)))
             [MinimalAudioReceiver.Received (Rtp.datagram 1 [x02])
                PipeWritten true;
              MinimalAudioReceiver.Received (Rtp.datagram 2 [x03])
                BrokenPipeError true]))) = 1%nat.
Proof.
  destruct X7_lost_sink_stays_lost as [H1 H2].
  assert (Hlost : MinimalAudioReceiver.aplay_process
    (flow_state
       (MinimalAudioReceiver.run_iteration
          (fst (MinimalAudioReceiver.start MinimalAudioReceiver.init true))
          (MinimalAudioReceiver.Received (Rtp.datagram 0 [x01])
             BrokenPipeError false))) = false).
  { apply H1; [reflexivity | reflexivity | reflexivity | discriminate]. }
  split; [exact Hlost|].
  destruct (H2 [MinimalAudioReceiver.Received (Rtp.datagram 1 [x02])
                  PipeWritten true;
                MinimalAudioReceiver.Received (Rtp.datagram 2 [x03])
                  BrokenPipeError true] _ Hlost) as (_ & -> & _).
  reflexivity.
Defined.

Lemma minimal_spawned_bound evs :
  forall r,
    (MinimalAudioReceiver.spawned r
     <= MinimalAudioReceiver.spawned
          (flow_state
             (loop MinimalAudioReceiver.running
                MinimalAudioReceiver.run_iteration r evs))
     <= MinimalAudioReceiver.spawned r
        + list_sum (map Trace.minimal_respawn evs))%nat.
Proof.
  induction evs as [|ev evs IH]; intros r; simpl; [lia|].
  destruct (MinimalAudioReceiver.running r); [|simpl; lia].
  destruct (minimal_iteration_sink r ev) as (_ & Hs & _). cbv zeta in Hs.
  destruct (MinimalAudioReceiver.run_iteration r ev) as [r1|r1];
    simpl in Hs |- *; [|lia].
  specialize (IH r1). lia.
Qed.

(** X8.  MinimalAudioReceiver starts aplay at most once for each received
    datagram whose write fails; in particular a run in which no write fails
    ends with the aplay process count it began with.  The count never goes
    down. *)
Theorem X8_one_restart_per_failed_write :
  forall evs r,
    (MinimalAudioReceiver.spawned r
     <= MinimalAudioReceiver.spawned
          (flow_state
             (loop MinimalAudioReceiver.running
                MinimalAudioReceiver.run_iteration r evs))
     <= MinimalAudioReceiver.spawned r
        + list_sum (map Trace.minimal_respawn evs))%nat /\
    (Forall (fun ev => forall data w ok,
               ev = MinimalAudioReceiver.Received data w ok ->
               w = PipeWritten) evs ->
     MinimalAudioReceiver.spawned
       (flow_state
          (loop MinimalAudioReceiver.running
             MinimalAudioReceiver.run_iteration r evs))
     = MinimalAudioReceiver.spawned r).
Proof.
  intros evs r. pose proof (minimal_spawned_bound evs r) as Hb.
  split; [exact Hb|].
  intros Hok.
  assert (Hz : list_sum (map Trace.minimal_respawn evs) = 0%nat).
  { clear Hb. induction Hok as [|ev evs Hev _ IH]; [reflexivity|].
    simpl. rewrite IH.
    destruct ev as [data w ok| | |]; try reflexivity.
    rewrite (Hev data w ok eq_refl). reflexivity. }
  lia.
Qed.

(** Three writes, of which the second finds the pipe broken: two aplay
    processes in all, the one of [start] and one restart. *)
Lemma X8_one_restart_per_failed_write_witness :
  MinimalAudioReceiver.spawned
    (flow_state
       (loop MinimalAudioReceiver.running MinimalAudioReceiver.run_iteration
          (fst (MinimalAudioReceiver.start MinimalAudioReceiver.init true))
          [MinimalAudioReceiver.Received (Rtp.datagram 0 [x01]) PipeWritten
             true;
           MinimalAudioReceiver.Received (Rtp.datagram 1 [x02])
             BrokenPipeError true;
           MinimalAudioReceiver.Received (Rtp.datagram 2 [x03]) PipeWritten
             true])) = 2%nat /\
  MinimalAudioReceiver.spawned
    (flow_state
       (loop MinimalAudioReceiver.running MinimalAudioReceiver.run_iteration
          (fst (MinimalAudioReceiver.start MinimalAudioReceiver.init true))
          [MinimalAudioReceiver.Received (Rtp.datagram 0 [x01]) PipeWritten
             true;
           MinimalAudioReceiver.SocketTimeout])) = 1%nat.
Proof.
  split; [reflexivity|].
  destruct (X8_one_restart_per_failed_write
              [MinimalAudioReceiver.Received (Rtp.datagram 0 [x01])
                 PipeWritten true;
               MinimalAudioReceiver.SocketTimeout]
              (fst (MinimalAudioReceiver.start MinimalAudioReceiver.init true)))
    as [_ H].
  rewrite H; [reflexivity|].
  repeat constructor; intros data w ok [=]; subst; reflexivity.
Defined.

(** ** The sender of SimpleAudioReceiver *)

Lemma simple_detect_sender r sender now :
  let s := SimpleAudioReceiver.stats_of r in
  let s' := SimpleAudioReceiver.stats_of
              (SimpleAudioReceiver.detect_connection r sender now) in
  SimpleAudioReceiver.connected s' = true /\
  SimpleAudioReceiver.last_sender s' = Some sender /\
  SimpleAudioReceiver.connection_time s'
  = (if SimpleAudioReceiver.connected s
     then SimpleAudioReceiver.connection_time s else py_int now).
Proof.
  cbv zeta. unfold SimpleAudioReceiver.detect_connection.
  destruct (SimpleAudioReceiver.connected (SimpleAudioReceiver.stats_of r))
    eqn:Hc; simpl; [|repeat split].
  destruct (SimpleAudioReceiver.last_sender (SimpleAudioReceiver.stats_of r))
    as [s0|] eqn:Hs; simpl.
  - destruct (String.eqb_spec s0 sender) as [->|Hne]; simpl;
      rewrite ?Hc, ?Hs; repeat split.
  - repeat split.
Qed.

Lemma simple_accepted_sender :
  forall r data sender port now w ok r',
    Rtp.passes_validation data = true ->
    SimpleAudioReceiver.run_iteration r
      (SimpleAudioReceiver.Received data sender port now w ok) = Next r' ->
    let s := SimpleAudioReceiver.stats_of r in
    let s' := SimpleAudioReceiver.stats_of r' in
    SimpleAudioReceiver.connected s' = true /\
    SimpleAudioReceiver.last_sender s' = Some sender /\
    SimpleAudioReceiver.connection_time s'
    = (if SimpleAudioReceiver.connected s
       then SimpleAudioReceiver.connection_time s else py_int now).
Proof.
  intros r data sender port now w ok r' Hv Hn. cbv zeta.
  destruct (simple_accepted r data sender port now w ok Hv) as (p & _ & E).
  rewrite Hn in E.
  destruct (_ && _).
  - pose proof (simple_stdin_write_stats r (Rtp.audio_data p) w ok) as Hst.
    destruct (SimpleAudioReceiver.stdin_write _ _ _ _) as [r1|r1];
      [|discriminate].
    injection E as ->. simpl in Hst |- *.
    destruct (simple_detect_sender r1 sender now) as (Hc & Hs & Ht).
    cbv zeta in Hc, Hs, Ht. rewrite Hst in Ht.
    repeat split; assumption.
  - injection E as ->. simpl.
    exact (simple_detect_sender r sender now).
Qed.

(** X9.  When SimpleAudioReceiver has taken a datagram that passes header
    validation through a whole iteration, it is connected and
    [last_sender] is the address the datagram came from.  If it was
    connected already, [connection_time] keeps its value, also when the
    sender differs from the one before: a change of sender is a switch, not
    a new connection.  If it was not, [connection_time] is the whole-second
    clock reading of this iteration. *)
Theorem X9_sender_switch :
  forall r data sender port now w ok r',
    Rtp.passes_validation data = true ->
    SimpleAudioReceiver.run_iteration r
      (SimpleAudioReceiver.Received data sender port now w ok) = Next r' ->
    let s := SimpleAudioReceiver.stats_of r in
    let s' := SimpleAudioReceiver.stats_of r' in
    SimpleAudioReceiver.connected s' = true /\
    SimpleAudioReceiver.last_sender s' = Some sender /\
    SimpleAudioReceiver.connection_time s'
    = (if SimpleAudioReceiver.connected s
       then SimpleAudioReceiver.connection_time s else py_int now).
Proof.
  exact simple_accepted_sender.
Qed.

(** Connected to 10.0.0.2 since second 3, a datagram from 10.0.0.9 arrives
    at second 8: the sender is 10.0.0.9 and the connection time still 3. *)
Lemma X9_sender_switch_witness :
  exists r1 r2,
    SimpleAudioReceiver.run_iteration
      (flow_state
         (SimpleAudioReceiver.start (SimpleAudioReceiver.init 0) true []))
      (SimpleAudioReceiver.Received (Rtp.datagram 0 [x01]) "10.0.0.2" 5004
         (7 # 2) PipeWritten true) = Next r1 /\
    SimpleAudioReceiver.run_iteration r1
      (SimpleAudioReceiver.Received (Rtp.datagram 1 [x01]) "10.0.0.9" 6000
         8 PipeWritten true) = Next r2 /\
    SimpleAudioReceiver.last_sender (SimpleAudioReceiver.stats_of r2)
    = Some "10.0.0.9"%string /\
    SimpleAudioReceiver.connection_time (SimpleAudioReceiver.stats_of r2) = 3.
Proof.
  eexists. eexists. split; [vm_compute; reflexivity|].
  match goal with
  | |- ?l = Next _ /\ _ =>
      assert (E : l = Next (flow_state l)) by (vm_compute; reflexivity)
  end.
  split; [exact E|].
  pose proof (fun Hv => X9_sender_switch _ _ _ _ _ _ _ _ Hv E) as H.
  destruct (H eq_refl) as (_ & Hs & Ht).
  split; [exact Hs | exact Ht].
Defined.

Lemma simple_iteration_sender_invariant r ev :
  let s := SimpleAudioReceiver.stats_of r in
  let s' := SimpleAudioReceiver.stats_of
              (flow_state (SimpleAudioReceiver.run_iteration r ev)) in
  (SimpleAudioReceiver.connected s = true <->
   SimpleAudioReceiver.last_sender s <> None) ->
  (SimpleAudioReceiver.connected s' = true <->
   SimpleAudioReceiver.last_sender s' <> None).
Proof.
  cbv zeta. intros Hinv.
  destruct ev as [data sender port now w ok|now| |]; try exact Hinv.
  - destruct (Rtp.passes_validation data) eqn:Hv.
    + pose proof (simple_accepted_sender r data sender port now w ok) as Hx.
      pose proof (simple_iteration_effect r
        (SimpleAudioReceiver.Received data sender port now w ok)) as He.
      cbv zeta in He.
      destruct (SimpleAudioReceiver.run_iteration r _) as [r'|r']; simpl.
      * destruct (Hx r' Hv eq_refl) as (Hc & Hs & _).
        rewrite Hc, Hs. split; [discriminate | reflexivity].
      * rewrite He. exact Hinv.
    + rewrite (simple_rejected r data sender port now w ok Hv). exact Hinv.
  - simpl. unfold SimpleAudioReceiver.on_timeout.
    destruct (_ && _); [|exact Hinv].
    destruct (Qlt_bool 5 _); [|exact Hinv].
    simpl. split; [discriminate | intros H; contradiction H; reflexivity].
Qed.

(** X10.  In every state SimpleAudioReceiver reaches from its initial one,
    however the loop ended, the flag [connected] is set exactly when
    [last_sender] holds an address: the two are set together by the first
    accepted datagram and cleared together by the disconnection check. *)
Theorem X10_connected_iff_sender_known :
  forall t0 ok evs,
    let s := SimpleAudioReceiver.stats_of
               (flow_state
                  (SimpleAudioReceiver.start (SimpleAudioReceiver.init t0)
                     ok evs)) in
    SimpleAudioReceiver.connected s = true <->
    SimpleAudioReceiver.last_sender s <> None.
Proof.
  intros t0 ok evs. cbv zeta. unfold SimpleAudioReceiver.start.
  destruct ok.
  - apply (loop_always SimpleAudioReceiver.running
             SimpleAudioReceiver.run_iteration
      (fun a =>
         SimpleAudioReceiver.connected (SimpleAudioReceiver.stats_of a) = true
         <-> SimpleAudioReceiver.last_sender (SimpleAudioReceiver.stats_of a)
             <> None)).
    + intros a ev Ha _. exact (simple_iteration_sender_invariant a ev Ha).
    + simpl. split; [discriminate | intros H; contradiction H; reflexivity].
  - simpl. split; [discriminate | intros H; contradiction H; reflexivity].
Qed.

Lemma Qlt_bool_iff (x y : Q) : Qlt_bool x y = true <-> (x < y)%Q.
Proof.
  split; [apply Qlt_bool_true|].
  intros H. unfold Qlt_bool. apply negb_true_iff.
  destruct (Qle_bool y x) eqn:E; [|reflexivity].
  apply Qle_bool_iff in E. exfalso. exact (Qlt_not_le _ _ H E).
Qed.

(** X11.  SimpleAudioReceiver, running from its start and connected, with
    the last datagram that passed header validation received at a positive
    clock reading [t]: a receive timeout at clock reading [now] clears
    [connected] (and [last_sender]) exactly when [now - t > 5]; at exactly
    5 seconds, or less, the receiver stays connected and its statistics
    are untouched. *)
Theorem X11_disconnect_after_five_seconds :
  forall t0 evs r now,
    SimpleAudioReceiver.start (SimpleAudioReceiver.init t0) true evs = Next r ->
    SimpleAudioReceiver.connected (SimpleAudioReceiver.stats_of r) = true ->
    (0 < SimpleAudioReceiver.last_accepted evs 0)%Q ->
    let r' := flow_state
                (SimpleAudioReceiver.run_iteration r
                   (SimpleAudioReceiver.SocketTimeout now)) in
    ((5 < now - SimpleAudioReceiver.last_accepted evs 0)%Q ->
     SimpleAudioReceiver.connected (SimpleAudioReceiver.stats_of r') = false /\
     SimpleAudioReceiver.last_sender (SimpleAudioReceiver.stats_of r') = None)
    /\
    (~ (5 < now - SimpleAudioReceiver.last_accepted evs 0)%Q -> r' = r).
Proof.
  intros t0 evs r now Hs Hc Ht. cbv zeta.
  unfold SimpleAudioReceiver.start in Hs.
  apply simple_loop_last_accepted in Hs. simpl in Hs. rewrite <- Hs in *.
  simpl. unfold SimpleAudioReceiver.on_timeout. rewrite Hc.
  apply Qlt_bool_iff in Ht. rewrite Ht. simpl.
  destruct (Qlt_bool 5 (now - SimpleAudioReceiver.last_packet_time r)) eqn:E5.
  - split; [intros _; split; reflexivity|].
    intros Hn. exfalso. apply Hn. apply Qlt_bool_iff. exact E5.
  - split; [|reflexivity].
    intros H5. apply Qlt_bool_iff in H5. congruence.
Qed.

(** A packet at second 1: a timeout at second 6 changes nothing, one at
    second 6.5 disconnects. *)
Lemma X11_disconnect_after_five_seconds_witness :
  exists r,
    SimpleAudioReceiver.start (SimpleAudioReceiver.init 0) true
      [SimpleAudioReceiver.Received (Rtp.datagram 0 [x01]) "10.0.0.2" 5004
         1 PipeWritten true] = Next r /\
    flow_state
      (SimpleAudioReceiver.run_iteration r (SimpleAudioReceiver.SocketTimeout 6))
    = r /\
    SimpleAudioReceiver.connected
      (SimpleAudioReceiver.stats_of
         (flow_state
            (SimpleAudioReceiver.run_iteration r
               (SimpleAudioReceiver.SocketTimeout (13 # 2))))) = false.
Proof.
  match goal with
  | |- exists r, ?l = Next r /\ _ =>
      assert (E : l = Next (flow_state l)) by (vm_compute; reflexivity);
      exists (flow_state l)
  end.
  split; [exact E|].
  split.
  - destruct (X11_disconnect_after_five_seconds 0 _ _ 6 E eq_refl eq_refl)
      as [_ H].
    apply H. vm_compute. discriminate.
  - destruct (X11_disconnect_after_five_seconds 0 _ _ (13 # 2) E eq_refl
                eq_refl) as [H _].
    apply H. reflexivity.
Defined.

(** ** The parser, once more *)

Lemma be_uint_2_range b0 b1 : 0 <= Rtp.be_uint [b0; b1] < 65536.
Proof.
  cbn [Rtp.be_uint fold_left].
  pose proof (byte_val_range b0). pose proof (byte_val_range b1). lia.
Qed.

Lemma be_uint_4_range b0 b1 b2 b3 :
  0 <= Rtp.be_uint [b0; b1; b2; b3] < 4294967296.
Proof.
  cbn [Rtp.be_uint fold_left].
  pose proof (byte_val_range b0). pose proof (byte_val_range b1).
  pose proof (byte_val_range b2). pose proof (byte_val_range b3). lia.
Qed.

Lemma parse_none_iff data :
  Rtp.parse data = None <-> (List.length data < 12)%nat.
Proof.
  split.
  - intros H. destruct (Nat.lt_ge_cases (List.length data) 12) as [Hl|Hl];
      [exact Hl|].
    destruct (parse_total data Hl) as (p & Hp & _). congruence.
  - intros H. unfold Rtp.parse.
    do 12 (destruct data as [|? data]; [reflexivity|]).
    simpl in H. lia.
Qed.

Lemma parse_ranges data p :
  Rtp.parse data = Some p ->
  0 <= Rtp.version p <= 3 /\ 0 <= Rtp.payload_type p <= 127 /\
  0 <= Rtp.sequence p <= 65535 /\ 0 <= Rtp.timestamp p <= 4294967295 /\
  0 <= Rtp.ssrc p <= 4294967295 /\
  List.length data = (12 + List.length (Rtp.audio_data p))%nat.
Proof.
  intros Hp.
  destruct (Nat.lt_ge_cases (List.length data) 12) as [Hl|Hl].
  { apply parse_none_iff in Hl. congruence. }
  destruct (at_least_12 data Hl)
    as (b0 & b1 & b2 & b3 & b4 & b5 & b6 & b7 & b8 & b9 & b10 & b11 & rest & ->).
  injection Hp as <-.
  cbn [Rtp.version Rtp.payload_type Rtp.sequence Rtp.timestamp Rtp.ssrc
       Rtp.audio_data skipn].
  rewrite shiftr6_land3, land_7f.
  pose proof (be_uint_2_range b2 b3).
  pose proof (be_uint_4_range b4 b5 b6 b7).
  pose proof (be_uint_4_range b8 b9 b10 b11).
  pose proof (Z.mod_pos_bound (Rtp.be_uint [b0] / 64) 4 ltac:(lia)).
  pose proof (Z.mod_pos_bound (Rtp.be_uint [b1]) 128 ltac:(lia)).
  repeat split; try lia.
Qed.

(** X12.  The header parser fails (where [struct.unpack] would raise) on
    exactly the datagrams shorter than 12 bytes, a case the length test of
    the loops excludes; on every other datagram it returns a version in
    0..3, a payload type in 0..127, a sequence number in 0..65535, a
    timestamp and an SSRC in 0..4294967295, and a payload 12 bytes shorter
    than the datagram. *)
Theorem X12_parse_ranges :
  forall data : list byte,
    (Rtp.parse data = None <-> (List.length data < 12)%nat) /\
    (forall p,
       Rtp.parse data = Some p ->
       0 <= Rtp.version p <= 3 /\ 0 <= Rtp.payload_type p <= 127 /\
       0 <= Rtp.sequence p <= 65535 /\ 0 <= Rtp.timestamp p <= 4294967295 /\
       0 <= Rtp.ssrc p <= 4294967295 /\
       List.length data = (12 + List.length (Rtp.audio_data p))%nat).
Proof.
  intros data. split; [apply parse_none_iff | apply parse_ranges].
Qed.

(** Twelve bytes [0xFF]: every field at its maximum, no payload. *)
Lemma X12_parse_ranges_witness :
  exists p,
    Rtp.parse [xff; xff; xff; xff; xff; xff; xff; xff; xff; xff; xff; xff]
    = Some p /\
    Rtp.version p = 3 /\ Rtp.sequence p = 65535 /\
    0 <= Rtp.timestamp p <= 4294967295.
Proof.
  eexists. split; [reflexivity|]. split; [reflexivity|].
  split; [reflexivity|].
  destruct (X12_parse_ranges
              [xff; xff; xff; xff; xff; xff; xff; xff; xff; xff; xff; xff])
    as [_ H].
  destruct (H _ eq_refl) as (_ & _ & _ & Ht & _). exact Ht.
Defined.

(** ** Sequence numbers over a run *)

Lemma accepted_sequence_range data s :
  Rtp.accepted_sequence data = Some s -> 0 <= s <= 65535.
Proof.
  unfold Rtp.accepted_sequence.
  destruct (Rtp.passes_validation data); [|discriminate].
  destruct (Rtp.parse data) as [p|] eqn:Hp; [|discriminate].
  intros [= <-]. apply (parse_ranges data p Hp).
Qed.

(** X13.  In every state a fresh receiver of any of the three variants can
    reach, [last_sequence] is either the unset value -1 or a 16-bit
    sequence number: the test [last_sequence != -1] never takes a received
    sequence number for "unset". *)
Theorem X13_last_sequence_range :
  (forall ok t0 evs,
     Trace.sequence_or_unset
       (AudioReceiver.last_sequence
          (AudioReceiver.stats_of
             (flow_state (AudioReceiver.run AudioReceiver.init ok t0 evs))))) /\
  (forall ok evs,
     Trace.sequence_or_unset
       (MinimalAudioReceiver.last_sequence
          (MinimalAudioReceiver.stats_of
             (flow_state
                (MinimalAudioReceiver.run MinimalAudioReceiver.init ok evs)))))
  /\
  (forall ok t0 evs,
     Trace.sequence_or_unset
       (SimpleAudioReceiver.last_sequence
          (SimpleAudioReceiver.stats_of
             (flow_state
                (SimpleAudioReceiver.start (SimpleAudioReceiver.init t0)
                   ok evs))))).
Proof.
  split; [|split].
  - intros ok t0 evs. unfold AudioReceiver.run.
    destruct ok; cbn [AudioReceiver.start fst snd]; [|left; reflexivity].
    pose proof (loop_always AudioReceiver.running AudioReceiver.run_iteration
      (fun a => Trace.sequence_or_unset
                  (AudioReceiver.last_sequence (AudioReceiver.stats_of a))))
      as Hinv.
    specialize (Hinv) with (evs := evs)
      (a := fst (AudioReceiver.start AudioReceiver.init true t0)).
    cbn [AudioReceiver.start fst] in Hinv.
    destruct (loop _ _ _ evs) as [r2|r2];
      cbn [flow_state AudioReceiver.stop AudioReceiver.stats_of] in *;
      apply Hinv; try (left; reflexivity).
    all: intros a ev Ha _;
      destruct (audio_iteration_effect a ev) as (_ & _ & _ & _ & Hl & _);
      cbv zeta in Hl; rewrite Hl;
      destruct ev as [data t w|t| |]; try exact Ha;
      cbn [AudioReceiver.sequence_of];
      destruct (Rtp.accepted_sequence data) as [s|] eqn:Hs; [|exact Ha];
      right; exact (accepted_sequence_range data s Hs).
  - intros ok evs. unfold MinimalAudioReceiver.run.
    destruct ok; cbn [MinimalAudioReceiver.start fst snd];
      [|left; reflexivity].
    pose proof (loop_always MinimalAudioReceiver.running
      MinimalAudioReceiver.run_iteration
      (fun a => Trace.sequence_or_unset
                  (MinimalAudioReceiver.last_sequence
                     (MinimalAudioReceiver.stats_of a)))) as Hinv.
    specialize (Hinv) with (evs := evs)
      (a := fst (MinimalAudioReceiver.start MinimalAudioReceiver.init true)).
    cbn [MinimalAudioReceiver.start fst] in Hinv.
    destruct (loop _ _ _ evs) as [r2|r2];
      cbn [flow_state MinimalAudioReceiver.stop MinimalAudioReceiver.stats_of]
        in *;
      apply Hinv; try (left; reflexivity).
    all: intros a ev Ha _;
      destruct (minimal_iteration_effect a ev) as (_ & _ & _ & Hl);
      cbv zeta in Hl; rewrite Hl;
      destruct ev as [data w ok| | |]; try exact Ha;
      cbn [MinimalAudioReceiver.sequence_of];
      destruct (Rtp.accepted_sequence data) as [s|] eqn:Hs; [|exact Ha];
      right; exact (accepted_sequence_range data s Hs).
  - intros ok t0 evs. unfold SimpleAudioReceiver.start.
    destruct ok; [|left; reflexivity].
    apply (loop_always SimpleAudioReceiver.running
             SimpleAudioReceiver.run_iteration
      (fun a => Trace.sequence_or_unset
                  (SimpleAudioReceiver.last_sequence
                     (SimpleAudioReceiver.stats_of a))));
      [|left; reflexivity].
    intros a ev Ha _.
    pose proof (simple_iteration_effect a ev) as H. cbv zeta in H.
    destruct (SimpleAudioReceiver.run_iteration a ev) as [r'|r'];
      cbn [flow_state]; [|rewrite H; exact Ha].
    destruct H as (_ & _ & _ & Hl). rewrite Hl.
    destruct ev as [data sender port now w ok|now| |]; try exact Ha.
    cbn [SimpleAudioReceiver.sequence_of].
    destruct (Rtp.accepted_sequence data) as [s|] eqn:Hs; [|exact Ha].
    right. exact (accepted_sequence_range data s Hs).
Qed.

Lemma track_in_order s0 n :
  forall k e l,
    l = -1 \/ l = (s0 + Z.of_nat k - 1) mod 65536 ->
    fst (fold_left Rtp.track
           (map (fun i => (s0 + Z.of_nat i) mod 65536) (seq k n)) (e, l)) = e.
Proof.
  induction n as [|n IH]; intros k e l Hl; [reflexivity|].
  cbn [seq map fold_left]. unfold Rtp.track at 2. cbn [fst snd].
  rewrite observe_snd.
  assert (H0 : fst (Rtp.observe l ((s0 + Z.of_nat k) mod 65536)) = 0).
  { destruct Hl as [->| ->]; [apply observe_unset|].
    apply observe_expected.
    rewrite Z.add_mod_idemp_l by lia. f_equal. lia. }
  rewrite H0, Z.add_0_r.
  apply IH. right. f_equal. lia.
Qed.

Lemma track_increasing rest :
  forall e s,
    0 <= s -> Trace.increasing s rest ->
    fold_left Rtp.track rest (e, s)
    = (e + (last rest s - s) - Z.of_nat (List.length rest), last rest s).
Proof.
  induction rest as [|s' rest IH]; intros e s Hs Hinc.
  - simpl. f_equal. lia.
  - destruct Hinc as [Hlt Hinc].
    cbn [fold_left]. unfold Rtp.track at 2. cbn [fst snd].
    rewrite observe_snd.
    assert (Ho : fst (Rtp.observe s s') = s' - s - 1).
    { destruct (Z.eq_dec s' (s + 1)) as [->|Hne].
      - rewrite observe_expected; [lia|]. rewrite Z.mod_small; lia.
      - rewrite observe_gap; [|lia|rewrite Z.mod_small; lia].
        rewrite (Z.mod_small (s + 1)) by lia. rewrite Z.mod_small; lia. }
    rewrite Ho, (IH _ s' ltac:(lia) Hinc).
    assert (Hlast : last (s' :: rest) s = last rest s').
    { destruct rest as [|z rest']; [reflexivity|].
      apply (last_nonempty_default rest' z). }
    rewrite Hlast. f_equal. cbn [List.length]. lia.
Qed.

Lemma track_shift l :
  forall e c s,
    fold_left Rtp.track l (e + c, s)
    = (fst (fold_left Rtp.track l (e, s)) + c,
       snd (fold_left Rtp.track l (e, s))).
Proof.
  induction l as [|x l IH]; intros e c s; [reflexivity|].
  cbn [fold_left]. unfold Rtp.track at 2 4 6. cbn [fst snd].
  replace (e + c + fst (Rtp.observe s x))
    with (e + fst (Rtp.observe s x) + c) by lia.
  apply IH.
Qed.

Lemma track_pair (e s q : Z) :
  Rtp.track (e, s) q = (e + fst (Rtp.observe s q), q).
Proof. reflexivity. Qed.

Lemma sum_cons (x : Z) (l : list Z) : Trace.sum (x :: l) = x + Trace.sum l.
Proof. reflexivity. Qed.

Lemma audio_sequences_cons ev evs :
  Trace.audio_sequences (ev :: evs)
  = match AudioReceiver.sequence_of ev with
    | Some seq => seq :: Trace.audio_sequences evs
    | None => Trace.audio_sequences evs
    end.
Proof.
  unfold Trace.audio_sequences. cbn [flat_map].
  destruct (AudioReceiver.sequence_of ev); reflexivity.
Qed.

Lemma minimal_sequences_cons ev evs :
  Trace.minimal_sequences (ev :: evs)
  = match MinimalAudioReceiver.sequence_of ev with
    | Some seq => seq :: Trace.minimal_sequences evs
    | None => Trace.minimal_sequences evs
    end.
Proof.
  unfold Trace.minimal_sequences. cbn [flat_map].
  destruct (MinimalAudioReceiver.sequence_of ev); reflexivity.
Qed.

(** Over any events but the interrupt, the loop of AudioReceiver goes on,
    [last_sequence] follows the sequence numbers of the accepted
    datagrams, and [errors] is what the tracker counts on them plus one
    for each socket error. *)
Lemma audio_loop_tracked evs :
  forall r,
    AudioReceiver.running r = true ->
    Forall AudioReceiver.not_interrupt evs ->
    exists r',
      loop AudioReceiver.running AudioReceiver.run_iteration r evs = Next r' /\
      AudioReceiver.running r' = true /\
      AudioReceiver.errors (AudioReceiver.stats_of r')
      = fst (fold_left Rtp.track (Trace.audio_sequences evs)
               (AudioReceiver.errors (AudioReceiver.stats_of r),
                AudioReceiver.last_sequence (AudioReceiver.stats_of r)))
        + Trace.sum (map Trace.audio_socket_error evs) /\
      AudioReceiver.last_sequence (AudioReceiver.stats_of r')
      = snd (fold_left Rtp.track (Trace.audio_sequences evs)
               (AudioReceiver.errors (AudioReceiver.stats_of r),
                AudioReceiver.last_sequence (AudioReceiver.stats_of r))).
Proof.
  induction evs as [|ev evs IH]; intros r Hr HQ.
  - exists r. simpl. repeat split; [exact Hr | lia].
  - inversion HQ as [|? ? Hev Hevs]; subst.
    destruct (audio_iteration_next r ev Hev) as (r1 & E & Hr1).
    destruct (IH r1 ltac:(congruence) Hevs) as (r' & El & Hr' & He & Hl).
    exists r'. cbn [loop]. rewrite Hr, E.
    split; [exact El|]. split; [exact Hr'|].
    pose proof (audio_iteration_effect r ev) as Heff. cbv zeta in Heff.
    rewrite E in Heff. cbn [flow_state] in Heff.
    destruct Heff as (_ & _ & _ & He1 & Hl1 & _).
    rewrite He, Hl, He1, Hl1.
    rewrite (audio_sequences_cons ev evs). cbn [map]. rewrite sum_cons.
    destruct (AudioReceiver.sequence_of ev) as [q|]; cbn [fold_left map].
    + rewrite track_pair.
      replace (AudioReceiver.errors (AudioReceiver.stats_of r)
               + Trace.audio_socket_error ev
               + fst (Rtp.observe
                        (AudioReceiver.last_sequence (AudioReceiver.stats_of r)) q))
        with (AudioReceiver.errors (AudioReceiver.stats_of r)
              + fst (Rtp.observe
                       (AudioReceiver.last_sequence (AudioReceiver.stats_of r)) q)
              + Trace.audio_socket_error ev) by lia.
      rewrite !(track_shift (Trace.audio_sequences evs)
                  (AudioReceiver.errors (AudioReceiver.stats_of r)
                   + fst (Rtp.observe
                            (AudioReceiver.last_sequence (AudioReceiver.stats_of r)) q))
                  (Trace.audio_socket_error ev) q).
      cbn [fst snd]. split; [lia | reflexivity].
    + rewrite Z.add_0_r.
      rewrite !(track_shift (Trace.audio_sequences evs)).
      cbn [fst snd]. split; [lia | reflexivity].
Qed.

Lemma minimal_loop_tracked evs :
  forall r,
    MinimalAudioReceiver.running r = true ->
    Forall MinimalAudioReceiver.not_interrupt evs ->
    exists r',
      loop MinimalAudioReceiver.running MinimalAudioReceiver.run_iteration
        r evs = Next r' /\
      MinimalAudioReceiver.running r' = true /\
      MinimalAudioReceiver.errors (MinimalAudioReceiver.stats_of r')
      = fst (fold_left Rtp.track (Trace.minimal_sequences evs)
               (MinimalAudioReceiver.errors (MinimalAudioReceiver.stats_of r),
                MinimalAudioReceiver.last_sequence
                  (MinimalAudioReceiver.stats_of r)))
        + Trace.sum (map Trace.minimal_socket_error evs) /\
      MinimalAudioReceiver.last_sequence (MinimalAudioReceiver.stats_of r')
      = snd (fold_left Rtp.track (Trace.minimal_sequences evs)
               (MinimalAudioReceiver.errors (MinimalAudioReceiver.stats_of r),
                MinimalAudioReceiver.last_sequence
                  (MinimalAudioReceiver.stats_of r))).
Proof.
  induction evs as [|ev evs IH]; intros r Hr HQ.
  - exists r. simpl. repeat split; [exact Hr | lia].
  - inversion HQ as [|? ? Hev Hevs]; subst.
    destruct (minimal_iteration_next r ev Hev) as (r1 & E & Hr1).
    destruct (IH r1 ltac:(congruence) Hevs) as (r' & El & Hr' & He & Hl).
    exists r'. cbn [loop]. rewrite Hr, E.
    split; [exact El|]. split; [exact Hr'|].
    pose proof (minimal_iteration_effect r ev) as Heff. cbv zeta in Heff.
    rewrite E in Heff. cbn [flow_state] in Heff.
    destruct Heff as (_ & _ & He1 & Hl1).
    rewrite He, Hl, He1, Hl1.
    rewrite (minimal_sequences_cons ev evs). cbn [map]. rewrite sum_cons.
    destruct (MinimalAudioReceiver.sequence_of ev) as [q|]; cbn [fold_left map].
    + rewrite track_pair.
      replace (MinimalAudioReceiver.errors (MinimalAudioReceiver.stats_of r)
               + Trace.minimal_socket_error ev
               + fst (Rtp.observe
                        (MinimalAudioReceiver.last_sequence (MinimalAudioReceiver.stats_of r)) q))
        with (MinimalAudioReceiver.errors (MinimalAudioReceiver.stats_of r)
              + fst (Rtp.observe
                       (MinimalAudioReceiver.last_sequence (MinimalAudioReceiver.stats_of r)) q)
              + Trace.minimal_socket_error ev) by lia.
      rewrite !(track_shift (Trace.minimal_sequences evs)
                  (MinimalAudioReceiver.errors (MinimalAudioReceiver.stats_of r)
                   + fst (Rtp.observe
                            (MinimalAudioReceiver.last_sequence (MinimalAudioReceiver.stats_of r)) q))
                  (Trace.minimal_socket_error ev) q).
      cbn [fst snd]. split; [lia | reflexivity].
    + rewrite Z.add_0_r.
      rewrite !(track_shift (Trace.minimal_sequences evs)).
      cbn [fst snd]. split; [lia | reflexivity].
Qed.

(** X14.  A stream in sequence counts no drops.  Take any run of a freshly
    started AudioReceiver or MinimalAudioReceiver up to an interrupt:
    datagrams that pass header validation, rejected datagrams, receive
    timeouts and socket errors in any order, with any payloads and sink
    outcomes.  When the sequence numbers of the datagrams that pass
    validation, in arrival order, are consecutive from any first number on,
    wrapping from 65535 to 0 any number of times, the loop is still
    iterating at the end and [errors] is exactly the number of socket
    errors met: 0 when there is none. *)
Theorem X14_in_order_stream_counts_no_drops :
  (forall t0 s0 n evs,
     Forall AudioReceiver.not_interrupt evs ->
     Trace.audio_sequences evs = Trace.in_order s0 n ->
     exists r',
       AudioReceiver.run AudioReceiver.init true t0 evs = Next r' /\
       AudioReceiver.errors (AudioReceiver.stats_of r')
       = Trace.sum (map Trace.audio_socket_error evs)) /\
  (forall s0 n evs,
     Forall MinimalAudioReceiver.not_interrupt evs ->
     Trace.minimal_sequences evs = Trace.in_order s0 n ->
     exists r',
       MinimalAudioReceiver.run MinimalAudioReceiver.init true evs = Next r' /\
       MinimalAudioReceiver.errors (MinimalAudioReceiver.stats_of r')
       = Trace.sum (map Trace.minimal_socket_error evs)).
Proof.
  split.
  - intros t0 s0 n evs HQ Hm. unfold AudioReceiver.run.
    cbn [AudioReceiver.start fst snd].
    destruct (audio_loop_tracked evs
                (fst (AudioReceiver.start AudioReceiver.init true t0))
                eq_refl HQ) as (r' & El & _ & He & _).
    cbn [AudioReceiver.start fst] in El. rewrite El.
    exists r'. split; [reflexivity|].
    rewrite He, Hm.
    cbn [AudioReceiver.start fst AudioReceiver.stats_of AudioReceiver.init
         AudioReceiver.errors AudioReceiver.last_sequence].
    unfold Trace.in_order.
    rewrite (track_in_order s0 n 0 0 (-1)); [lia | left; reflexivity].
  - intros s0 n evs HQ Hm. unfold MinimalAudioReceiver.run.
    cbn [MinimalAudioReceiver.start fst snd].
    destruct (minimal_loop_tracked evs
                (fst (MinimalAudioReceiver.start MinimalAudioReceiver.init
                        true))
                eq_refl HQ) as (r' & El & _ & He & _).
    cbn [MinimalAudioReceiver.start fst] in El. rewrite El.
    exists r'. split; [reflexivity|].
    rewrite He, Hm.
    cbn [MinimalAudioReceiver.start fst MinimalAudioReceiver.stats_of
         MinimalAudioReceiver.init MinimalAudioReceiver.errors
         MinimalAudioReceiver.last_sequence].
    unfold Trace.in_order.
    rewrite (track_in_order s0 n 0 0 (-1)); [lia | left; reflexivity].
Qed.

(** MinimalAudioReceiver across the wrap, with a timeout, a datagram of
    version 1 and a datagram of 3 bytes in between: sequence numbers 65534,
    65535, 0, 1 and no error counted. *)
Lemma X14_in_order_stream_counts_no_drops_witness :
  Trace.minimal_sequences
    [MinimalAudioReceiver.Received (Rtp.datagram 65534 [x00]) PipeWritten true;
     MinimalAudioReceiver.SocketTimeout;
     MinimalAudioReceiver.Received (Rtp.datagram 65535 [x00]) OtherOSError
       true;
     MinimalAudioReceiver.Received
       [x40; x00; x00; x09; x00; x00; x00; x00; x00; x00; x00; x00; x07]
       PipeWritten true;
     MinimalAudioReceiver.Received (Rtp.datagram 0 []) PipeWritten true;
     MinimalAudioReceiver.Received [x80; x00; x07] PipeWritten true;
     MinimalAudioReceiver.Received (Rtp.datagram 1 [x00]) PipeWritten true]
  = Trace.in_order 65534 4 /\
  exists r',
    MinimalAudioReceiver.run MinimalAudioReceiver.init true
      [MinimalAudioReceiver.Received (Rtp.datagram 65534 [x00]) PipeWritten
         true;
       MinimalAudioReceiver.SocketTimeout;
       MinimalAudioReceiver.Received (Rtp.datagram 65535 [x00]) OtherOSError
         true;
       MinimalAudioReceiver.Received
         [x40; x00; x00; x09; x00; x00; x00; x00; x00; x00; x00; x00; x07]
         PipeWritten true;
       MinimalAudioReceiver.Received (Rtp.datagram 0 []) PipeWritten true;
       MinimalAudioReceiver.Received [x80; x00; x07] PipeWritten true;
       MinimalAudioReceiver.Received (Rtp.datagram 1 [x00]) PipeWritten true]
    = Next r' /\
    MinimalAudioReceiver.errors (MinimalAudioReceiver.stats_of r') = 0.
Proof.
  split; [vm_compute; reflexivity|].
  destruct X14_in_order_stream_counts_no_drops as [_ H].
  apply (H 65534 4%nat); [repeat constructor | vm_compute; reflexivity].
Defined.

(** X15.  Without reordering and without wrap the drop count is exact.
    Take any run of a freshly started AudioReceiver or MinimalAudioReceiver
    up to an interrupt, as in X14.  When the sequence numbers of the
    datagrams that pass validation strictly increase from a first number
    [s1], [last_sequence] ends as the last of them and [errors] as the
    number of sequence numbers between [s1] and the last one that never
    arrived, last - s1 + 1 less the number of accepted packets, plus one
    for each socket error met. *)
Theorem X15_increasing_stream_counts_missing :
  (forall t0 s1 rest evs,
     0 <= s1 -> Trace.increasing s1 rest ->
     Forall AudioReceiver.not_interrupt evs ->
     Trace.audio_sequences evs = s1 :: rest ->
     exists r',
       AudioReceiver.run AudioReceiver.init true t0 evs = Next r' /\
       AudioReceiver.errors (AudioReceiver.stats_of r')
       = last rest s1 - s1 + 1 - Z.of_nat (List.length (s1 :: rest))
         + Trace.sum (map Trace.audio_socket_error evs) /\
       AudioReceiver.last_sequence (AudioReceiver.stats_of r')
       = last rest s1) /\
  (forall s1 rest evs,
     0 <= s1 -> Trace.increasing s1 rest ->
     Forall MinimalAudioReceiver.not_interrupt evs ->
     Trace.minimal_sequences evs = s1 :: rest ->
     exists r',
       MinimalAudioReceiver.run MinimalAudioReceiver.init true evs = Next r' /\
       MinimalAudioReceiver.errors (MinimalAudioReceiver.stats_of r')
       = last rest s1 - s1 + 1 - Z.of_nat (List.length (s1 :: rest))
         + Trace.sum (map Trace.minimal_socket_error evs) /\
       MinimalAudioReceiver.last_sequence (MinimalAudioReceiver.stats_of r')
       = last rest s1).
Proof.
  split.
  - intros t0 s1 rest evs Hs Hinc HQ Hm. unfold AudioReceiver.run.
    cbn [AudioReceiver.start fst snd].
    destruct (audio_loop_tracked evs
                (fst (AudioReceiver.start AudioReceiver.init true t0))
                eq_refl HQ) as (r' & El & _ & He & Hl).
    cbn [AudioReceiver.start fst] in El. rewrite El.
    exists r'. split; [reflexivity|].
    rewrite He, Hl, Hm.
    cbn [fold_left AudioReceiver.start fst AudioReceiver.stats_of
         AudioReceiver.init AudioReceiver.errors AudioReceiver.last_sequence].
    change (Rtp.track (0, -1) s1) with (0, s1).
    rewrite (track_increasing rest 0 s1 Hs Hinc). cbn [fst snd List.length].
    split; [lia | reflexivity].
  - intros s1 rest evs Hs Hinc HQ Hm. unfold MinimalAudioReceiver.run.
    cbn [MinimalAudioReceiver.start fst snd].
    destruct (minimal_loop_tracked evs
                (fst (MinimalAudioReceiver.start MinimalAudioReceiver.init
                        true))
                eq_refl HQ) as (r' & El & _ & He & Hl).
    cbn [MinimalAudioReceiver.start fst] in El. rewrite El.
    exists r'. split; [reflexivity|].
    rewrite He, Hl, Hm.
    cbn [fold_left MinimalAudioReceiver.start fst
         MinimalAudioReceiver.stats_of MinimalAudioReceiver.init
         MinimalAudioReceiver.errors MinimalAudioReceiver.last_sequence].
    change (Rtp.track (0, -1) s1) with (0, s1).
    rewrite (track_increasing rest 0 s1 Hs Hinc). cbn [fst snd List.length].
    split; [lia | reflexivity].
Qed.

(** AudioReceiver receives the sequence numbers 10, 11, 14, 20 with a
    timeout, a socket error and a datagram of version 1 in between: of the
    eleven numbers 10..20 four arrived, seven are counted as dropped, and
    the socket error makes 8. *)
Lemma X15_increasing_stream_counts_missing_witness :
  Trace.increasing 10 [11; 14; 20] /\
  exists r',
    AudioReceiver.run AudioReceiver.init true 100
      [AudioReceiver.Received (Rtp.datagram 10 [x00]) 101
         AudioReceiver.Written;
       AudioReceiver.SocketTimeout 102;
       AudioReceiver.Received (Rtp.datagram 11 [x00]) 103
         AudioReceiver.ALSAAudioError;
       AudioReceiver.SocketError;
       AudioReceiver.Received
         [x40; x00; x00; x0c; x00; x00; x00; x00; x00; x00; x00; x00; x07]
         104 AudioReceiver.Written;
       AudioReceiver.Received (Rtp.datagram 14 []) 105 AudioReceiver.Written;
       AudioReceiver.Received (Rtp.datagram 20 [x00]) 106
         AudioReceiver.Written] = Next r' /\
    AudioReceiver.errors (AudioReceiver.stats_of r') = 20 - 10 + 1 - 4 + 1 /\
    AudioReceiver.last_sequence (AudioReceiver.stats_of r') = 20.
Proof.
  assert (Hi : Trace.increasing 10 [11; 14; 20]) by (simpl; lia).
  split; [exact Hi|].
  destruct X15_increasing_stream_counts_missing as [H _].
  apply (H 100 10 [11; 14; 20]);
    [lia | exact Hi | repeat constructor | vm_compute; reflexivity].
Defined.

(** ** The connection monitor over time *)

Lemma audio_quiet_loop evs :
  forall r r',
    Forall AudioReceiver.not_received evs ->
    loop AudioReceiver.running AudioReceiver.run_iteration r evs = Next r' ->
    AudioReceiver.running r' = AudioReceiver.running r /\
    AudioReceiver.last_packet_time (AudioReceiver.stats_of r')
    = AudioReceiver.last_packet_time (AudioReceiver.stats_of r) /\
    AudioReceiver.stream_start_time (AudioReceiver.stats_of r')
    = AudioReceiver.stream_start_time (AudioReceiver.stats_of r).
Proof.
  induction evs as [|ev evs IH]; intros r r' HQ Hl; simpl in Hl.
  - injection Hl as <-. repeat split.
  - inversion HQ as [|? ? Hev Hevs]; subst.
    destruct (AudioReceiver.running r) eqn:Hr; [|discriminate].
    pose proof (audio_iteration_running r ev) as H1.
    pose proof (audio_quiet_last_packet_time r ev Hev) as H2.
    pose proof (audio_stream_start_time r ev) as H3.
    destruct (AudioReceiver.run_iteration r ev) as [r1|r1]; [|discriminate].
    simpl in H1, H2, H3.
    destruct (IH r1 r' Hevs Hl) as (Ha & Hb & Hc).
    rewrite Ha, Hb, Hc, H1, H2, H3, Hr. repeat split.
Qed.

Lemma status_monotone r now1 now2 :
  now1 <= now2 ->
  Trace.staleness (AudioReceiver.get_connection_status r now1)
  <= Trace.staleness (AudioReceiver.get_connection_status r now2).
Proof.
  intros H. unfold AudioReceiver.get_connection_status.
  destruct (negb _); [simpl; lia|].
  destruct (_ =? 0); [simpl; lia|].
  destruct (Z.ltb_spec
    (now1 - AudioReceiver.last_packet_time (AudioReceiver.stats_of r)) 2);
  destruct (Z.ltb_spec
    (now2 - AudioReceiver.last_packet_time (AudioReceiver.stats_of r)) 2);
  destruct (Z.ltb_spec
    (now1 - AudioReceiver.last_packet_time (AudioReceiver.stats_of r)) 10);
  destruct (Z.ltb_spec
    (now2 - AudioReceiver.last_packet_time (AudioReceiver.stats_of r)) 10);
  simpl; lia.
Qed.

(** X16.  Without a datagram the connection status of AudioReceiver never
    improves.  If the loop meets only timeouts and socket errors between
    two readings of the status, the later reading is no better than the
    earlier one in the order GOOD, SLOW, DISCONNECTED, and a receiver that
    was WAITING is still WAITING. *)
Theorem X16_status_only_degrades :
  forall evs r r' now1 now2,
    Forall AudioReceiver.not_received evs ->
    loop AudioReceiver.running AudioReceiver.run_iteration r evs = Next r' ->
    now1 <= now2 ->
    Trace.staleness (AudioReceiver.get_connection_status r now1)
    <= Trace.staleness (AudioReceiver.get_connection_status r' now2) /\
    (AudioReceiver.get_connection_status r now1 = AudioReceiver.WAITING ->
     AudioReceiver.get_connection_status r' now2 = AudioReceiver.WAITING).
Proof.
  intros evs r r' now1 now2 HQ Hl Hle.
  destruct (audio_quiet_loop evs r r' HQ Hl) as (Hr & Ht & _).
  assert (E : forall now, AudioReceiver.get_connection_status r' now
                          = AudioReceiver.get_connection_status r now).
  { intros now. unfold AudioReceiver.get_connection_status.
    rewrite Hr, Ht. reflexivity. }
  rewrite E. split; [apply status_monotone; exact Hle|].
  unfold AudioReceiver.get_connection_status.
  destruct (negb _); [discriminate|].
  destruct (_ =? 0); [reflexivity|].
  destruct (_ <? 2); [discriminate|]. destruct (_ <? 10); discriminate.
Qed.

(** SLOW at second 1005 after a packet at second 1000; two timeouts and a
    socket error later, at second 1012, DISCONNECTED. *)
Lemma X16_status_only_degrades_witness :
  exists r',
    loop AudioReceiver.running AudioReceiver.run_iteration
      (AudioReceiver.set_last_packet_time
         (fst (AudioReceiver.start AudioReceiver.init true 990)) 1000)
      [AudioReceiver.SocketTimeout 1006; AudioReceiver.SocketError;
       AudioReceiver.SocketTimeout 1011] = Next r' /\
    Trace.staleness
      (AudioReceiver.get_connection_status
         (AudioReceiver.set_last_packet_time
            (fst (AudioReceiver.start AudioReceiver.init true 990)) 1000)
         1005)
    <= Trace.staleness (AudioReceiver.get_connection_status r' 1012).
Proof.
  match goal with
  | |- exists r', ?l = Next r' /\ _ =>
      assert (E : l = Next (flow_state l)) by (vm_compute; reflexivity);
      exists (flow_state l)
  end.
  split; [exact E|].
  apply (X16_status_only_degrades _ _ _ 1005 1012
           ltac:(repeat constructor) E ltac:(lia)).
Defined.

(** X17.  A receiver that never got a datagram warns with the clock
    itself.  AudioReceiver, started at second [t0] and having met only
    timeouts and socket errors, on a receive timeout at a clock reading
    [now] at least 10 seconds after [t0] (and above 15) prints "No data
    received for [now] seconds": [last_packet_time] is still 0, so the
    time since the last packet is the whole clock reading, not the time
    since the start. *)
Theorem X17_never_received_warns_with_clock :
  forall t0 evs r now,
    Forall AudioReceiver.not_received evs ->
    AudioReceiver.run AudioReceiver.init true t0 evs = Next r ->
    10 <= now - t0 -> 15 < now ->
    exists r',
      AudioReceiver.run_iteration r (AudioReceiver.SocketTimeout now)
      = Next r' /\
      In (AudioReceiver.NoDataReceived now) (AudioReceiver.console r') /\
      AudioReceiver.stats_of r' = AudioReceiver.stats_of r.
Proof.
  intros t0 evs r now HQ Hrun H10 H15.
  unfold AudioReceiver.run in Hrun. cbn [AudioReceiver.start fst snd] in Hrun.
  destruct (loop _ _ _ evs) as [r2|r2] eqn:Hl; [|discriminate].
  injection Hrun as ->.
  destruct (audio_quiet_loop evs _ r HQ Hl) as (Hr & Ht & Hs).
  cbn in Hr, Ht, Hs.
  eexists. split; [reflexivity|].
  split; [|apply audio_health_stats].
  unfold AudioReceiver.check_connection_health.
  rewrite Hr, Ht, Hs. cbn [negb].
  destruct (Z.ltb_spec (now - t0) 10) as [Hlt|_]; [lia|].
  rewrite Z.sub_0_r.
  destruct (Z.ltb_spec 15 now) as [_|Hge]; [|lia].
  destruct (_ && _); simpl; auto.
Qed.

(** Started at second 1700000000, a timeout 12 seconds later: "No data
    received for 1700000012 seconds". *)
Lemma X17_never_received_warns_with_clock_witness :
  exists r r',
    AudioReceiver.run AudioReceiver.init true 1700000000
      [AudioReceiver.SocketTimeout 1700000001] = Next r /\
    AudioReceiver.run_iteration r (AudioReceiver.SocketTimeout 1700000012)
    = Next r' /\
    In (AudioReceiver.NoDataReceived 1700000012) (AudioReceiver.console r').
Proof.
  match goal with
  | |- exists r r', ?l = Next r /\ _ =>
      assert (E : l = Next (flow_state l)) by (vm_compute; reflexivity);
      exists (flow_state l)
  end.
  destruct (X17_never_received_warns_with_clock 1700000000 _ _ 1700000012
              ltac:(repeat constructor) E ltac:(lia) ltac:(lia))
    as (r' & Hn & Hin & _).
  exists r'. split; [exact E|]. split; [exact Hn | exact Hin].
Defined.

(** ** How the loops are left *)

Lemma simple_iteration_flags r ev :
  let r' := flow_state (SimpleAudioReceiver.run_iteration r ev) in
  SimpleAudioReceiver.running r' = SimpleAudioReceiver.running r /\
  SimpleAudioReceiver.socket r' = SimpleAudioReceiver.socket r.
Proof.
  cbv zeta.
  destruct ev as [data sender port now w ok|now| |]; try (split; reflexivity).
  - simpl. received_cases data ltac:(split; reflexivity).
    assert (Hd : forall r1,
      SimpleAudioReceiver.running
        (SimpleAudioReceiver.detect_connection r1 sender now)
      = SimpleAudioReceiver.running r1 /\
      SimpleAudioReceiver.socket
        (SimpleAudioReceiver.detect_connection r1 sender now)
      = SimpleAudioReceiver.socket r1).
    { intros r1. unfold SimpleAudioReceiver.detect_connection.
      destruct (negb _); [split; reflexivity|].
      destruct (negb _); split; reflexivity. }
    destruct (_ && _); [|simpl; apply Hd].
    assert (Hw :
      SimpleAudioReceiver.running
        (flow_state
           (SimpleAudioReceiver.stdin_write r (Rtp.audio_data p) w ok))
      = SimpleAudioReceiver.running r /\
      SimpleAudioReceiver.socket
        (flow_state
           (SimpleAudioReceiver.stdin_write r (Rtp.audio_data p) w ok))
      = SimpleAudioReceiver.socket r).
    { destruct w; simpl; try (split; reflexivity).
      unfold SimpleAudioReceiver.start_aplay, SimpleAudioReceiver.stop_aplay.
      simpl. destruct (SimpleAudioReceiver.aplay_process r), ok;
        split; reflexivity. }
    destruct (SimpleAudioReceiver.stdin_write _ _ _ _) as [r1|r1];
      simpl in Hw |- *; [|exact Hw].
    destruct (Hd r1) as [H1 H2]. destruct Hw as [H3 H4].
    split; congruence.
  - simpl. unfold SimpleAudioReceiver.on_timeout.
    destruct (_ && _); [destruct (Qlt_bool 5 _)|]; split; reflexivity.
Qed.

(** X18.  The loops are left in different states.  When [run] of
    AudioReceiver or MinimalAudioReceiver returns after a successful start,
    the receiver is stopped: the running flag is cleared and the socket and
    the sink are released (the [finally] clause).  When the loop of
    SimpleAudioReceiver is left, by an interrupt or by the [break] after a
    failed restart of aplay, the receiver is still flagged running and its
    socket is still held: only [stop] clears them, closing the socket and
    ending aplay while keeping the statistics; and after that [break] there
    is no aplay process. *)
Theorem X18_state_after_the_loop :
  (forall r t0 evs r',
     AudioReceiver.run r true t0 evs = Break r' ->
     AudioReceiver.running r' = false /\ AudioReceiver.socket r' = false /\
     AudioReceiver.pcm r' = false /\
     forall now,
       AudioReceiver.get_connection_status r' now = AudioReceiver.STOPPED) /\
  (forall r evs r',
     MinimalAudioReceiver.run r true evs = Break r' ->
     MinimalAudioReceiver.running r' = false /\
     MinimalAudioReceiver.socket r' = false /\
     MinimalAudioReceiver.aplay_process r' = false) /\
  (forall r evs r',
     SimpleAudioReceiver.start r true evs = Break r' ->
     SimpleAudioReceiver.running r' = true /\
     SimpleAudioReceiver.socket r' = true /\
     SimpleAudioReceiver.running (SimpleAudioReceiver.stop r') = false /\
     SimpleAudioReceiver.socket (SimpleAudioReceiver.stop r') = false /\
     SimpleAudioReceiver.aplay_process (SimpleAudioReceiver.stop r') = false /\
     SimpleAudioReceiver.stats_of (SimpleAudioReceiver.stop r')
     = SimpleAudioReceiver.stats_of r')
  /\
  (forall r ev r',
     SimpleAudioReceiver.run_iteration r ev = Break r' ->
     SimpleAudioReceiver.restart_fails ev ->
     SimpleAudioReceiver.aplay_process r' = false).
Proof.
  split; [|split; [|split]].
  - intros r t0 evs r' H. unfold AudioReceiver.run in H.
    cbn [AudioReceiver.start fst snd] in H.
    destruct (loop _ _ _ evs) as [r2|r2]; [discriminate|].
    injection H as <-. repeat split.
  - intros r evs r' H. unfold MinimalAudioReceiver.run in H.
    cbn [MinimalAudioReceiver.start fst snd] in H.
    destruct (loop _ _ _ evs) as [r2|r2]; [discriminate|].
    injection H as <-. repeat split.
  - intros r evs r' H. unfold SimpleAudioReceiver.start in H.
    pose proof (loop_always SimpleAudioReceiver.running
      SimpleAudioReceiver.run_iteration
      (fun a => SimpleAudioReceiver.running a = true /\
                SimpleAudioReceiver.socket a = true)) as Hinv.
    match type of H with
    | loop _ _ ?r0 evs = _ => specialize (Hinv) with (evs := evs) (a := r0)
    end.
    rewrite H in Hinv. cbn [flow_state] in Hinv.
    destruct Hinv as [Hr Hs].
    + intros a ev [Ha Hb] _.
      destruct (simple_iteration_flags a ev) as [H1 H2]. split; congruence.
    + split; reflexivity.
    + split; [exact Hr|]. split; [exact Hs|].
      unfold SimpleAudioReceiver.stop, SimpleAudioReceiver.stop_aplay.
      destruct (SimpleAudioReceiver.aplay_process r') eqn:Hap;
        cbn [SimpleAudioReceiver.running SimpleAudioReceiver.socket
             SimpleAudioReceiver.aplay_process SimpleAudioReceiver.stats_of
             SimpleAudioReceiver.with_aplay];
        repeat split; exact Hap.
  - intros r ev r' Hb Hf.
    destruct ev as [data sender port now w ok|now| |]; try contradiction.
    destruct w; try contradiction. destruct ok; [contradiction|].
    simpl in Hb. revert Hb.
    received_cases data ltac:(discriminate).
    destruct (_ && _); [|discriminate].
    unfold SimpleAudioReceiver.stdin_write, SimpleAudioReceiver.start_aplay,
      SimpleAudioReceiver.stop_aplay. simpl.
    destruct (SimpleAudioReceiver.aplay_process r) eqn:Hap;
      intros [= <-]; simpl; first [reflexivity | exact Hap].
Qed.

(** SimpleAudioReceiver after a broken pipe and a failed restart, and
    after [stop]. *)
Lemma X18_state_after_the_loop_witness :
  exists r',
    SimpleAudioReceiver.start (SimpleAudioReceiver.init 0) true
      [SimpleAudioReceiver.Received (Rtp.datagram 0 [x01]) "10.0.0.2" 5004 1
         BrokenPipeError false] = Break r' /\
    SimpleAudioReceiver.running r' = true /\
    SimpleAudioReceiver.socket r' = true /\
    SimpleAudioReceiver.running (SimpleAudioReceiver.stop r') = false /\
    SimpleAudioReceiver.socket (SimpleAudioReceiver.stop r') = false.
Proof.
  match goal with
  | |- exists r', ?l = Break r' /\ _ =>
      assert (E : l = Break (flow_state l)) by (vm_compute; reflexivity);
      exists (flow_state l)
  end.
  split; [exact E|].
  destruct X18_state_after_the_loop as (_ & _ & H & _).
  destruct (H _ _ _ E) as (Hr & Hs & Hr' & Hs' & _).
  split; [exact Hr|]. split; [exact Hs|]. split; [exact Hr' | exact Hs'].
Defined.

(** ** Reordering *)

Lemma observe_ahead l k :
  0 <= l < 65536 -> 0 < k < 65536 ->
  fst (Rtp.observe l ((l + 1 + k) mod 65536)) = k.
Proof.
  intros Hl Hk.
  assert (Hne : (l + 1 + k) mod 65536 <> (l + 1) mod 65536).
  { Z.to_euclidean_division_equations. lia. }
  rewrite observe_gap; [|lia|exact Hne].
  rewrite Zminus_mod_idemp_l, Zminus_mod_idemp_r.
  replace (l + 1 + k - (l + 1)) with k by lia.
  apply Z.mod_small. lia.
Qed.

(** X19.  One reordering costs 65536.  In AudioReceiver and
    MinimalAudioReceiver a datagram whose sequence number is [k] ahead of
    the expected one adds [k] to [errors], and one that is [k] behind adds
    [65536 - k]; so when two neighbouring packets swap places (s, s+2, s+1,
    s+3 instead of s, s+1, s+2, s+3, modulo 65536) a fresh receiver ends
    with [errors = 65536] although no packet was lost. *)
Theorem X19_swapped_pair_counts_65536 :
  (forall l k,
     0 <= l < 65536 -> 0 < k < 65536 ->
     fst (Rtp.observe l ((l + 1 + k) mod 65536)) = k /\
     fst (Rtp.observe l ((l + 1 - k) mod 65536)) = 65536 - k) /\
  (forall t0 s evs,
     0 <= s < 65536 ->
     map AudioReceiver.sequence_of evs
     = map Some [s; (s + 2) mod 65536; (s + 1) mod 65536; (s + 3) mod 65536] ->
     exists r',
       AudioReceiver.run AudioReceiver.init true t0 evs = Next r' /\
       AudioReceiver.errors (AudioReceiver.stats_of r') = 65536 /\
       AudioReceiver.packets_received (AudioReceiver.stats_of r') = 4) /\
  (forall s evs,
     0 <= s < 65536 ->
     map MinimalAudioReceiver.sequence_of evs
     = map Some [s; (s + 2) mod 65536; (s + 1) mod 65536; (s + 3) mod 65536] ->
     exists r',
       MinimalAudioReceiver.run MinimalAudioReceiver.init true evs = Next r' /\
       MinimalAudioReceiver.errors (MinimalAudioReceiver.stats_of r') = 65536).
Proof.
  assert (Hbehind : forall l k, 0 <= l < 65536 -> 0 < k < 65536 ->
            fst (Rtp.observe l ((l + 1 - k) mod 65536)) = 65536 - k).
  { intros l k Hl Hk.
    rewrite <- (observe_ahead l (65536 - k) Hl ltac:(lia)). do 2 f_equal.
    replace (l + 1 + (65536 - k)) with (l + 1 - k + 1 * 65536) by lia.
    symmetry. apply Z.mod_add. lia. }
  assert (Htrack : forall s, 0 <= s < 65536 ->
            fst (fold_left Rtp.track
                   [s; (s + 2) mod 65536; (s + 1) mod 65536;
                    (s + 3) mod 65536] (0, -1)) = 65536).
  { intros s Hs. cbn [fold_left]. unfold Rtp.track. cbn [fst snd].
    rewrite !observe_snd, observe_unset.
    pose proof (observe_ahead s 1 Hs ltac:(lia)) as H1.
    replace (s + 1 + 1) with (s + 2) in H1 by lia. rewrite H1.
    assert (H2r : 0 <= (s + 2) mod 65536 < 65536)
      by (apply Z.mod_pos_bound; lia).
    pose proof (Hbehind ((s + 2) mod 65536) 2 H2r ltac:(lia)) as H2.
    replace ((s + 2) mod 65536 + 1 - 2) with ((s + 2) mod 65536 + (-1)) in H2
      by lia.
    rewrite Z.add_mod_idemp_l in H2 by lia.
    replace (s + 2 + -1) with (s + 1) in H2 by lia. rewrite H2.
    assert (H3r : 0 <= (s + 1) mod 65536 < 65536)
      by (apply Z.mod_pos_bound; lia).
    pose proof (observe_ahead ((s + 1) mod 65536) 1 H3r ltac:(lia)) as H3.
    replace ((s + 1) mod 65536 + 1 + 1) with ((s + 1) mod 65536 + 2) in H3
      by lia.
    rewrite Z.add_mod_idemp_l in H3 by lia.
    replace (s + 1 + 2) with (s + 3) in H3 by lia. rewrite H3. lia. }
  split; [|split].
  - intros l k Hl Hk. split; [apply observe_ahead | apply Hbehind]; assumption.
  - intros t0 s evs Hs Hm. unfold AudioReceiver.run.
    cbn [AudioReceiver.start fst snd].
    destruct (audio_loop_track evs _
                (fst (AudioReceiver.start AudioReceiver.init true t0))
                eq_refl Hm) as (r' & El & _ & Ht).
    cbn [AudioReceiver.start fst] in El.
    destruct audio_exact_accounting with (evs := evs)
      (r := fst (AudioReceiver.start AudioReceiver.init true t0)) (r' := r')
      as [Hp _]; [exact El|].
    rewrite El. exists r'. split; [reflexivity|].
    apply (f_equal fst) in Ht. cbn [fst] in Ht. split.
    + rewrite Ht. apply (Htrack s Hs).
    + rewrite Hp. clear - Hm.
      do 4 (destruct evs as [|? evs]; [discriminate|]).
      destruct evs; [|discriminate].
      simpl in Hm. injection Hm as H1 H2 H3 H4.
      repeat match goal with
      | H : AudioReceiver.sequence_of ?e = Some _ |- _ =>
          destruct e; try discriminate H;
          apply accepted_sequence_passes in H
      end.
      cbn [map Trace.sum fold_right Trace.audio_datagram Trace.accepted_count
           AudioReceiver.start fst AudioReceiver.stats_of AudioReceiver.init
           AudioReceiver.packets_received].
      rewrite H1, H2, H3, H4. reflexivity.
  - intros s evs Hs Hm. unfold MinimalAudioReceiver.run.
    cbn [MinimalAudioReceiver.start fst snd].
    destruct (minimal_loop_track evs _
                (fst (MinimalAudioReceiver.start MinimalAudioReceiver.init
                        true))
                eq_refl Hm) as (r' & El & _ & Ht).
    cbn [MinimalAudioReceiver.start fst] in El. rewrite El.
    exists r'. split; [reflexivity|].
    apply (f_equal fst) in Ht. cbn [fst] in Ht. rewrite Ht.
    apply (Htrack s Hs).
Qed.

(** The pair 65535, 0 swapped in AudioReceiver: 65534, 0, 65535, 1. *)
Lemma X19_swapped_pair_counts_65536_witness :
  0 <= 65534 < 65536 /\
  exists r',
    AudioReceiver.run AudioReceiver.init true 0
      (map (fun s => AudioReceiver.Received (Rtp.datagram s [x00]) 1
                       AudioReceiver.Written)
         [65534; 0; 65535; 1]) = Next r' /\
    AudioReceiver.errors (AudioReceiver.stats_of r') = 65536 /\
    AudioReceiver.packets_received (AudioReceiver.stats_of r') = 4.
Proof.
  split; [lia|].
  destruct X19_swapped_pair_counts_65536 as (_ & H & _).
  apply (H 0 65534); [lia | vm_compute; reflexivity].
Defined.
